(** * capfuse: word timing optimisation and caption layout

    A shallow embedding of [src/worker/timing.py] (class [TimingOptimizer])
    and of the grouping and reading-load parts of [src/worker/ass_builder.py],
    with the properties the specification states about them.

    Conventions of the embedding.
    - A word dict [{'word', 'start', 'end', 'active'}] is a record; the
      ['active'] key is optional in the source ([word.get('active', True)]),
      so the field is an [option bool].
    - Times are Python floats in the source.  They are modelled as exact
      rationals ([Q]): every comparison and every arithmetic step of the
      source is kept; rounding, infinities and NaN are not modelled.  The
      decimal constants of the source ([0.3], [0.05], [0.75], [0.1], ...)
      are the same decimals here.
    - In [timing.py], Python's [IndexError] on list subscripts is modelled
      by [option]: a subscript that is out of range yields [None], and the
      functions that subscript lists return [option].  In [ass_builder.py]
      the subscripts stand under the guards of the source
      ([if current_group], [if not group: continue],
      [i + 1 < len(groups) and groups[i + 1]], [if not words]) and are read
      by pattern matching.
    - The word dicts are copied before every update in the source
      ([word.copy()]), so a phase never changes the words of its input:
      the phases are functions from lists to lists.
    - Further parts of the code follow the parts above: the statistics and
      the reading speed of [timing.py], the timing loop of
      [parse_wts_to_word_srt] and [format_timestamp] of [main.py],
      [_seconds_to_ass_time] and [_escape_ass_text] of [ass_builder.py],
      the fallback filter of [filters.py] and [_process_gentle_output] of
      [alignment.py].  There, [//], [%] and [int] are the floor, the
      remainder and the truncation of exact rationals, [format] with two
      decimals rounds half to even, a text is a string of characters, and
      the string methods [lower], [isdigit], [isupper] and [strip] are
      variables of a section: nothing is assumed about them. *)

From Stdlib Require Import QArith Qminmax Lqa Lia String List Bool Arith.
From Stdlib Require Import Permutation.
From Stdlib Require Import Qround DecimalString Ascii.
Import ListNotations.
Open Scope Q_scope.

(** ** Python comparisons and helpers on numbers *)

Module Py.

(** [a < b], [a <= b], [a > b], [a >= b] as the booleans Python computes. *)
Definition lt (a b : Q) : bool := negb (Qle_bool b a).
Definition le (a b : Q) : bool := Qle_bool a b.
Definition gt (a b : Q) : bool := lt b a.
Definition ge (a b : Q) : bool := le b a.

(** [max(a, b)]: the first of the largest arguments. *)
Definition max (a b : Q) : Q := if gt b a then b else a.

(** Truthiness of an optional float: [None] and [0.0] are false. *)
Definition truthy (x : option Q) : bool :=
  match x with
  | None => false
  | Some c => negb (Qeq_bool c 0)
  end.

(** Errors as [option]. *)
Definition bind {A B : Type} (m : option A) (k : A -> option B) : option B :=
  match m with
  | Some a => k a
  | None => None
  end.

(** [l[i]] *)
Definition index {A : Type} (l : list A) (i : nat) : option A := nth_error l i.

(** [l[-1]] *)
Definition last_item {A : Type} (l : list A) : option A :=
  match l with
  | [] => None
  | x :: r => Some (last r x)
  end.

(** [l[-1] = v] on a non-empty list (nothing to update otherwise). *)
Definition set_last_item {A : Type} (l : list A) (v : A) : list A :=
  match l with
  | [] => []
  | _ => removelast l ++ [v]
  end.

End Py.

Notation "x <- m ;; k" := (Py.bind m (fun x => k))
  (at level 61, m at next level, right associativity).

(** ** Data model *)

Record Word : Type := mkWord {
  word : string;
  start : Q;
  end_ : Q;
  active : option bool
}.

(** [w['start'] = v] and [w['end'] = v] on a copy. *)
Definition set_start (w : Word) (v : Q) : Word :=
  mkWord (word w) v (end_ w) (active w).
Definition set_end (w : Word) (v : Q) : Word :=
  mkWord (word w) (start w) v (active w).

(** [w.get('active', True)] *)
Definition is_active (w : Word) : bool :=
  match active w with
  | Some b => b
  | None => true
  end.

(** ** src/worker/timing.py *)

Module Timing.

(** The attributes set by [TimingOptimizer.__init__]. *)
Record TimingOptimizer : Type := mkOptimizer {
  min_duration : Q;
  max_duration : Q;
  gap_merge_threshold : Q;
  active_word_bonus : Q
}.

(** [TimingOptimizer()] with the default arguments. *)
Definition default : TimingOptimizer := mkOptimizer 0.45 1.5 0.10 0.2.

(** [TimingOptimizer(gap_merge_threshold=0.0)], the optimizer that
    [main_enterprise.py] builds. *)
Definition enterprise : TimingOptimizer := mkOptimizer 0.45 1.5 0.0 0.2.

(** [sorted(words_data, key=lambda w: w['start'])]: a stable sort. *)
Fixpoint insert_by_start (w : Word) (l : list Word) : list Word :=
  match l with
  | [] => [w]
  | x :: r =>
      if Py.le (start w) (start x) then w :: l
      else x :: insert_by_start w r
  end.

Definition sorted_by_start (l : list Word) : list Word :=
  fold_right insert_by_start [] l.

Section Phases.
Variable self : TimingOptimizer.

(** [min_dur] of the loop body of [_apply_minimum_durations]. *)
Definition min_dur (w : Word) : Q :=
  if is_active w then min_duration self + active_word_bonus self
  else min_duration self.

Definition apply_minimum_duration (w : Word) : Word :=
  let current_duration := end_ w - start w in
  if Py.lt current_duration (min_dur w)
  then set_end w (start w + min_dur w)
  else w.

Definition _apply_minimum_durations (words : list Word) : list Word :=
  map apply_minimum_duration words.

(** Loop body of [_merge_short_gaps] for index [i]. *)
Definition merge_step (words : list Word) (acc : option (list Word))
    (i : nat) : option (list Word) :=
  merged_words <- acc ;;
  current_word <- Py.index words i ;;
  prev_word <- Py.last_item merged_words ;;
  let gap := start current_word - end_ prev_word in
  let merged_words :=
    if Py.le gap (gap_merge_threshold self)
    then Py.set_last_item merged_words (set_end prev_word (start current_word))
    else merged_words in
  Some (merged_words ++ [current_word]).

Definition _merge_short_gaps (words : list Word) : option (list Word) :=
  if (length words <=? 1)%nat then Some words
  else
    first <- Py.index words 0 ;;
    fold_left (merge_step words) (seq 1 (length words - 1)) (Some [first]).

(** Loop body of [_resolve_overlaps] for index [i]. *)
Definition resolve_step (words : list Word) (acc : option (list Word))
    (i : nat) : option (list Word) :=
  resolved_words <- acc ;;
  current_word <- Py.index words i ;;
  current_word <-
    (if (i + 1 <? length words)%nat then
       next_word <- Py.index words (i + 1) ;;
       if Py.gt (end_ current_word) (start next_word) then
         let overlap_start := start next_word in
         let overlap_end := end_ current_word in
         let overlap_duration := overlap_end - overlap_start in
         let split_point := overlap_start + overlap_duration * 0.3 in
         let buffer := 0.05 in
         let current_word := set_end current_word (split_point - buffer) in
         if Py.lt (end_ current_word - start current_word)
                  (min_duration self * 0.75) then
           let potential_start := end_ current_word - min_duration self * 0.75 in
           if (0 <? i)%nat then
             let prev_end :=
               match Py.last_item resolved_words with
               | Some p => end_ p
               | None => 0
               end in
             Some (set_start current_word (Py.max potential_start (prev_end + 0.05)))
           else
             Some (set_start current_word (Py.max potential_start 0))
         else Some current_word
       else Some current_word
     else Some current_word) ;;
  Some (resolved_words ++ [current_word]).

Definition _resolve_overlaps (words : list Word) : option (list Word) :=
  if (length words <=? 1)%nat then Some words
  else fold_left (resolve_step words) (seq 0 (length words)) (Some []).

Definition apply_maximum_duration (w : Word) : Word :=
  let duration := end_ w - start w in
  if Py.gt duration (max_duration self)
  then set_end w (start w + max_duration self)
  else w.

Definition _apply_maximum_durations (words : list Word) : list Word :=
  map apply_maximum_duration words.

(** Loop body of [_clamp_to_clip_duration]; [None] is the [continue]. *)
Definition clamp_word (clip_duration : Q) (w : Word) : option Word :=
  let clamped_word :=
    if Py.gt (end_ w) clip_duration then set_end w clip_duration else w in
  if Py.ge (start clamped_word) clip_duration then None
  else if Py.lt (end_ clamped_word - start clamped_word) 0.1
  then Some (set_start clamped_word (Py.max 0 (end_ clamped_word - 0.1)))
  else Some clamped_word.

Fixpoint _clamp_to_clip_duration (words : list Word) (clip_duration : Q)
    : list Word :=
  match words with
  | [] => []
  | w :: rest =>
      match clamp_word clip_duration w with
      | Some w' => w' :: _clamp_to_clip_duration rest clip_duration
      | None => _clamp_to_clip_duration rest clip_duration
      end
  end.

Definition validate_word (w : Word) : Word :=
  let validated_word :=
    if Py.le (end_ w) (start w) then set_end w (start w + 0.3) else w in
  if Py.lt (start validated_word) 0
  then set_end (set_start validated_word 0) (Py.max (end_ validated_word) 0.3)
  else validated_word.

Definition _validate_timing (words : list Word) : list Word :=
  map validate_word words.

Definition optimize_timing (words_data : list Word)
    (clip_duration : option Q) : option (list Word) :=
  match words_data with
  | [] => Some words_data
  | _ =>
      let words := sorted_by_start words_data in
      let words := _apply_minimum_durations words in
      words <- _merge_short_gaps words ;;
      words <- _resolve_overlaps words ;;
      let words := _apply_maximum_durations words in
      let words :=
        if Py.truthy clip_duration then
          match clip_duration with
          | Some c => _clamp_to_clip_duration words c
          | None => words
          end
        else words in
      Some (_validate_timing words)
  end.

End Phases.

End Timing.

(** ** src/worker/ass_builder.py *)

Module AssBuilder.

(** Local constants of [_group_words_into_sentences]. *)
Definition max_words_per_sentence : nat := 6.
Definition max_sentence_duration : Q := 3.5.
Definition large_gap_threshold : Q := 0.8.

(** The value of [should_break] for the word [w]. *)
Definition should_break (current_group : list Word) (w : Word) : bool :=
  match current_group with
  | [] => false
  | first :: _ =>
      let gap_from_last := start w - end_ (last current_group first) in
      let duration_from_first := start w - start first in
      (max_words_per_sentence <=? length current_group)%nat
      || Py.gt duration_from_first max_sentence_duration
      || Py.gt gap_from_last large_gap_threshold
  end.

(** Loop body of [_group_words_into_sentences]; the state is
    [(groups, current_group)]. *)
Definition group_step (st : list (list Word) * list Word) (w : Word)
    : list (list Word) * list Word :=
  let '(groups, current_group) := st in
  let '(groups, current_group) :=
    if should_break current_group w
    then (groups ++ [current_group], [])
    else (groups, current_group) in
  (groups, current_group ++ [w]).

(** The groups of [_group_words_into_sentences] before the overlap fix. *)
Definition group_words (words : list Word) : list (list Word) :=
  let '(groups, current_group) := fold_left group_step words ([], []) in
  match current_group with
  | [] => groups
  | _ => groups ++ [current_group]
  end.

(** Loop body of [_fix_sentence_timing_overlaps] for index [i]. *)
Definition fix_step (groups : list (list Word))
    (fixed_groups : list (list Word)) (i : nat) : list (list Word) :=
  match nth_error groups i with
  | None => fixed_groups
  | Some [] => fixed_groups
  | Some ((w0 :: _) as group) =>
      let fixed_group := group in
      let next_group :=
        if (i + 1 <? length groups)%nat then nth (i + 1) groups [] else [] in
      match next_group with
      | [] => fixed_groups ++ [fixed_group]
      | next_first :: _ =>
          let next_start := start next_first in
          let last_word := last fixed_group w0 in
          let current_end := end_ last_word in
          if Py.ge current_end next_start then
            let gap := 0.05 in
            let new_end := next_start - gap in
            let last_word := set_end last_word new_end in
            let fixed_group := removelast fixed_group ++ [last_word] in
            if Py.le (end_ last_word) (start last_word) then
              let fixed_group := removelast fixed_group in
              match fixed_group with
              | [] => fixed_groups
              | _ => fixed_groups ++ [fixed_group]
              end
            else fixed_groups ++ [fixed_group]
          else fixed_groups ++ [fixed_group]
      end
  end.

Definition _fix_sentence_timing_overlaps (groups : list (list Word))
    : list (list Word) :=
  if (length groups <=? 1)%nat then groups
  else fold_left (fix_step groups) (seq 0 (length groups)) [].

Definition _group_words_into_sentences (words : list Word)
    : list (list Word) :=
  match words with
  | [] => []
  | _ => _fix_sentence_timing_overlaps (group_words words)
  end.

(** The dict returned by [estimate_reading_load]. *)
Record ReadingLoad : Type := mkReadingLoad {
  total_words : nat;
  active_words : nat;
  words_per_second : Q;
  avg_word_duration_ms : Q;
  reading_difficulty : string;
  total_duration : Q;
  recommended_min_duration : Q
}.

(** [sum(...)]: left to right from [0]. *)
Definition sum (l : list Q) : Q := fold_left Qplus l 0.

Definition of_nat (n : nat) : Q := inject_Z (Z.of_nat n).

(** [estimate_reading_load]; [None] stands for the empty dict [{}]. *)
Definition estimate_reading_load (words : list Word) : option ReadingLoad :=
  match words with
  | [] => None
  | first :: _ =>
      let total_duration := end_ (last words first) - start first in
      let active_words := filter is_active words in
      let words_per_second :=
        if Py.gt total_duration 0
        then of_nat (length active_words) / total_duration
        else 0 in
      let avg_word_duration :=
        match active_words with
        | [] => 0
        | _ => sum (map (fun w => end_ w - start w) active_words)
               / of_nat (length active_words)
        end in
      let difficulty :=
        if Py.gt words_per_second 3.5 then "Very Hard"%string
        else if Py.gt words_per_second 2.5 then "Hard"%string
        else if Py.gt words_per_second 1.5 then "Medium"%string
        else "Easy"%string in
      Some (mkReadingLoad
              (length words)
              (length active_words)
              words_per_second
              (avg_word_duration * 1000)
              difficulty
              total_duration
              (if Py.gt words_per_second 2.5 then 0.4 else 0.3))
  end.

End AssBuilder.

Import Timing AssBuilder.

(** * Readings of the loops and predicates

    The loops of [_merge_short_gaps], [_resolve_overlaps] and
    [_group_words_into_sentences] walk a list by index or carry a state.
    The functions below say the same by recursion on the list; they are
    proved equal to the loops further down and serve to reason about
    them. *)

Section Readings.
Variable self : TimingOptimizer.

(** What the merge loop leaves of [w] when [next] follows it. *)
Definition merge_word (w : Word) (next : option Word) : Word :=
  match next with
  | Some n =>
      if Py.le (start n - end_ w) (gap_merge_threshold self)
      then set_end w (start n)
      else w
  | None => w
  end.

(** The merge loop read by recursion on the words. *)
Fixpoint merge_pairs (words : list Word) : list Word :=
  match words with
  | [] => []
  | w :: rest => merge_word w (hd_error rest) :: merge_pairs rest
  end.

(** What the overlap loop makes of [w], between the already resolved
    [prev] and the following input word [next]. *)
Definition resolve_word (prev : option Word) (w : Word) (next : option Word)
    : Word :=
  match next with
  | Some n =>
      if Py.gt (end_ w) (start n) then
        let w1 := set_end w (start n + (end_ w - start n) * 0.3 - 0.05) in
        if Py.lt (end_ w1 - start w1) (min_duration self * 0.75) then
          let potential_start := end_ w1 - min_duration self * 0.75 in
          match prev with
          | Some p => set_start w1 (Py.max potential_start (end_ p + 0.05))
          | None => set_start w1 (Py.max potential_start 0)
          end
        else w1
      else w
  | None => w
  end.

(** The overlap loop read by recursion on the words; [prev] is the last
    resolved word. *)
Fixpoint resolve_from (prev : option Word) (words : list Word) : list Word :=
  match words with
  | [] => []
  | w :: rest =>
      let w' := resolve_word prev w (hd_error rest) in
      w' :: resolve_from (Some w') rest
  end.

(** Phases 1 to 4 of [optimize_timing] on the sorted list. *)
Definition before_clip (words : list Word) : list Word :=
  _apply_maximum_durations self
    (resolve_from None
       (merge_pairs (_apply_minimum_durations self words))).

(** Phase 5 of [optimize_timing]: the clamp runs when [clip_duration] is
    truthy. *)
Definition clip_phase (clip_duration : option Q) (words : list Word) : list Word :=
  if Py.truthy clip_duration then
    match clip_duration with
    | Some c => _clamp_to_clip_duration words c
    | None => words
    end
  else words.

(** The merge loop on [w] when the next word starts at [next_start]. *)
Definition merge_at (w : Word) (next_start : option Q) : Word :=
  match next_start with
  | Some s =>
      if Py.le (s - end_ w) (gap_merge_threshold self) then set_end w s else w
  | None => w
  end.

(** Minimum duration, merge, maximum duration and validation of one word:
    what [optimize_timing] makes of it when no clip is given and the overlap
    loop finds nothing to do. *)
Definition settle (w : Word) (next_start : option Q) : Word :=
  validate_word
    (apply_maximum_duration self
       (merge_at (apply_minimum_duration self w) next_start)).

(** [settle] on every word, each with the start of its successor. *)
Fixpoint settle_all (words : list Word) : list Word :=
  match words with
  | [] => []
  | w :: rest => settle w (option_map start (hd_error rest)) :: settle_all rest
  end.

(** The end that [settle] gives a word with start [s], end [e] and
    effective minimum [eff], phase by phase. *)
Definition settled (eff s e : Q) (next_start : option Q) (e4 : Q) : Prop :=
  exists e1 e2 e3,
    ((e - s < eff /\ e1 = s + eff) \/ (eff <= e - s /\ e1 = e))
    /\ match next_start with
       | Some n =>
           (n - e1 <= gap_merge_threshold self /\ e2 = n)
           \/ (gap_merge_threshold self < n - e1 /\ e2 = e1)
       | None => e2 = e1
       end
    /\ ((max_duration self < e2 - s /\ e3 = s + max_duration self)
        \/ (e2 - s <= max_duration self /\ e3 = e2))
    /\ ((e3 <= s /\ e4 = s + 0.3) \/ (s < e3 /\ e4 = e3)).

End Readings.

(** The last resolved word, or [prev] when nothing was resolved yet. *)
Definition last_or (prev : option Word) (r : list Word) : option Word :=
  match Py.last_item r with
  | Some p => Some p
  | None => prev
  end.

(** The grouping loop read by recursion on the remaining words, with the
    group being built as accumulator. *)
Fixpoint split_groups (current_group : list Word) (words : list Word)
    : list (list Word) :=
  match words with
  | [] => match current_group with [] => [] | _ => [current_group] end
  | w :: rest =>
      if should_break current_group w
      then current_group :: split_groups [w] rest
      else split_groups (current_group ++ [w]) rest
  end.

(** The three break conditions, in the words of the specification. *)
Definition break_condition (g : list Word) (w : Word) : Prop :=
  exists first,
    hd_error g = Some first
    /\ ((6 <= length g)%nat
        \/ start w - start first > 3.5
        \/ start w - end_ (last g first) > 0.8).

(** No word of [g] other than its first one met a break condition against
    the words of [g] before it. *)
Definition unbroken (g : list Word) : Prop :=
  forall p w r, g = p ++ w :: r -> p <> [] -> ~ break_condition p w.

(** Every group is non-empty and unbroken, and every group after the first
    begins with a word that met a break condition against the whole group
    before it. *)
Inductive grouped : list (list Word) -> Prop :=
| grouped_nil : grouped []
| grouped_one g : g <> [] -> unbroken g -> grouped [g]
| grouped_cons g w r gs :
    g <> [] -> unbroken g -> break_condition g w ->
    grouped ((w :: r) :: gs) -> grouped (g :: (w :: r) :: gs).

(** What the fix loop makes of [group] when [next_group] follows it;
    [None] when the group is dropped. *)
Definition fix_group (group next_group : list Word) : option (list Word) :=
  match group with
  | [] => None
  | w0 :: _ =>
      match next_group with
      | [] => Some group
      | next_first :: _ =>
          let last_word := last group w0 in
          if Py.ge (end_ last_word) (start next_first) then
            let last_word := set_end last_word (start next_first - 0.05) in
            if Py.le (end_ last_word) (start last_word) then
              match removelast group with
              | [] => None
              | g => Some g
              end
            else Some (removelast group ++ [last_word])
          else Some group
      end
  end.

(** The fix loop read by recursion on the groups. *)
Fixpoint fix_from (groups : list (list Word)) : list (list Word) :=
  match groups with
  | [] => []
  | g :: rest =>
      match fix_group g (hd [] rest) with
      | Some g' => g' :: fix_from rest
      | None => fix_from rest
      end
  end.

(** Every word ends before every later word starts. *)
Fixpoint apart (l : list Word) : Prop :=
  match l with
  | [] => True
  | w :: rest => Forall (fun n => end_ w <= start n) rest /\ apart rest
  end.

(** [l'] is [l] with some words removed and some ends moved earlier. *)
Inductive thinned : list Word -> list Word -> Prop :=
| thinned_nil : thinned [] []
| thinned_keep w w' l l' :
    start w' = start w -> end_ w' <= end_ w -> thinned l l' ->
    thinned (w :: l) (w' :: l')
| thinned_drop w l l' : thinned l l' -> thinned (w :: l) l'.

(** The last word of each group ends before the next group starts. *)
Fixpoint groups_apart (gs : list (list Word)) : Prop :=
  match gs with
  | [] => True
  | g :: rest =>
      match rest with
      | [] => True
      | g' :: _ =>
          forall l f, Py.last_item g = Some l -> hd_error g' = Some f ->
                      end_ l <= start f
      end /\ groups_apart rest
  end.

(** The text and the start of the word that opens a group. *)
Definition opening (g : list Word) : option (string * Q) :=
  option_map (fun w => (word w, start w)) (hd_error g).

(** The result of final validation: [end > start] and [start >= 0]. *)
Definition well_timed (w : Word) : Prop := start w < end_ w /\ 0 <= start w.

(** Adjacent words do not overlap in time: [end[i] <= start[i+1]]. *)
Fixpoint no_overlap (words : list Word) : Prop :=
  match words with
  | [] => True
  | w :: rest =>
      match rest with
      | [] => True
      | n :: _ => end_ w <= start n
      end /\ no_overlap rest
  end.

(** The words are in ascending order of start. *)
Fixpoint sorted_starts (words : list Word) : Prop :=
  match words with
  | [] => True
  | w :: rest =>
      match rest with
      | [] => True
      | n :: _ => start w <= start n
      end /\ sorted_starts rest
  end.

(** No two adjacent words start together. *)
Fixpoint distinct_starts (words : list Word) : Prop :=
  match words with
  | [] => True
  | w :: rest =>
      match rest with
      | [] => True
      | n :: _ => start w < start n
      end /\ distinct_starts rest
  end.

(** [w'] is [w] with other times. *)
Definition retimed (w w' : Word) : Prop :=
  word w' = word w /\ active w' = active w.

(** Two words carry the same text, times and flag; times are compared as
    rationals. *)
Definition word_eqv (a b : Word) : Prop :=
  word a = word b /\ start a == start b /\ end_ a == end_ b
  /\ active a = active b.

Definition words_eqv : list Word -> list Word -> Prop := Forall2 word_eqv.

(** The test words of [ass_builder.py], all five active. *)
Definition five_active_words : list Word :=
  [ mkWord "One" 0.0 0.5 (Some true);
    mkWord "of" 0.5 0.8 (Some true);
    mkWord "my" 0.8 1.1 (Some true);
    mkWord "favorite" 1.1 1.8 (Some true);
    mkWord "things" 1.8 2.3 (Some true) ].

(** Seven words, each lasting 0.3s and following the previous one without
    a gap. *)
Definition seven_words : list Word :=
  [ mkWord "w1" 0 0.3 None;   mkWord "w2" 0.3 0.6 None;
    mkWord "w3" 0.6 0.9 None; mkWord "w4" 0.9 1.2 None;
    mkWord "w5" 1.2 1.5 None; mkWord "w6" 1.5 1.8 None;
    mkWord "w7" 1.8 2.1 None ].

Section MoreReadings.
Variable self : TimingOptimizer.

(** Minimum duration, merge and maximum duration of one word: phases 1
    to 4 of [optimize_timing] when the overlap loop finds nothing to
    do. *)
Definition presettle (w : Word) (next_start : option Q) : Word :=
  apply_maximum_duration self
    (merge_at self (apply_minimum_duration self w) next_start).

(** [presettle] on every word, each with the start of its successor. *)
Fixpoint presettle_all (words : list Word) : list Word :=
  match words with
  | [] => []
  | w :: rest =>
      presettle w (option_map start (hd_error rest)) :: presettle_all rest
  end.

(** What one run makes of a word that starts before the clip duration,
    phase by phase: the ends [e1], [e2], [e3] after minimum duration,
    merge and maximum duration, the end [e4] and the start [s4] after the
    clamp, and the end [e5] after validation. *)
Definition run_stages (eff s e : Q) (next_start : option Q) (c s4 e5 : Q)
    : Prop :=
  exists e1 e2 e3 e4,
    ((e - s < eff /\ e1 = s + eff) \/ (eff <= e - s /\ e1 = e))
    /\ match next_start with
       | Some n =>
           (n - e1 <= gap_merge_threshold self /\ e2 = n)
           \/ (gap_merge_threshold self < n - e1 /\ e2 = e1)
       | None => e2 = e1
       end
    /\ ((max_duration self < e2 - s /\ e3 = s + max_duration self)
        \/ (e2 - s <= max_duration self /\ e3 = e2))
    /\ ((c < e3 /\ e4 = c) \/ (e3 <= c /\ e4 = e3))
    /\ ((e4 - s < 0.1 /\ 0 < e4 - 0.1 /\ s4 = e4 - 0.1)
        \/ (e4 - s < 0.1 /\ e4 - 0.1 <= 0 /\ s4 = 0)
        \/ (0.1 <= e4 - s /\ s4 = s))
    /\ ((e4 <= s4 /\ e5 = s4 + 0.3) \/ (s4 < e4 /\ e5 = e4)).

End MoreReadings.

(** The clamp to [c] does not move the start of [w]: it drops [w], cuts
    its end or leaves it as it is. *)
Definition clamp_keeps_start (c : Q) (w : Word) : Prop :=
  forall w', clamp_word c w = Some w' -> start w' == start w.

(** The test words of [timing.py]. *)
Definition test_words : list Word :=
  [ mkWord "One" 0.02 0.13 (Some true);
    mkWord "of" 0.15 0.21 (Some false);
    mkWord "favorite" 0.29 0.64 (Some true);
    mkWord "things" 0.64 0.9 (Some true);
    mkWord "really" 7.64 8.04 (Some true) ].

(** [TimingOptimizer(gap_merge_threshold=-1.0)]: with a threshold below 0
    the merge loop leaves gaps and overlaps of less than 1s as they are,
    so that the overlap loop has work to do. *)
Definition no_merge : TimingOptimizer := mkOptimizer 0.45 1.5 (-1) 0.2.

(** * Further parts of the code *)

(** ** src/worker/timing.py: statistics and helpers *)

Module Stats.

(** [min(l)]: the first of the smallest items; [None] is the ValueError
    on an empty list. *)
Definition min_list (l : list Q) : option Q :=
  match l with
  | [] => None
  | x :: r => Some (fold_left (fun m y => if Py.lt y m then y else m) r x)
  end.

(** [max(l)]: the first of the largest items. *)
Definition max_list (l : list Q) : option Q :=
  match l with
  | [] => None
  | x :: r => Some (fold_left (fun m y => if Py.gt y m then y else m) r x)
  end.

(** [sorted(l)] on numbers: a stable sort. *)
Fixpoint insert (x : Q) (l : list Q) : list Q :=
  match l with
  | [] => [x]
  | y :: r => if Py.le x y then x :: l else y :: insert x r
  end.

Definition sorted (l : list Q) : list Q := fold_right insert [] l.

(** [a / b]; [None] is the ZeroDivisionError. *)
Definition truediv (a b : Q) : option Q :=
  if Qeq_bool b 0 then None else Some (a / b).

(** The dict returned by [get_timing_stats], key by key. *)
Record DurationStats : Type := mkDurationStats {
  duration_min : Q;
  duration_max : Q;
  duration_avg : Q;
  duration_median : Q
}.

Record GapStats : Type := mkGapStats {
  gap_min : Q;
  gap_max : Q;
  gap_avg : Q;
  negative_gaps : nat
}.

Record TimingRange : Type := mkTimingRange {
  range_start : Q;
  range_end : Q;
  range_total_duration : Q
}.

Record TimingStats : Type := mkTimingStats {
  total_words : nat;
  duration_stats : DurationStats;
  gap_stats : GapStats;
  timing_range : TimingRange
}.

(** Loop body of the gap loop of [get_timing_stats] for index [i]. *)
Definition gap_step (words : list Word) (acc : option (list Q)) (i : nat)
    : option (list Q) :=
  gaps <- acc ;;
  next <- Py.index words (i + 1) ;;
  current <- Py.index words i ;;
  Some (gaps ++ [start next - end_ current]).

(** [get_timing_stats]; the inner [None] stands for the empty dict [{}],
    the outer one for an exception.  The method reads no field of the
    optimizer. *)
Definition get_timing_stats (words : list Word) : option (option TimingStats) :=
  match words with
  | [] => Some None
  | _ =>
      let durations := map (fun w => end_ w - start w) words in
      gaps <- fold_left (gap_step words) (seq 0 (length words - 1)) (Some []) ;;
      dmin <- min_list durations ;;
      dmax <- max_list durations ;;
      davg <- truediv (sum durations) (of_nat (length durations)) ;;
      dmedian <- Py.index (sorted durations) (length durations / 2) ;;
      gmin <- match gaps with [] => Some 0 | _ => min_list gaps end ;;
      gmax <- match gaps with [] => Some 0 | _ => max_list gaps end ;;
      gavg <- match gaps with
              | [] => Some 0
              | _ => truediv (sum gaps) (of_nat (length gaps))
              end ;;
      first <- Py.index words 0 ;;
      last_word <- Py.last_item words ;;
      Some (Some (mkTimingStats
                    (length words)
                    (mkDurationStats dmin dmax davg dmedian)
                    (mkGapStats gmin gmax gavg
                       (length (filter (fun g => Py.lt g 0) gaps)))
                    (mkTimingRange (start first) (end_ last_word)
                       (end_ last_word - start first))))
  end.

(** [calculate_reading_speed], in words per minute. *)
Definition calculate_reading_speed (words : list Word) : option Q :=
  if (length words <? 2)%nat then Some 0
  else
    last_word <- Py.last_item words ;;
    first <- Py.index words 0 ;;
    let total_duration := end_ last_word - start first in
    if Py.le total_duration 0 then Some 0
    else truediv (of_nat (length words * 60)) total_duration.

End Stats.

(** The gaps between adjacent words, by recursion on the words. *)
Fixpoint gaps_of (words : list Word) : list Q :=
  match words with
  | [] => []
  | w :: rest =>
      match rest with
      | [] => []
      | n :: _ => (start n - end_ w) :: gaps_of rest
      end
  end.

Definition durations_of (words : list Word) : list Q :=
  map (fun w => end_ w - start w) words.

(** ** src/worker/main.py: the timing loop of [parse_wts_to_word_srt] *)

Module WordSrt.

(** The tuples [(word, start_time, end_time)] of [words_data] and
    [improved_words]. *)
Definition Timed : Type := (string * Q * Q)%type.

Definition text (t : Timed) : string := fst (fst t).
Definition start_time (t : Timed) : Q := snd (fst t).
Definition end_time (t : Timed) : Q := snd t.

Definition min_duration : Q := 0.4.
Definition max_duration : Q := 1.5.

(** Loop body of the timing loop for index [i]. *)
Definition improve_step (words_data : list Timed) (acc : option (list Timed))
    (i : nat) : option (list Timed) :=
  improved_words <- acc ;;
  item <- Py.index words_data i ;;
  let '(word, original_start, original_end) := item in
  let start_time := original_start in
  let end_time := original_end in
  let end_time :=
    if Py.lt (end_time - start_time) min_duration
    then start_time + min_duration
    else end_time in
  times <-
    (if (i + 1 <? length words_data)%nat then
       next <- Py.index words_data (i + 1) ;;
       let next_word_start := snd (fst next) in
       if Py.gt end_time (next_word_start - 0.05) then
         let end_time := next_word_start - 0.05 in
         if Py.lt (end_time - start_time) (min_duration * 0.75) then
           let potential_start := end_time - min_duration * 0.75 in
           if (0 <? i)%nat then
             prev_word_end <-
               match improved_words with
               | [] => Some 0
               | _ => option_map snd (Py.index improved_words (i - 1))
               end ;;
             Some (Py.max potential_start (prev_word_end + 0.05), end_time)
           else Some (Py.max potential_start 0, end_time)
         else Some (start_time, end_time)
       else Some (start_time, end_time)
     else Some (start_time, end_time)) ;;
  let '(start_time, end_time) := times in
  let end_time :=
    if Py.gt (end_time - start_time) max_duration
    then start_time + max_duration
    else end_time in
  let end_time :=
    if Py.le end_time start_time then start_time + 0.3 else end_time in
  Some (improved_words ++ [(word, start_time, end_time)]).

(** [improved_words] at the end of the loop; [None] is an IndexError. *)
Definition improve_timing (words_data : list Timed) : option (list Timed) :=
  fold_left (improve_step words_data) (seq 0 (length words_data)) (Some []).

End WordSrt.

(** What the timing loop of [main.py] makes of [item], after a word that
    was given the end [prev_end] and before the input word [next]. *)
Definition improve_word (prev_end : option Q) (item : WordSrt.Timed)
    (next : option WordSrt.Timed) : WordSrt.Timed :=
  let s := WordSrt.start_time item in
  let e1 := if Py.lt (WordSrt.end_time item - s) WordSrt.min_duration
            then s + WordSrt.min_duration else WordSrt.end_time item in
  let '(s2, e2) :=
    match next with
    | Some n =>
        if Py.gt e1 (WordSrt.start_time n - 0.05) then
          let e := WordSrt.start_time n - 0.05 in
          if Py.lt (e - s) (WordSrt.min_duration * 0.75) then
            let potential_start := e - WordSrt.min_duration * 0.75 in
            match prev_end with
            | Some p => (Py.max potential_start (p + 0.05), e)
            | None => (Py.max potential_start 0, e)
            end
          else (s, e)
        else (s, e1)
    | None => (s, e1)
    end in
  let e3 := if Py.gt (e2 - s2) WordSrt.max_duration
            then s2 + WordSrt.max_duration else e2 in
  let e4 := if Py.le e3 s2 then s2 + 0.3 else e3 in
  (WordSrt.text item, s2, e4).

(** The timing loop read by recursion on the words. *)
Fixpoint improve_from (prev_end : option Q) (words : list WordSrt.Timed)
    : list WordSrt.Timed :=
  match words with
  | [] => []
  | item :: rest =>
      let item' := improve_word prev_end item (hd_error rest) in
      item' :: improve_from (Some (WordSrt.end_time item')) rest
  end.

(** Adjacent words are at least 50ms apart. *)
Fixpoint buffered (words : list WordSrt.Timed) : Prop :=
  match words with
  | [] => True
  | a :: rest =>
      match rest with
      | [] => True
      | b :: _ => WordSrt.end_time a + 0.05 <= WordSrt.start_time b
      end /\ buffered rest
  end.

(** The words start at 0 or later, each more than 50ms after the one
    before it. *)
Fixpoint spaced (words : list WordSrt.Timed) : Prop :=
  match words with
  | [] => True
  | a :: rest =>
      0 <= WordSrt.start_time a
      /\ match rest with
         | [] => True
         | b :: _ => WordSrt.start_time a + 0.05 < WordSrt.start_time b
         end
      /\ spaced rest
  end.

(** Adjacent words are at least 50ms apart, or the earlier one was
    repaired to last 0.3s. *)
Fixpoint buffered_or_repaired (words : list WordSrt.Timed) : Prop :=
  match words with
  | [] => True
  | a :: rest =>
      match rest with
      | [] => True
      | b :: _ =>
          WordSrt.end_time a + 0.05 <= WordSrt.start_time b
          \/ WordSrt.end_time a = WordSrt.start_time a + 0.3
      end /\ buffered_or_repaired rest
  end.

(** ** Timestamps: [format_timestamp] of [main.py] and
    [main_enterprise.py], [_seconds_to_ass_time] of [ass_builder.py] *)

Module TimeFormat.

(** [int(a // b)] for a positive [b]: the floor of the quotient. *)
Definition floordiv (a b : Q) : Z := Qfloor (a / b).

(** [a % b] for a positive [b]: what the floor of the quotient leaves. *)
Definition mod_ (a b : Q) : Q := a - inject_Z (Qfloor (a / b)) * b.

(** [int(x)]: truncation toward zero. *)
Definition int (x : Q) : Z := if Qle_bool 0 x then Qfloor x else Qceiling x.

(** Rounding to the nearest integer, ties to the even one: the rounding
    of [format] with a precision. *)
Definition round_half_even (x : Q) : Z :=
  let f := Qfloor x in
  let d := x - inject_Z f in
  if Py.lt d 0.5 then f
  else if Py.gt d 0.5 then (f + 1)%Z
  else if Z.even f then f else (f + 1)%Z.

(** Zeros in front of [s] up to [width] characters. *)
Fixpoint zeros (n : nat) (s : string) : string :=
  match n with
  | O => s
  | S k => String "0"%char (zeros k s)
  end.

(** [format(n, '0<width>d')]: the sign first, then zeros, then the
    digits. *)
Definition pad (width : nat) (n : Z) : string :=
  let digits := NilZero.string_of_uint (Nat.to_uint (Z.to_nat (Z.abs n))) in
  if (n <? 0)%Z
  then String "-"%char (zeros (width - 1 - String.length digits) digits)
  else zeros (width - String.length digits) digits.

(** The local variables of [format_timestamp] at its [return]. *)
Record SrtFields : Type := mkSrtFields {
  hours : Z;
  minutes : Z;
  seconds : Z;
  milliseconds : Z
}.

Definition srt_fields (seconds : Q) : SrtFields :=
  let hours := floordiv seconds 3600 in
  let minutes := floordiv (mod_ seconds 3600) 60 in
  let seconds := mod_ seconds 60 in
  let milliseconds := int ((seconds - inject_Z (int seconds)) * 1000) in
  let seconds := int seconds in
  mkSrtFields hours minutes seconds milliseconds.

(** [format_timestamp]: [HH:MM:SS,mmm]. *)
Definition format_timestamp (seconds : Q) : string :=
  let f := srt_fields seconds in
  (pad 2 (hours f) ++ ":" ++ pad 2 (minutes f) ++ ":"
   ++ pad 2 (TimeFormat.seconds f) ++ "," ++ pad 3 (milliseconds f))%string.

(** The fields of [_seconds_to_ass_time]; [centiseconds] is [secs] as
    [format] rounds it to two decimals, in hundredths. *)
Record AssFields : Type := mkAssFields {
  ass_hours : Z;
  ass_minutes : Z;
  centiseconds : Z
}.

Definition ass_fields (seconds : Q) : AssFields :=
  let hours := floordiv seconds 3600 in
  let minutes := floordiv (mod_ seconds 3600) 60 in
  let secs := mod_ seconds 60 in
  mkAssFields hours minutes (round_half_even (secs * 100)).

(** [format(secs, '05.2f')] of a [secs] of 0 or more, from its
    hundredths. *)
Definition fixed2 (centiseconds : Z) : string :=
  (pad 2 (centiseconds / 100) ++ "." ++ pad 2 (centiseconds mod 100))%string.

(** [_seconds_to_ass_time]: [H:MM:SS.CC]. *)
Definition _seconds_to_ass_time (seconds : Q) : string :=
  let f := ass_fields seconds in
  (pad 1 (ass_hours f) ++ ":" ++ pad 2 (ass_minutes f) ++ ":"
   ++ fixed2 (centiseconds f))%string.

End TimeFormat.

(** ** src/worker/ass_builder.py: escaping of the caption text *)

Module Escape.

(** [s.replace(old, new)] for a non-empty [old]: the occurrences of [old]
    that do not overlap, from the left; [skip] counts the characters of
    an occurrence still to pass. *)
Fixpoint replace_from (old new : string) (skip : nat) (s : string) : string :=
  match s with
  | EmptyString => EmptyString
  | String c rest =>
      match skip with
      | S k => replace_from old new k rest
      | O =>
          if String.prefix old s
          then (new ++ replace_from old new (String.length old - 1) rest)%string
          else String c (replace_from old new 0 rest)
      end
  end.

Definition replace (old new s : string) : string := replace_from old new 0 s.

(** [_escape_ass_text], with the literals of the source: two backslashes
    become four, and a brace gets two backslashes in front. *)
Definition _escape_ass_text (text : string) : string :=
  let text := replace "\\" "\\\\" text in
  let text := replace "{" "\\{" text in
  let text := replace "}" "\\}" text in
  text.

End Escape.

(** Every brace of [s] has two backslashes or more directly in front of
    it; [run] counts the backslashes just read. *)
Fixpoint braces_escaped (run : nat) (s : string) : bool :=
  match s with
  | EmptyString => true
  | String c rest =>
      if Ascii.eqb c "\" then braces_escaped (S run) rest
      else if Ascii.eqb c "{" || Ascii.eqb c "}"
           then (2 <=? run)%nat && braces_escaped 0 rest
           else braces_escaped 0 rest
  end.

(** [s] has no backslash and no brace. *)
Fixpoint plain (s : string) : bool :=
  match s with
  | EmptyString => true
  | String c rest =>
      negb (Ascii.eqb c "\" || Ascii.eqb c "{" || Ascii.eqb c "}") && plain rest
  end.

(** ** src/worker/filters.py: the fallback filter of [WordFilter] *)

Module Filters.

Open Scope string_scope.

(** [self.fallback_stop_words] *)
Definition fallback_stop_words : list string :=
  [ "a"; "an"; "the";
    "in"; "on"; "at"; "by"; "for"; "with"; "from"; "to"; "of"; "up"; "out";
    "off"; "down"; "over"; "under"; "above"; "below"; "through"; "between";
    "into"; "onto"; "upon";
    "and"; "or"; "but"; "so"; "yet"; "nor"; "because"; "since"; "while";
    "although"; "though";
    "is"; "are"; "was"; "were"; "be"; "been"; "being"; "have"; "has"; "had";
    "do"; "does"; "did";
    "will"; "would"; "could"; "should"; "may"; "might"; "can"; "must"; "shall";
    "it"; "its"; "they"; "them"; "their"; "theirs";
    "that"; "this"; "these"; "those"; "some"; "any"; "all"; "each"; "every";
    "very"; "too"; "also"; "then"; "than"; "now"; "here"; "there"; "yes";
    "yeah"; "ok"; "okay" ].

(** [self.preserve_patterns] *)
Definition preserve_patterns : list (string * list string) :=
  [ ("emphasis",
     ["really"; "very"; "super"; "totally"; "absolutely"; "definitely"]);
    ("direction", ["up"; "down"; "in"; "out"; "over"; "under"; "through"]);
    ("important_pronouns", ["i"; "me"; "you"; "we"; "us"]);
    ("questions", ["what"; "when"; "where"; "why"; "how"; "who"; "which"]) ].

(** [word in set] *)
Definition mem (w : string) (set : list string) : bool :=
  existsb (String.eqb w) set.

(** [w['active'] = v] on a copy. *)
Definition set_active (w : Word) (v : bool) : Word :=
  mkWord (word w) (start w) (end_ w) (Some v).

Section StringMethods.

(** [str.lower], [str.isdigit] and [str.isupper] of a character. *)
Variable lower : string -> string.
Variable isdigit : string -> bool.
Variable isupper : ascii -> bool.

Definition _is_contextually_important (word : string) (words_data : list Word)
    (index : nat) : bool :=
  if (length words_data <=? 3)%nat then true
  else if isdigit word
          || match word with
             | EmptyString => false
             | String c _ => isupper c
             end
       then true
  else if mem word ["not"; "no"; "never"; "nothing"; "nobody"; "none"]
       then true
  else false.

(** Loop body of [_filter_with_fallback] for the word at index [i]. *)
Definition filter_step (words_data : list Word) (show_filler : bool)
    (filtered_words : list Word) (item : nat * Word) : list Word :=
  let '(i, word_data) := item in
  let word := lower (word word_data) in
  let is_active := true in
  let is_active := if mem word fallback_stop_words then false else is_active in
  let is_active :=
    if existsb (fun category => mem word (snd category)) preserve_patterns
    then true else is_active in
  let is_active :=
    if _is_contextually_important word words_data i then true else is_active in
  let word_result := set_active word_data is_active in
  if show_filler || is_active
  then filtered_words ++ [word_result]
  else filtered_words.

Definition _filter_with_fallback (words_data : list Word) (show_filler : bool)
    : list Word :=
  fold_left (filter_step words_data show_filler)
    (combine (seq 0 (length words_data)) words_data) [].

End StringMethods.

End Filters.

Section FallbackFlag.
Variable lower : string -> string.
Variable isdigit : string -> bool.
Variable isupper : ascii -> bool.

(** The flag that the loop of [_filter_with_fallback] gives a word. *)
Definition fallback_flag (words_data : list Word) (w : Word) : bool :=
  let word := lower (word w) in
  if Filters._is_contextually_important isdigit isupper word words_data 0
  then true
  else if existsb (fun category => Filters.mem word (snd category))
            Filters.preserve_patterns
       then true
  else negb (Filters.mem word Filters.fallback_stop_words).

End FallbackFlag.

(** ** src/worker/alignment.py: the result of the Gentle alignment *)

Module Alignment.

(** A word of Gentle's output; a key that is missing is [None]. *)
Record GentleWord : Type := mkGentleWord {
  case : option string;
  gentle_word : option string;
  gentle_start : option Q;
  gentle_end : option Q;
  aligned_confidence : option Q
}.

(** A word of the result. *)
Record AlignedWord : Type := mkAlignedWord {
  aligned_word : string;
  aligned_start : Q;
  aligned_end : Q;
  confidence : Q;
  source : string
}.

(** The dict [alignment_stats]. *)
Record AlignmentStats : Type := mkAlignmentStats {
  total_words : nat;
  aligned_words : nat;
  alignment_rate : Q
}.

(** [d.get(key, default)] *)
Definition get {A : Type} (v : option A) (default : A) : A :=
  match v with
  | Some a => a
  | None => default
  end.

(** [w.get('case') == 'success'] *)
Definition is_success (w : GentleWord) : bool :=
  match case w with
  | Some c => String.eqb c "success"
  | None => false
  end.

(** A timing found in the Whisper data. *)
Record Timing : Type := mkTiming {
  timing_start : Q;
  timing_end : Q
}.

(** [_find_fallback_timing]: always [None]. *)
Definition _find_fallback_timing {W : Type} (word : string) (whisper_data : W)
    : option Timing :=
  None.

Section Strip.

(** [str.strip] *)
Variable strip : string -> string.

(** Whisper's data, which the function passes on. *)
Variable Whisper : Type.

(** Loop body of [_process_gentle_output]. *)
Definition process_step (original_whisper : Whisper)
    (aligned_words : list AlignedWord) (word_data : GentleWord)
    : list AlignedWord :=
  if is_success word_data then
    aligned_words
    ++ [mkAlignedWord (strip (get (gentle_word word_data) ""%string))
          (get (gentle_start word_data) 0)
          (get (gentle_end word_data) 0)
          (get (aligned_confidence word_data) 1.0)
          "gentle"]
  else
    let word_text := strip (get (gentle_word word_data) ""%string) in
    if negb (String.eqb word_text "") then
      match _find_fallback_timing word_text original_whisper with
      | Some fallback_timing =>
          aligned_words
          ++ [mkAlignedWord word_text
                (timing_start fallback_timing) (timing_end fallback_timing)
                0.5 "whisper_fallback"]
      | None => aligned_words
      end
    else aligned_words.

(** [_process_gentle_output]: the words and the statistics of the
    result. *)
Definition _process_gentle_output (gentle_words : list GentleWord)
    (original_whisper : Whisper) : list AlignedWord * AlignmentStats :=
  let aligned_words :=
    fold_left (process_step original_whisper) gentle_words [] in
  let n_success := length (filter is_success gentle_words) in
  (aligned_words,
   mkAlignmentStats
     (length gentle_words)
     n_success
     (of_nat n_success / of_nat (Nat.max 1 (length gentle_words)))).

End Strip.

End Alignment.

(** ** Further predicates *)

(** [l'] keeps some words of [l], in their order, each changed within
    [R]. *)
Inductive kept (R : Word -> Word -> Prop) : list Word -> list Word -> Prop :=
| kept_nil : kept R [] []
| kept_keep w w' l l' : R w w' -> kept R l l' -> kept R (w :: l) (w' :: l')
| kept_drop w l l' : kept R l l' -> kept R (w :: l) l'.

(** [w'] is [w] with the same start and an end that is not later. *)
Definition shortened (w w' : Word) : Prop :=
  retimed w w' /\ start w' = start w /\ end_ w' <= end_ w.

(** Adjacent words of a group are at most [large_gap_threshold] apart. *)
Fixpoint close_words (g : list Word) : Prop :=
  match g with
  | [] => True
  | a :: rest =>
      match rest with
      | [] => True
      | b :: _ => start b - end_ a <= large_gap_threshold
      end /\ close_words rest
  end.

(** The limits of a caption group: its number of words, the time from its
    first start to any of its starts, and the gap between adjacent
    words. *)
Definition within_limits (g : list Word) : Prop :=
  (length g <= max_words_per_sentence)%nat
  /\ (forall first w, hd_error g = Some first -> In w g ->
                      start w - start first <= max_sentence_duration)
  /\ close_words g.

(** [g'] is [g] cut after one of its words, that word with the same
    start and an end that is not later. *)
Definition trimmed (g g' : list Word) : Prop :=
  exists p x x' suf, g = p ++ x :: suf /\ g' = p ++ [x'] /\ shortened x x'.

(** The words of [l] that start at [s], in their order. *)
Definition starting_at (s : Q) (l : list Word) : list Word :=
  filter (fun w => Qeq_bool (start w) s) l.

(** * Properties *)

(** ** Python comparisons as propositions *)

Lemma py_lt_spec (a b : Q) : BoolSpec (a < b) (b <= a) (Py.lt a b).
Proof.
  unfold Py.lt. destruct (Qle_bool b a) eqn:E; simpl; constructor.
  - now apply Qle_bool_iff.
  - apply Qnot_le_lt. intro H. apply Qle_bool_iff in H. congruence.
Qed.

Lemma py_le_spec (a b : Q) : BoolSpec (a <= b) (b < a) (Py.le a b).
Proof.
  unfold Py.le. destruct (Qle_bool a b) eqn:E; constructor.
  - now apply Qle_bool_iff.
  - apply Qnot_le_lt. intro H. apply Qle_bool_iff in H. congruence.
Qed.

Lemma py_gt_spec (a b : Q) : BoolSpec (b < a) (a <= b) (Py.gt a b).
Proof. exact (py_lt_spec b a). Qed.

Lemma py_ge_spec (a b : Q) : BoolSpec (b <= a) (a < b) (Py.ge a b).
Proof. exact (py_le_spec b a). Qed.

(** Case analysis on every comparison of the goal. *)
Ltac py_cases :=
  repeat match goal with
    | |- context [Py.gt ?a ?b] => destruct (py_gt_spec a b)
    | |- context [Py.ge ?a ?b] => destruct (py_ge_spec a b)
    | |- context [Py.lt ?a ?b] => destruct (py_lt_spec a b)
    | |- context [Py.le ?a ?b] => destruct (py_le_spec a b)
    end.

Lemma py_max_spec (a b : Q) :
  (a < b /\ Py.max a b = b) \/ (b <= a /\ Py.max a b = a).
Proof. unfold Py.max. destruct (py_gt_spec b a); auto. Qed.

Lemma py_max_l (a b : Q) : a <= Py.max a b.
Proof. destruct (py_max_spec a b) as [[H ->]|[H ->]]; lra. Qed.

Lemma py_max_r (a b : Q) : b <= Py.max a b.
Proof. destruct (py_max_spec a b) as [[H ->]|[H ->]]; lra. Qed.

(** Case analysis on the comparisons and maxima of the goal. *)
Ltac py_max_cases :=
  repeat match goal with
    | |- context [Py.max ?a ?b] =>
        let H := fresh "Hmax" in
        destruct (py_max_spec a b) as [[? H]|[? H]]; rewrite H; clear H
    end.

(** Evaluation of a closed run. *)
Ltac run := vm_compute; reflexivity.

Ltac same_words :=
  repeat (apply Forall2_cons; [repeat split; run|]); apply Forall2_nil.

(** ** List helpers of the loops *)

Lemma last_item_snoc {A : Type} (l : list A) (x : A) :
  Py.last_item (l ++ [x]) = Some x.
Proof.
  destruct l as [|y l]; [reflexivity|].
  change ((y :: l) ++ [x]) with (y :: (l ++ [x])).
  unfold Py.last_item. now rewrite last_last.
Qed.

Lemma last_cons_default {A : Type} (l : list A) (x d : A) :
  last (x :: l) d = last l x.
Proof.
  revert x d. induction l as [|y l IH]; intros x d; [reflexivity|].
  change (last (x :: y :: l) d) with (last (y :: l) d).
  now rewrite !IH.
Qed.

Lemma set_last_item_snoc {A : Type} (l : list A) (x v : A) :
  Py.set_last_item (l ++ [x]) v = l ++ [v].
Proof.
  unfold Py.set_last_item. rewrite removelast_last.
  destruct (l ++ [x]) eqn:E; [destruct l; discriminate | reflexivity].
Qed.

Lemma index_middle {A : Type} (pre suf : list A) (x : A) :
  Py.index (pre ++ x :: suf) (length pre) = Some x.
Proof.
  unfold Py.index. rewrite nth_error_app2 by lia.
  now rewrite Nat.sub_diag.
Qed.

Lemma index_after {A : Type} (pre suf : list A) (x : A) :
  Py.index (pre ++ x :: suf) (length pre + 1) = hd_error suf.
Proof.
  unfold Py.index. rewrite nth_error_app2 by lia.
  replace (length pre + 1 - length pre)%nat with 1%nat by lia.
  now destruct suf.
Qed.

(** ** The loops and their recursive readings *)

Section LoopReadings.
Variable self : TimingOptimizer.

Lemma merge_fold (words : list Word) :
  forall suf pre a p,
    words = pre ++ suf ->
    fold_left (merge_step self words) (seq (length pre) (length suf))
      (Some (a ++ [p]))
    = Some (a ++ merge_pairs self (p :: suf)).
Proof.
  induction suf as [|x suf IH]; intros pre a p Hw; cbn [length seq fold_left].
  - reflexivity.
  - assert (Hstep : merge_step self words (Some (a ++ [p])) (length pre)
                    = Some ((a ++ [merge_word self p (Some x)]) ++ [x])).
    { unfold merge_step. simpl Py.bind.
      rewrite Hw at 1. rewrite index_middle. simpl Py.bind.
      rewrite last_item_snoc. simpl Py.bind.
      unfold merge_word.
      destruct (Py.le _ _); [now rewrite set_last_item_snoc | reflexivity]. }
    rewrite Hstep.
    specialize (IH (pre ++ [x]) (a ++ [merge_word self p (Some x)]) x).
    rewrite length_app, Nat.add_1_r in IH.
    rewrite IH by (rewrite Hw, <- app_assoc; reflexivity).
    rewrite <- app_assoc. reflexivity.
Qed.

Lemma merge_short_gaps_reading (words : list Word) :
  _merge_short_gaps self words = Some (merge_pairs self words).
Proof.
  destruct words as [|w [|x r]]; try reflexivity.
  unfold _merge_short_gaps.
  change (length (w :: x :: r) <=? 1)%nat with false. cbv iota.
  change (Py.index (w :: x :: r) 0) with (Some w). simpl Py.bind.
  replace (length (w :: x :: r) - 1)%nat with (length (x :: r)) by (simpl; lia).
  exact (merge_fold (w :: x :: r) (x :: r) [w] [] w eq_refl).
Qed.

Lemma resolve_fold (words : list Word) :
  forall suf pre acc,
    words = pre ++ suf ->
    length acc = length pre ->
    fold_left (resolve_step self words) (seq (length pre) (length suf))
      (Some acc)
    = Some (acc ++ resolve_from self (Py.last_item acc) suf).
Proof.
  induction suf as [|x suf IH]; intros pre acc Hw Hl; cbn [length seq fold_left].
  - now rewrite app_nil_r.
  - specialize (IH (pre ++ [x])).
    rewrite length_app, Nat.add_1_r in IH.
    assert (Hstep : resolve_step self words (Some acc) (length pre)
                    = Some (acc ++ [resolve_word self (Py.last_item acc) x (hd_error suf)])).
    { unfold resolve_step. simpl Py.bind.
      rewrite Hw at 1. rewrite index_middle. simpl Py.bind.
      rewrite Hw at 2. rewrite index_after.
      rewrite Hw at 1. rewrite length_app. simpl length.
      unfold resolve_word.
      destruct suf as [|n suf]; simpl hd_error; cbn [length].
      - destruct (Nat.ltb_spec (length pre + 1) (length pre + 1)); [lia|].
        reflexivity.
      - destruct (Nat.ltb_spec (length pre + 1) (length pre + S (S (length suf))));
          [|lia].
        simpl Py.bind.
        destruct (Py.gt _ _); [|reflexivity].
        cbv zeta.
        destruct (Py.lt _ _); [|reflexivity].
        destruct acc as [|a0 acc'].
        + destruct pre; [reflexivity | discriminate].
        + destruct pre; [discriminate|].
          cbn [length]. change (0 <? S (length pre))%nat with true.
          cbv iota. reflexivity. }
    rewrite Hstep.
    rewrite IH.
    + rewrite last_item_snoc, <- app_assoc. reflexivity.
    + rewrite Hw, <- app_assoc. reflexivity.
    + rewrite length_app. simpl. lia.
Qed.

Lemma resolve_overlaps_reading (words : list Word) :
  _resolve_overlaps self words = Some (resolve_from self None words).
Proof.
  destruct words as [|w [|x r]]; try reflexivity.
  unfold _resolve_overlaps.
  change (length (w :: x :: r) <=? 1)%nat with false. cbv iota.
  exact (resolve_fold (w :: x :: r) (w :: x :: r) [] [] eq_refl eq_refl).
Qed.

Lemma optimize_timing_reading (words_data : list Word) (clip_duration : option Q) :
  optimize_timing self words_data clip_duration
  = Some (_validate_timing
            (clip_phase clip_duration
                 (before_clip self (sorted_by_start words_data)))).
Proof.
  destruct words_data as [|w r].
  - unfold clip_phase. cbn.
    destruct (Py.truthy clip_duration); [destruct clip_duration|]; reflexivity.
  - unfold optimize_timing.
    rewrite merge_short_gaps_reading. cbn [Py.bind].
    rewrite resolve_overlaps_reading. cbn [Py.bind].
    reflexivity.
Qed.

End LoopReadings.

(** ** Final validation (C8) *)

Lemma validate_word_well_timed (w : Word) : well_timed (validate_word w).
Proof.
  unfold well_timed, validate_word.
  destruct (py_le_spec (end_ w) (start w)); cbn [start end_ set_end];
    match goal with |- context [Py.lt ?a 0] => destruct (py_lt_spec a 0) end;
    cbn [start end_ set_end set_start];
    try (pose proof (py_max_r (end_ w) 0.3));
    try (pose proof (py_max_r (start w + 0.3) 0.3));
    split; lra.
Qed.

Lemma validate_timing_well_timed (words : list Word) :
  Forall well_timed (_validate_timing words).
Proof.
  unfold _validate_timing. apply Forall_map, Forall_forall.
  intros w _. apply validate_word_well_timed.
Qed.

Lemma validate_word_fixed (w : Word) :
  0 <= start w -> start w < end_ w -> validate_word w = w.
Proof.
  intros Hs He. unfold validate_word.
  destruct (py_le_spec (end_ w) (start w)); [lra|].
  destruct (py_lt_spec (start w) 0); [lra | reflexivity].
Qed.

(** C8. [optimize_timing] is total with repair semantics: on every input
    list, configuration and clip duration it returns a list (no subscript
    of its loops is ever out of range); the empty list is returned as it
    is; and every word of the result has [end > start] and [start >= 0]. *)
Theorem optimize_timing_total_repair :
  (forall self clip_duration, optimize_timing self [] clip_duration = Some [])
  /\ (forall self words_data clip_duration,
        exists out,
          optimize_timing self words_data clip_duration = Some out
          /\ Forall well_timed out).
Proof.
  split.
  - reflexivity.
  - intros self words_data clip_duration.
    eexists. split.
    + apply optimize_timing_reading.
    + apply validate_timing_well_timed.
Qed.

(** ** Sorting by start *)

Lemma insert_by_start_sorted (w : Word) (l : list Word) :
  sorted_starts l -> sorted_starts (insert_by_start w l).
Proof.
  induction l as [|x r IH]; intro Hs.
  - cbn. auto.
  - cbn [insert_by_start]. destruct (py_le_spec (start w) (start x)) as [Hle|Hlt].
    + split; assumption.
    + destruct Hs as [Hx Hr]. specialize (IH Hr).
      split; [|assumption].
      destruct r as [|y r]; cbn [insert_by_start].
      * lra.
      * destruct (Py.le (start w) (start y)); [lra | assumption].
Qed.

Lemma sorted_by_start_sorted (l : list Word) : sorted_starts (sorted_by_start l).
Proof.
  induction l as [|w l IH]; [exact I|].
  cbn [sorted_by_start fold_right]. now apply insert_by_start_sorted.
Qed.

Lemma insert_by_start_perm (w : Word) (l : list Word) :
  Permutation (w :: l) (insert_by_start w l).
Proof.
  induction l as [|x r IH]; cbn [insert_by_start]; [reflexivity|].
  destruct (Py.le (start w) (start x)); [reflexivity|].
  rewrite perm_swap. now apply perm_skip.
Qed.

(** [sorted_by_start] returns the same words, in ascending order of start;
    a list already in that order is returned as it is. *)
Lemma sorted_by_start_perm (l : list Word) : Permutation l (sorted_by_start l).
Proof.
  induction l as [|w l IH]; [reflexivity|].
  cbn [sorted_by_start fold_right]. fold (sorted_by_start l).
  rewrite <- insert_by_start_perm. now apply perm_skip.
Qed.

Lemma sorted_by_start_fixed (l : list Word) :
  sorted_starts l -> sorted_by_start l = l.
Proof.
  induction l as [|w l IH]; [reflexivity | intros [Hw Hl]].
  cbn [sorted_by_start fold_right]. fold (sorted_by_start l). rewrite (IH Hl).
  destruct l as [|n l]; [reflexivity|].
  cbn [insert_by_start]. now destruct (py_le_spec (start w) (start n)); [|lra].
Qed.

Lemma insert_by_start_Forall (P : Word -> Prop) (w : Word) (l : list Word) :
  P w -> Forall P l -> Forall P (insert_by_start w l).
Proof.
  intros Hw Hl. induction Hl as [|x r Hx Hr IH]; cbn [insert_by_start].
  - auto.
  - destruct (Py.le (start w) (start x)); auto.
Qed.

Lemma sorted_by_start_Forall (P : Word -> Prop) (l : list Word) :
  Forall P l -> Forall P (sorted_by_start l).
Proof.
  induction 1 as [|w l Hw Hl IH]; [constructor|].
  cbn [sorted_by_start fold_right]. now apply insert_by_start_Forall.
Qed.

Lemma sorted_starts_map (l l' : list Word) :
  map start l = map start l' -> sorted_starts l -> sorted_starts l'.
Proof.
  revert l'. induction l as [|w r IH]; intros [|w' r'] Heq Hs;
    try discriminate; [exact I|].
  cbn [map] in Heq. injection Heq as Hw Hr.
  destruct Hs as [Hhd Htl]. split; [|now apply IH].
  destruct r as [|n r], r' as [|n' r']; try discriminate; [exact I|].
  cbn [map] in Hr. injection Hr as Hn _. now rewrite <- Hw, <- Hn.
Qed.

(** ** Short-gap merging (C5) *)

Section Merge.
Variable self : TimingOptimizer.

Lemma merge_word_at (w : Word) (next : option Word) :
  merge_word self w next = merge_at self w (option_map start next).
Proof. now destruct next. Qed.

Lemma start_merge_at (w : Word) (ns : option Q) : start (merge_at self w ns) = start w.
Proof.
  unfold merge_at. destruct ns; [|reflexivity].
  now destruct (Py.le _ _).
Qed.

Lemma merged_no_overlap (w : Word) (next_start : option Q) (s : Q) :
  0 <= gap_merge_threshold self ->
  next_start = Some s ->
  end_ (merge_at self w next_start) <= s.
Proof.
  intros Hthr ->. unfold merge_at.
  destruct (py_le_spec (s - end_ w) (gap_merge_threshold self));
    cbn [end_ set_end]; lra.
Qed.

Lemma hd_merge_pairs_start (l : list Word) :
  option_map start (hd_error (merge_pairs self l)) = option_map start (hd_error l).
Proof.
  destruct l as [|w r]; [reflexivity|].
  cbn [merge_pairs hd_error option_map]. f_equal.
  rewrite merge_word_at. apply start_merge_at.
Qed.

Lemma merge_at_rule (w : Word) (s : Q) :
  end_ w <= s ->
  retimed w (merge_at self w (Some s))
  /\ start (merge_at self w (Some s)) = start w
  /\ end_ w <= end_ (merge_at self w (Some s)) <= s.
Proof.
  intro Hle. unfold merge_at, retimed.
  destruct (py_le_spec (s - end_ w) (gap_merge_threshold self));
    cbn [word start end_ active set_end]; repeat split; lra.
Qed.

Lemma merge_pairs_starts (l : list Word) :
  map start (merge_pairs self l) = map start l.
Proof.
  induction l as [|w r IH]; [reflexivity|].
  cbn [merge_pairs map]. rewrite IH, merge_word_at, start_merge_at. reflexivity.
Qed.

Lemma merge_pairs_split (l1 : list Word) :
  forall x l2,
  exists m1,
    merge_pairs self (l1 ++ x :: l2) = m1 ++ merge_pairs self (x :: l2)
    /\ length m1 = length l1.
Proof.
  induction l1 as [|a l1 IH]; intros x l2.
  - now exists [].
  - destruct (IH x l2) as (m1 & Heq & Hlen).
    exists (merge_word self a (hd_error (l1 ++ x :: l2)) :: m1).
    cbn [app merge_pairs length]. now rewrite Heq, Hlen.
Qed.

(** X1.  What [_merge_short_gaps] does to a word [w] followed by [n]: it keeps
    every start and the last word; when [n] starts within the threshold
    after the end of [w], or before it, the end of [w] becomes the start of
    [n]; otherwise [w] is unchanged. *)
Lemma merge_short_gaps_rule (pre suf : list Word) (w n : Word) :
  exists mpre w' rest out,
    _merge_short_gaps self (pre ++ w :: n :: suf) = Some out
    /\ out = mpre ++ w' :: rest
    /\ length mpre = length pre
    /\ map start out = map start (pre ++ w :: n :: suf)
    /\ Py.last_item out = Py.last_item (pre ++ w :: n :: suf)
    /\ (start n - end_ w <= gap_merge_threshold self ->
        w' = set_end w (start n))
    /\ (gap_merge_threshold self < start n - end_ w -> w' = w).
Proof.
  destruct (merge_pairs_split pre w (n :: suf)) as (mpre & Heq & Hlen).
  exists mpre, (merge_word self w (Some n)), (merge_pairs self (n :: suf)),
    (merge_pairs self (pre ++ w :: n :: suf)).
  split; [apply merge_short_gaps_reading|].
  split; [exact Heq|]. split; [exact Hlen|].
  split; [apply merge_pairs_starts|]. split.
  - generalize (pre ++ w :: n :: suf). intro l.
    induction l as [|a l IH] using rev_ind; [reflexivity|].
    rewrite last_item_snoc.
    destruct (merge_pairs_split l a []) as (m & -> & _).
    cbn [merge_pairs merge_word hd_error]. apply last_item_snoc.
  - unfold merge_word.
    destruct (py_le_spec (start n - end_ w) (gap_merge_threshold self));
      split; intro; (reflexivity || lra).
Qed.

(** X2.  With a negative threshold the merge loop changes nothing on words
    that do not overlap. *)
Lemma merge_short_gaps_identity (words : list Word) :
  gap_merge_threshold self < 0 -> no_overlap words ->
  _merge_short_gaps self words = Some words.
Proof.
  intros Hthr Hno. rewrite merge_short_gaps_reading. f_equal.
  induction words as [|w r IH]; [reflexivity|].
  destruct Hno as [Hw Hr]. cbn [merge_pairs]. rewrite (IH Hr). f_equal.
  destruct r as [|n r]; [reflexivity|]. cbn [hd_error merge_word].
  destruct (py_le_spec (start n - end_ w) (gap_merge_threshold self));
    [lra | reflexivity].
Qed.

End Merge.

(** C5 (the code fails it).  The merge loop has no test of the sign of
    the gap nor of the threshold: an overlap is a gap below the threshold.
    With a threshold of 0, as [main_enterprise.py] sets it to disable gap
    merging, and also with the default one, A 0-1 followed by B 0.5-1.5
    leaves the phase as A 0-0.5: the phase is not skipped and it moved the
    end of A backward. *)
Theorem merge_short_gaps_truncates :
  let A := mkWord "A" 0 1 (Some true) in
  let B := mkWord "B" 0.5 1.5 (Some true) in
  (exists a,
      _merge_short_gaps enterprise [A; B] = Some [a; B]
      /\ end_ a == 0.5 /\ end_ a < end_ A /\ [a; B] <> [A; B])
  /\ (exists a,
        _merge_short_gaps default [A; B] = Some [a; B]
        /\ end_ a == 0.5 /\ end_ a < end_ A /\ [a; B] <> [A; B]).
Proof.
  intros A B. split; eexists; (split; [run|]); repeat split; try run;
    intro H; discriminate H.
Qed.

(** ** Overlap resolution (C6) *)

Section Resolve.
Variable self : TimingOptimizer.

Lemma resolve_from_app (l1 : list Word) :
  forall prev x l2,
  exists r1,
    resolve_from self prev (l1 ++ x :: l2)
    = r1 ++ resolve_from self (last_or prev r1) (x :: l2)
    /\ length r1 = length l1.
Proof.
  induction l1 as [|a l1 IH]; intros prev x l2.
  - exists []. split; reflexivity.
  - cbn [app resolve_from].
    set (a' := resolve_word self prev a (hd_error (l1 ++ x :: l2))).
    destruct (IH (Some a') x l2) as (r1 & Heq & Hlen).
    exists (a' :: r1). split.
    + rewrite Heq. cbn [app]. do 2 f_equal.
      unfold last_or. destruct r1 as [|b r1]; [reflexivity|].
      unfold Py.last_item. now rewrite last_cons_default.
    + cbn. now rewrite Hlen.
Qed.

Lemma resolve_word_clear (prev : option Word) (w : Word) (next : option Word) :
  (forall n, next = Some n -> end_ w <= start n) ->
  resolve_word self prev w next = w.
Proof.
  intro H. unfold resolve_word. destruct next as [n|]; [|reflexivity].
  specialize (H n eq_refl).
  destruct (py_gt_spec (end_ w) (start n)); [lra | reflexivity].
Qed.

Lemma resolve_merged (l : list Word) :
  0 <= gap_merge_threshold self ->
  forall prev, resolve_from self prev (merge_pairs self l) = merge_pairs self l.
Proof.
  intros Hthr. induction l as [|w r IH]; intro prev; [reflexivity|].
  cbn [merge_pairs resolve_from].
  assert (Hw : resolve_word self prev (merge_word self w (hd_error r))
                 (hd_error (merge_pairs self r))
               = merge_word self w (hd_error r)).
  { unfold resolve_word.
    destruct (hd_error (merge_pairs self r)) as [n|] eqn:Hn; [|reflexivity].
    pose proof (hd_merge_pairs_start self r) as Hs. rewrite Hn in Hs.
    cbn [option_map] in Hs. rewrite merge_word_at.
    pose proof (merged_no_overlap self w (option_map start (hd_error r)) (start n) Hthr
                  (eq_sym Hs)).
    destruct (py_gt_spec (end_ (merge_at self w (option_map start (hd_error r)))) (start n));
      [lra | reflexivity]. }
  rewrite Hw, IH. reflexivity.
Qed.

(** C6 (amended).  When a word [w] runs into the next word [n], the
    overlap loop cuts it to end at [start n + 0.3 * overlap - 0.05].  If the
    cut word is shorter than 75% of [min_duration] (the active-word bonus
    is not counted) and the previous resolved word ends 50ms or more before
    the start of [w] (or [w] is the first word and starts at 0 or later),
    the start of [w] is pulled backward to the larger of
    [new_end - 0.75 * min_duration] and the previous word's end plus 50ms,
    or of that and 0 for the first word: never later than the old start,
    never before the previous end plus 50ms, never below 0 for the first
    word, and the word is left with at most 75% of [min_duration].  If the
    cut word keeps 75% of [min_duration] or more, its start is unchanged.
    Nothing is said of a word whose predecessor ends less than 50ms before
    its start. *)
Theorem resolve_overlaps_start_rule (pre suf : list Word) (w n : Word)
    (Hover : start n < end_ w) :
  exists rpre w' rsuf,
    _resolve_overlaps self (pre ++ w :: n :: suf) = Some (rpre ++ w' :: rsuf)
    /\ length rpre = length pre
    /\ end_ w' = start n + (end_ w - start n) * 0.3 - 0.05
    /\ (end_ w' - start w < min_duration self * 0.75 ->
        match Py.last_item rpre with
        | Some p => end_ p + 0.05
        | None => 0
        end <= start w ->
        start w'
        = Py.max (end_ w' - min_duration self * 0.75)
                 (match Py.last_item rpre with
                  | Some p => end_ p + 0.05
                  | None => 0
                  end)
        /\ start w' <= start w
        /\ (forall p, Py.last_item rpre = Some p -> end_ p + 0.05 <= start w')
        /\ (pre = [] -> 0 <= start w')
        /\ end_ w' - start w' <= min_duration self * 0.75)
    /\ (min_duration self * 0.75 <= end_ w' - start w -> start w' = start w).
Proof.
  rewrite resolve_overlaps_reading.
  destruct (resolve_from_app pre None w (n :: suf)) as (rpre & Heq & Hlen).
  rewrite Heq. cbn [resolve_from hd_error].
  set (prev := last_or None rpre).
  set (w' := resolve_word self prev w (Some n)).
  exists rpre, w', (resolve_from self (Some w') (n :: suf)).
  split; [reflexivity|]. split; [assumption|].
  set (new_end := start n + (end_ w - start n) * 0.3 - 0.05).
  set (floor := match Py.last_item rpre with
                | Some p => end_ p + 0.05
                | None => 0
                end).
  assert (Hw' : w' = if Py.lt (new_end - start w) (min_duration self * 0.75)
                     then set_start (set_end w new_end)
                            (Py.max (new_end - min_duration self * 0.75) floor)
                     else set_end w new_end).
  { unfold w', resolve_word, prev, last_or, floor.
    destruct (py_gt_spec (end_ w) (start n)) as [_|H]; [|lra].
    cbn [start end_ set_end]. fold new_end.
    destruct (Py.lt _ _); [|reflexivity].
    destruct (Py.last_item rpre); reflexivity. }
  rewrite Hw'.
  destruct (py_lt_spec (new_end - start w) (min_duration self * 0.75))
    as [Hshort|Hlong]; cbn [start end_ set_start set_end].
  - split; [reflexivity|]. split; [|intro; lra].
    intros _ Hfloor. split; [reflexivity|].
    destruct (py_max_spec (new_end - min_duration self * 0.75) floor)
      as [[Hm Hmax]|[Hm Hmax]]; rewrite Hmax.
    + split; [lra|]. split.
      * intros p Hp. unfold floor in *. rewrite Hp in *. lra.
      * split; [|lra]. intros ->. destruct rpre; [|discriminate].
        unfold floor. cbn. lra.
    + split; [lra|]. split.
      * intros p Hp. unfold floor in *. rewrite Hp in *. lra.
      * split; [|lra]. intros ->. destruct rpre; [|discriminate].
        unfold floor in *. cbn in *. lra.
  - split; [reflexivity|]. split; [intro; lra | reflexivity].
Qed.

End Resolve.

(** The overlap loop at work inside [optimize_timing]: with the optimizer
    [no_merge], the words P 0-0.5, A 1.0-1.45, B 1.2-2.5 pass phases 1 to 3
    as they are, and the overlap loop cuts A to end at 1.225 and pulls its
    start back from 1.0 to 0.8875. *)
Lemma resolve_overlaps_start_rule_witness :
  _merge_short_gaps no_merge
    (_apply_minimum_durations no_merge
       (sorted_by_start
          [mkWord "P" 0 0.5 (Some false); mkWord "A" 1.0 1.45 (Some false);
           mkWord "B" 1.2 2.5 (Some false)]))
  = Some [mkWord "P" 0 0.5 (Some false); mkWord "A" 1.0 1.45 (Some false);
          mkWord "B" 1.2 2.5 (Some false)]
  /\ start (mkWord "B" 1.2 2.5 (Some false))
     < end_ (mkWord "A" 1.0 1.45 (Some false))
  /\ exists rpre w' rsuf,
       _resolve_overlaps no_merge
         ([mkWord "P" 0 0.5 (Some false)]
          ++ mkWord "A" 1.0 1.45 (Some false)
             :: mkWord "B" 1.2 2.5 (Some false) :: [])
       = Some (rpre ++ w' :: rsuf)
       /\ rpre = [mkWord "P" 0 0.5 (Some false)]
       /\ end_ w' == 1.225
       /\ start w' == 0.8875
       /\ start w' <= 1.0
       /\ 0.5 + 0.05 <= start w'.
Proof.
  split; [run|].
  assert (H1 : start (mkWord "B" 1.2 2.5 (Some false))
               < end_ (mkWord "A" 1.0 1.45 (Some false))) by reflexivity.
  split; [exact H1|].
  destruct (resolve_overlaps_start_rule no_merge
              [mkWord "P" 0 0.5 (Some false)] []
              (mkWord "A" 1.0 1.45 (Some false))
              (mkWord "B" 1.2 2.5 (Some false)) H1)
    as (rpre & w' & rsuf & Hr & Hl & He & Hshort & _).
  assert (Hrpre : rpre = [mkWord "P" 0 0.5 (Some false)]).
  { destruct rpre as [|p [|q r]]; try discriminate Hl.
    vm_compute in Hr. injection Hr as Hp _ _. now rewrite <- Hp. }
  exists rpre, w', rsuf.
  split; [exact Hr|]. split; [exact Hrpre|].
  assert (Hs : end_ w' - start (mkWord "A" 1.0 1.45 (Some false))
               < min_duration no_merge * 0.75)
    by (rewrite He; reflexivity).
  assert (Hf : match Py.last_item rpre with
               | Some p => end_ p + 0.05
               | None => 0
               end <= start (mkWord "A" 1.0 1.45 (Some false)))
    by (rewrite Hrpre; vm_compute; discriminate).
  destruct (Hshort Hs Hf) as (Hst & Hback & Hprev & _).
  split; [rewrite He; reflexivity|].
  split; [rewrite Hst, He, Hrpre; reflexivity|].
  split; [exact Hback|].
  apply (Hprev (mkWord "P" 0 0.5 (Some false))). now rewrite Hrpre.
Defined.

(** C6 (as stated, it fails).  With the optimizer [no_merge], the words
    A 1.0-1.6 and B 1.4-2.5, both active, reach the overlap loop as
    A 1.0-1.65, B 1.4-2.5.  The loop cuts A to end at 1.425: A is then
    0.425s long, below 75% of its effective minimum 0.65s, nothing
    precedes it and there is room to pull its start back to 0.9375, yet
    its start stays at 1.0: the test compares with 75% of [min_duration]
    alone. *)
Lemma resolve_overlaps_pull_back_fails :
  exists l a b,
    _merge_short_gaps no_merge
      (_apply_minimum_durations no_merge
         (sorted_by_start
            [mkWord "A" 1.0 1.6 (Some true); mkWord "B" 1.4 2.5 (Some true)]))
    = Some l
    /\ words_eqv l
         [mkWord "A" 1.0 1.65 (Some true); mkWord "B" 1.4 2.5 (Some true)]
    /\ _resolve_overlaps no_merge l = Some [a; b]
    /\ optimize_timing no_merge
         [mkWord "A" 1.0 1.6 (Some true); mkWord "B" 1.4 2.5 (Some true)] None
       = Some [a; b]
    /\ is_active a = true
    /\ end_ a == 1.425 /\ start a == 1.0
    /\ end_ a - start a
       < 0.75 * (min_duration no_merge + active_word_bonus no_merge)
    /\ 0 <= end_ a - 0.75 * (min_duration no_merge + active_word_bonus no_merge)
       < start a.
Proof.
  do 3 eexists.
  split; [run|]. split; [same_words|]. split; [run|]. split; [run|].
  repeat split; try run.
  intro H. vm_compute in H. discriminate.
Qed.

(** ** Clip clamp (C7) *)

Lemma clamp_word_rule (c : Q) (w : Word) :
  (clamp_word c w = None <-> c <= start w)
  /\ (forall w',
        clamp_word c w = Some w' ->
        end_ w' = (if Py.gt (end_ w) c then c else end_ w)
        /\ end_ w' <= c
        /\ (0 < c -> start w' < c)
        /\ (end_ w' - start w < 0.1 -> start w' = Py.max 0 (end_ w' - 0.1))
        /\ (0.1 <= end_ w' - start w -> start w' = start w)).
Proof.
  unfold clamp_word. split.
  - destruct (py_gt_spec (end_ w) c); cbn [start end_ set_end];
      destruct (py_ge_spec (start w) c);
      repeat match goal with
        | |- context [if ?b then _ else _] => destruct b
        end;
      split; intro; (discriminate || reflexivity || lra).
  - intros w'.
    destruct (py_gt_spec (end_ w) c); cbn [start end_ set_end];
      (destruct (py_ge_spec (start w) c); [discriminate|]);
      match goal with
      | |- context [Py.lt ?a ?b] => destruct (py_lt_spec a b)
      end;
      intro Hsome; injection Hsome as <-; cbn [start end_ set_end set_start];
      repeat split; intros; try reflexivity; try lra;
      py_max_cases; lra.
Qed.

Lemma clamp_In (c : Q) (words : list Word) (w' : Word) :
  In w' (_clamp_to_clip_duration words c)
  <-> exists w, In w words /\ clamp_word c w = Some w'.
Proof.
  induction words as [|x words IH]; cbn [_clamp_to_clip_duration].
  - split; [intros [] | intros (w & [] & _)].
  - destruct (clamp_word c x) as [y|] eqn:Hx; cbn [In]; rewrite IH; split.
    + intros [<-|(w & Hin & Hw)]; [exists x | exists w]; auto.
    + intros (w & [<-|Hin] & Hw); [left; congruence | right; eauto].
    + intros (w & Hin & Hw). eauto.
    + intros (w & [<-|Hin] & Hw); [congruence | eauto].
Qed.

Lemma clamp_then_validate (c : Q) (w w' : Word) :
  clamp_word c w = Some w' ->
  (end_ (validate_word w') <= c \/ end_ (validate_word w') == 0.3)
  /\ (0 < c -> start (validate_word w') < c).
Proof.
  intro H. destruct (clamp_word_rule c w) as [_ Hr].
  destruct (Hr w' H) as (_ & He & Hs & Hshort & Hlong). clear Hr H.
  assert (Hpos : end_ w' <= start w' -> start w' == 0 /\ end_ w' <= 0).
  { intro Hle.
    destruct (Qlt_le_dec (end_ w' - start w) 0.1) as [Hlt|Hge].
    - rewrite (Hshort Hlt) in *.
      destruct (py_max_spec 0 (end_ w' - 0.1)) as [[Hm Heq]|[Hm Heq]];
        rewrite Heq in *; split; lra.
    - rewrite (Hlong Hge) in *. lra. }
  unfold validate_word.
  destruct (py_le_spec (end_ w') (start w')) as [Hle|Hgt];
    cbn [start end_ set_end];
    match goal with
    | |- context [Py.lt ?a 0] => destruct (py_lt_spec a 0)
    end;
    cbn [start end_ set_end set_start];
    try (destruct (Hpos Hle));
    py_max_cases; split; intros; try lra.
Qed.

(** C7 (amended).  When a non-zero clip duration is supplied, every word
    of the result ends at the clip duration at the latest or at the 0.3s
    that final validation gives a repaired word, so no end exceeds a clip
    duration of 0.3s or more; and with a positive clip duration no word of
    the result starts at or after it.  In the clamp phase a word is dropped
    exactly when it starts at or after the clip duration, its end is cut to
    the clip duration, and when less than 100ms is left its start becomes
    [max(0, end - 0.1)]. *)
Theorem clip_clamp_bounds (self : TimingOptimizer) (words_data : list Word)
    (clip_duration : Q) (Hnz : ~ clip_duration == 0) :
  (exists out,
      optimize_timing self words_data (Some clip_duration) = Some out
      /\ Forall (fun w =>
                   (end_ w <= clip_duration \/ end_ w == 0.3)
                   /\ (0 < clip_duration -> start w < clip_duration)) out
      /\ (0.3 <= clip_duration ->
          Forall (fun w => end_ w <= clip_duration /\ start w < clip_duration) out))
  /\ (forall words w',
        In w' (_clamp_to_clip_duration words clip_duration)
        <-> exists w, In w words /\ clamp_word clip_duration w = Some w')
  /\ (forall w,
        (clamp_word clip_duration w = None <-> clip_duration <= start w)
        /\ (forall w',
              clamp_word clip_duration w = Some w' ->
              end_ w' = (if Py.gt (end_ w) clip_duration
                         then clip_duration else end_ w)
              /\ end_ w' <= clip_duration
              /\ (0 < clip_duration -> start w' < clip_duration)
              /\ (end_ w' - start w < 0.1 ->
                  start w' = Py.max 0 (end_ w' - 0.1))
              /\ (0.1 <= end_ w' - start w -> start w' = start w))).
Proof.
  split; [|split; [intros; apply clamp_In | intro; apply clamp_word_rule]].
  eexists. split; [apply optimize_timing_reading|].
  assert (Ht : Py.truthy (Some clip_duration) = true).
  { cbn. destruct (Qeq_bool clip_duration 0) eqn:E; [|reflexivity].
    apply Qeq_bool_iff in E. contradiction. }
  unfold clip_phase. rewrite Ht.
  set (pre := before_clip self (sorted_by_start words_data)).
  assert (Hall : Forall (fun w =>
                   (end_ w <= clip_duration \/ end_ w == 0.3)
                   /\ (0 < clip_duration -> start w < clip_duration))
                  (_validate_timing (_clamp_to_clip_duration pre clip_duration))).
  { unfold _validate_timing. apply Forall_map, Forall_forall.
    intros w' Hin. apply clamp_In in Hin as (w & _ & Hw).
    exact (clamp_then_validate clip_duration w w' Hw). }
  split; [exact Hall|].
  intro Hbig. eapply Forall_impl; [|exact Hall].
  cbn beta. intros w [[He|He] Hs]; split; lra.
Qed.

Lemma clip_clamp_bounds_witness :
  ~ 10 == 0
  /\ exists out,
       optimize_timing default
         [mkWord "A" 9.0 9.95 (Some true); mkWord "B" 9.95 10.2 (Some true);
          mkWord "C" 10.5 11 (Some true)]
         (Some 10)
       = Some out
       /\ Forall (fun w => end_ w <= 10 /\ start w < 10) out.
Proof.
  assert (Hnz : ~ 10 == 0) by (intro H; vm_compute in H; discriminate).
  split; [exact Hnz|].
  destruct (clip_clamp_bounds default
              [mkWord "A" 9.0 9.95 (Some true); mkWord "B" 9.95 10.2 (Some true);
               mkWord "C" 10.5 11 (Some true)] 10 Hnz)
    as ((out & Hout & _ & Hbig) & _).
  exists out. split; [exact Hout|].
  apply Hbig. vm_compute. discriminate.
Defined.

(** C7 (as stated, it fails).  A clip duration of 0 is supplied, yet
    nothing is clamped: the word 1-2 is returned as it is.  And with a clip
    duration of 0.2, of two words that start together at 0 the first comes
    out as 0-0.3. *)
Lemma clip_clamp_zero_or_short_fails :
  (exists a,
      optimize_timing default [mkWord "A" 1 2 (Some true)] (Some 0) = Some [a]
      /\ 0 < end_ a /\ 0 <= start a /\ end_ a == 2)
  /\ (exists a b,
        optimize_timing default
          [mkWord "A" 0 0.2 (Some true); mkWord "B" 0 0.2 (Some true)]
          (Some 0.2)
        = Some [a; b]
        /\ 0.2 < end_ a /\ end_ a == 0.3).
Proof.
  split.
  - eexists. repeat split; try run. intro H. vm_compute in H. discriminate.
  - do 2 eexists. repeat split; run.
Qed.

(** ** Minimum duration (C2) *)

Section MinimumKept.
Variable self : TimingOptimizer.

Lemma apply_minimum_duration_rule (w : Word) :
  retimed w (apply_minimum_duration self w)
  /\ start (apply_minimum_duration self w) = start w
  /\ min_dur self w <= end_ (apply_minimum_duration self w) - start w
  /\ end_ w <= end_ (apply_minimum_duration self w).
Proof.
  unfold apply_minimum_duration, retimed.
  destruct (py_lt_spec (end_ w - start w) (min_dur self w));
    cbn [word start end_ active set_end]; repeat split; lra.
Qed.

Lemma start_apply_minimum (w : Word) : start (apply_minimum_duration self w) = start w.
Proof. unfold apply_minimum_duration. now destruct (Py.lt _ _). Qed.

Lemma apply_maximum_duration_rule (w : Word) (eff : Q) :
  eff <= max_duration self ->
  eff <= end_ w - start w ->
  retimed w (apply_maximum_duration self w)
  /\ start (apply_maximum_duration self w) = start w
  /\ eff <= end_ (apply_maximum_duration self w) - start w.
Proof.
  intros HM Hd. unfold apply_maximum_duration, retimed.
  destruct (py_gt_spec (end_ w - start w) (max_duration self));
    cbn [word start end_ active set_end]; repeat split; lra.
Qed.

Lemma clamp_word_keeps (c eff : Q) (w : Word) :
  0 <= start w -> 0 < eff -> eff <= end_ w - start w ->
  start w < c -> 0.1 <= c ->
  exists o,
    clamp_word c w = Some o
    /\ validate_word o = o
    /\ retimed w o
    /\ (eff <= end_ o - start o
        \/ (c < start w + eff /\ end_ o = c /\ 0.1 <= end_ o - start o)).
Proof.
  intros Hs Heff Hd Hc Hc1.
  unfold clamp_word, retimed.
  destruct (py_gt_spec (end_ w) c) as [Hcut|Hfit]; cbn [start end_ set_end];
    (destruct (py_ge_spec (start w) c); [lra|]);
    match goal with
    | |- context [Py.lt ?a ?b] => destruct (py_lt_spec a b) as [Hshort|Hlong]
    end;
    eexists; (split; [reflexivity|]);
    cbn [word start end_ active set_end set_start];
    (split; [apply validate_word_fixed; cbn [start end_ set_end set_start];
             py_max_cases; lra|]);
    (split; [split; reflexivity|]).
  - destruct (Qlt_le_dec c (start w + eff)); [right | left];
      repeat split; py_max_cases; lra.
  - destruct (Qlt_le_dec c (start w + eff)); [right | left];
      repeat split; lra.
  - left. py_max_cases; lra.
  - left. lra.
Qed.

Lemma retimed_trans (a b c : Word) : retimed a b -> retimed b c -> retimed a c.
Proof. unfold retimed. intros [] []. split; congruence. Qed.

Lemma min_dur_retimed (a b : Word) : retimed a b -> min_dur self b = min_dur self a.
Proof. unfold retimed, min_dur, is_active. intros [_ ->]. reflexivity. Qed.

(** What phases 1 to 4 make of a word that, once extended to its minimum
    duration, does not run into the word after it. *)
Lemma before_clip_keeps (l1 l2 : list Word) (w : Word) :
  min_dur self w <= max_duration self ->
  (forall n, hd_error l2 = Some n ->
             end_ (apply_minimum_duration self w) <= start n) ->
  exists p,
    In p (before_clip self (l1 ++ w :: l2))
    /\ retimed w p
    /\ start p = start w
    /\ min_dur self w <= end_ p - start p.
Proof.
  intros HM Hnext.
  unfold before_clip, _apply_minimum_durations.
  rewrite map_app. cbn [map].
  set (w1 := apply_minimum_duration self w) in *.
  set (r := map (apply_minimum_duration self) l2).
  destruct (apply_minimum_duration_rule w) as (Hk1 & Hs1 & Hd1 & _). fold w1 in Hk1, Hs1, Hd1.
  destruct (merge_pairs_split self (map (apply_minimum_duration self) l1) w1 r)
    as (m1 & -> & _).
  cbn [merge_pairs]. rewrite merge_word_at.
  set (w2 := merge_at self w1 (option_map start (hd_error r))).
  assert (Hnr : option_map start (hd_error r) = option_map start (hd_error l2)).
  { unfold r. destruct l2 as [|n l2]; [reflexivity|].
    cbn [map hd_error option_map]. now rewrite start_apply_minimum. }
  assert (H2 : retimed w1 w2 /\ start w2 = start w1
               /\ end_ w1 <= end_ w2
               /\ forall n, hd_error l2 = Some n -> end_ w2 <= start n).
  { unfold w2. rewrite Hnr. destruct l2 as [|n l2]; cbn [hd_error option_map].
    - cbn [merge_at]. split; [split; reflexivity|].
      split; [reflexivity|]. split; [lra | discriminate].
    - destruct (merge_at_rule self w1 (start n) (Hnext n eq_refl)) as (? & ? & ? & ?).
      do 3 (split; [assumption|]). intros n' [= <-]. assumption. }
  destruct H2 as (Hk2 & Hs2 & Hd2 & Hn2).
  destruct (resolve_from_app self m1 None w2 (merge_pairs self r))
    as (r1 & -> & _).
  cbn [resolve_from].
  rewrite resolve_word_clear.
  2:{ intros n' Hn'.
      pose proof (hd_merge_pairs_start self r) as Hh. rewrite Hn', Hnr in Hh.
      destruct l2 as [|n l2]; [discriminate|].
      cbn in Hh. injection Hh as Hh. rewrite Hh. now apply Hn2. }
  unfold _apply_maximum_durations. rewrite map_app. cbn [map].
  destruct (apply_maximum_duration_rule w2 (min_dur self w) HM)
    as (Hk3 & Hs3 & Hd3); [rewrite Hs2, Hs1; lra|].
  exists (apply_maximum_duration self w2). split; [|split; [|split]].
  - apply in_or_app. right. left. reflexivity.
  - eapply retimed_trans; [exact Hk1|]. eapply retimed_trans; eassumption.
  - congruence.
  - rewrite Hs3. exact Hd3.
Qed.

(** C2 (amended).  Take a word [w] of the input whose successor in start
    order, if there is one, starts no earlier than [w] ends after the
    minimum-duration phase.  Let [w] start at 0 or later and have a positive
    effective minimum [min_dur] (the minimum duration, plus the bonus when
    [w] is active) that does not exceed the maximum duration; when a clip
    duration is given, let it be 0.1s or more and [w] start before it.  Then
    the result contains [w], with its text and flag, lasting [min_dur] or
    more; or, when the clip duration comes before [start + min_dur], ending
    at the clip duration and lasting 100ms or more. *)
Theorem minimum_duration_kept (words_data l1 l2 : list Word) (w : Word)
    (clip_duration : option Q)
    (Hsorted : sorted_by_start words_data = l1 ++ w :: l2)
    (Hstart : 0 <= start w)
    (Hmin : 0 < min_dur self w <= max_duration self)
    (Hnext : forall n, hd_error l2 = Some n ->
                       end_ (apply_minimum_duration self w) <= start n)
    (Hclip : forall c, clip_duration = Some c -> start w < c /\ 0.1 <= c) :
  exists out o,
    optimize_timing self words_data clip_duration = Some out
    /\ In o out
    /\ word o = word w /\ active o = active w
    /\ (min_dur self w <= end_ o - start o
        \/ exists c,
             clip_duration = Some c /\ c < start w + min_dur self w
             /\ end_ o = c /\ 0.1 <= end_ o - start o).
Proof.
  destruct Hmin as [Hpos HM].
  destruct (before_clip_keeps l1 l2 w HM Hnext) as (p & Hin & Hk & Hs & Hd).
  pose proof (optimize_timing_reading self words_data clip_duration) as Hrun.
  rewrite Hsorted in Hrun. unfold clip_phase, _validate_timing in Hrun.
  destruct clip_duration as [c|].
  - destruct (Hclip c eq_refl) as [Hc Hc1].
    assert (Ht : Py.truthy (Some c) = true).
    { cbn. destruct (Qeq_bool c 0) eqn:E; [|reflexivity].
      apply Qeq_bool_iff in E. lra. }
    rewrite Ht in Hrun.
    assert (Hs0 : 0 <= start p) by (rewrite Hs; assumption).
    assert (Hsc : start p < c) by (rewrite Hs; assumption).
    destruct (clamp_word_keeps c (min_dur self w) p Hs0 Hpos Hd Hsc Hc1)
      as (o & Ho & Hv & Hko & Hdo).
    eexists. exists o. split; [exact Hrun|]. split.
    + rewrite <- Hv. apply in_map. apply clamp_In. exists p. auto.
    + destruct (retimed_trans _ _ _ Hk Hko) as [Hw Ha].
      split; [exact Hw|]. split; [exact Ha|].
      destruct Hdo as [Hdo|(Hlt & He & Hdo)]; [now left|].
      right. exists c. rewrite Hs in Hlt. auto.
  - cbn [Py.truthy] in Hrun. eexists. exists p. split; [exact Hrun|]. split.
    + assert (Hs0 : 0 <= start p) by (rewrite Hs; assumption).
      rewrite <- (validate_word_fixed p) by lra. now apply in_map.
    + destruct Hk as [Hw Ha]. auto.
Qed.

End MinimumKept.

Lemma minimum_duration_kept_witness :
  let A := mkWord "A" 0 0.05 (Some false) in
  let B := mkWord "B" 1 1.2 (Some false) in
  (sorted_by_start [A; B] = [] ++ A :: [B]
   /\ 0 <= start A
   /\ 0 < min_dur default A <= max_duration default
   /\ end_ (apply_minimum_duration default A) <= start B)
  /\ exists out o,
       optimize_timing default [A; B] None = Some out
       /\ In o out
       /\ word o = "A"%string
       /\ 0.45 <= end_ o - start o.
Proof.
  intros A B.
  assert (H1 : sorted_by_start [A; B] = [] ++ A :: [B]) by reflexivity.
  assert (H2 : 0 <= start A) by (vm_compute; discriminate).
  assert (H3 : 0 < min_dur default A <= max_duration default)
    by (split; [reflexivity | vm_compute; discriminate]).
  assert (H4 : end_ (apply_minimum_duration default A) <= start B)
    by (vm_compute; discriminate).
  split; [repeat split; try assumption; apply H3|].
  destruct (minimum_duration_kept default [A; B] [] [B] A None H1 H2 H3)
    as (out & o & Hrun & Hin & Hw & _ & Hd).
  - intros n Hn. injection Hn as <-. exact H4.
  - intros c Hc. discriminate Hc.
  - exists out, o. repeat split; try assumption.
    destruct Hd as [Hd|(c & Hc & _)]; [exact Hd | discriminate Hc].
Defined.

(** C2 (as stated, it fails).  The scenario of the specification: the
    inactive words A 0-0.05, B 0.06-0.5 and C 0.52-0.9 with a minimum
    duration of 0.45s and no clip come out as A 0-0.06, B 0.06-0.52 and
    C 0.52-0.97.  A is not the final word, nothing was clipped, and A lasts
    0.06s: the merge phase cut it at the start of B. *)
Lemma minimum_duration_cut_by_next_word :
  exists a b c,
    optimize_timing default
      [mkWord "A" 0.0 0.05 (Some false); mkWord "B" 0.06 0.5 (Some false);
       mkWord "C" 0.52 0.9 (Some false)]
      None
    = Some [a; b; c]
    /\ words_eqv [a; b; c]
         [mkWord "A" 0 0.06 (Some false); mkWord "B" 0.06 0.52 (Some false);
          mkWord "C" 0.52 0.97 (Some false)]
    /\ end_ a - start a < min_dur default a
    /\ end_ a - start a < 0.1.
Proof. do 3 eexists. split; [run|]. split; [same_words|]. split; run. Qed.

(** ** Idempotence (C3) *)

Section Settle.
Variable self : TimingOptimizer.

Lemma settle_settled (w : Word) (next_start : option Q) :
  0 <= start w ->
  exists e4,
    settle self w next_start = set_end w e4
    /\ settled self (min_dur self w) (start w) (end_ w) next_start e4.
Proof.
  intro Hpos. destruct w as [t s e a]. cbn [start end_] in *.
  unfold settle, settled.
  set (eff := min_dur self (mkWord t s e a)).
  assert (H1 : exists e1,
             apply_minimum_duration self (mkWord t s e a) = mkWord t s e1 a
             /\ ((e - s < eff /\ e1 = s + eff) \/ (eff <= e - s /\ e1 = e))).
  { unfold apply_minimum_duration. fold eff. cbn [start end_].
    destruct (py_lt_spec (e - s) eff); eexists; (split; [reflexivity|]); auto. }
  destruct H1 as (e1 & -> & H1).
  assert (H2 : exists e2,
             merge_at self (mkWord t s e1 a) next_start = mkWord t s e2 a
             /\ match next_start with
                | Some n =>
                    (n - e1 <= gap_merge_threshold self /\ e2 = n)
                    \/ (gap_merge_threshold self < n - e1 /\ e2 = e1)
                | None => e2 = e1
                end).
  { unfold merge_at. destruct next_start as [n|]; cbn [start end_].
    - destruct (py_le_spec (n - e1) (gap_merge_threshold self));
        eexists; (split; [reflexivity|]); auto.
    - eexists; split; reflexivity. }
  destruct H2 as (e2 & -> & H2).
  assert (H3 : exists e3,
             apply_maximum_duration self (mkWord t s e2 a) = mkWord t s e3 a
             /\ ((max_duration self < e2 - s /\ e3 = s + max_duration self)
                 \/ (e2 - s <= max_duration self /\ e3 = e2))).
  { unfold apply_maximum_duration. cbn [start end_].
    destruct (py_gt_spec (e2 - s) (max_duration self));
      eexists; (split; [reflexivity|]); auto. }
  destruct H3 as (e3 & -> & H3).
  assert (H4 : exists e4,
             validate_word (mkWord t s e3 a) = mkWord t s e4 a
             /\ ((e3 <= s /\ e4 = s + 0.3) \/ (s < e3 /\ e4 = e3))).
  { unfold validate_word. cbn [start end_].
    destruct (py_le_spec e3 s); cbn [start end_ set_end];
      (destruct (py_lt_spec s 0); [lra|]);
      eexists; (split; [reflexivity|]); auto. }
  destruct H4 as (e4 & -> & H4).
  exists e4. split; [reflexivity|]. exists e1, e2, e3. auto.
Qed.

Lemma settled_fixed (eff s e e4 e4' : Q) (next_start : option Q) :
  0 <= gap_merge_threshold self ->
  0 < eff ->
  (forall n, next_start = Some n -> s <= n) ->
  settled self eff s e next_start e4 ->
  settled self eff s e4 next_start e4' ->
  e4' = e4.
Proof.
  intros Hthr Heff Hnext (e1 & e2 & e3 & H1 & H2 & H3 & H4)
    (f1 & f2 & f3 & G1 & G2 & G3 & G4).
  destruct next_start as [n|]; [specialize (Hnext n eq_refl)|clear Hnext].
  - destruct H1 as [[? ->]|[? ->]]; destruct H2 as [[? ->]|[? ->]];
      destruct H3 as [[? ->]|[? ->]]; destruct H4 as [[? ->]|[? ->]];
      try (exfalso; lra);
      destruct G1 as [[? ->]|[? ->]]; try (exfalso; lra);
      destruct G2 as [[? ->]|[? ->]]; try (exfalso; lra);
      destruct G3 as [[? ->]|[? ->]]; try (exfalso; lra);
      destruct G4 as [[? ->]|[? ->]]; try (exfalso; lra);
      reflexivity.
  - subst e2 f2.
    destruct H1 as [[? ->]|[? ->]];
      destruct H3 as [[? ->]|[? ->]]; destruct H4 as [[? ->]|[? ->]];
      try (exfalso; lra);
      destruct G1 as [[? ->]|[? ->]]; try (exfalso; lra);
      destruct G3 as [[? ->]|[? ->]]; try (exfalso; lra);
      destruct G4 as [[? ->]|[? ->]]; try (exfalso; lra);
      reflexivity.
Qed.

Lemma settle_idempotent (w : Word) (next_start : option Q) :
  0 <= gap_merge_threshold self ->
  0 < min_dur self w ->
  0 <= start w ->
  (forall s, next_start = Some s -> start w <= s) ->
  settle self (settle self w next_start) next_start = settle self w next_start.
Proof.
  intros Hthr Heff Hpos Hnext.
  destruct (settle_settled w next_start Hpos) as (e4 & -> & H).
  destruct (settle_settled (set_end w e4) next_start Hpos) as (e4' & -> & H').
  cbn [start end_ set_end] in H'.
  change (min_dur self (set_end w e4)) with (min_dur self w) in H'.
  rewrite (settled_fixed _ _ _ _ _ _ Hthr Heff Hnext H H').
  reflexivity.
Qed.

Lemma settle_all_reading (l : list Word) :
  _validate_timing
    (_apply_maximum_durations self
       (merge_pairs self (_apply_minimum_durations self l)))
  = settle_all self l.
Proof.
  induction l as [|w r IH]; [reflexivity|].
  cbn [_apply_minimum_durations map merge_pairs _apply_maximum_durations
       _validate_timing settle_all].
  f_equal; [|exact IH].
  unfold settle. rewrite merge_word_at. do 3 f_equal.
  destruct r as [|n r]; [reflexivity|].
  cbn [map hd_error option_map]. now rewrite start_apply_minimum.
Qed.

Lemma optimize_timing_settles (words_data : list Word) :
  0 <= gap_merge_threshold self ->
  optimize_timing self words_data None
  = Some (settle_all self (sorted_by_start words_data)).
Proof.
  intro Hthr. rewrite optimize_timing_reading.
  unfold clip_phase, before_clip. cbn [Py.truthy].
  rewrite (resolve_merged self) by assumption.
  now rewrite settle_all_reading.
Qed.

Lemma start_settle (w : Word) (ns : option Q) :
  0 <= start w -> start (settle self w ns) = start w.
Proof.
  intro Hpos. unfold settle, validate_word, apply_maximum_duration.
  set (m := merge_at self (apply_minimum_duration self w) ns).
  assert (Hm : start m = start w).
  { unfold m. now rewrite start_merge_at, start_apply_minimum. }
  destruct (Py.gt (end_ m - start m) (max_duration self));
    cbn [start end_ set_end];
    match goal with |- context [Py.le ?a ?b] => destruct (Py.le a b) end;
    cbn [start end_ set_end];
    (destruct (py_lt_spec (start m) 0) as [Hneg|_]; [rewrite Hm in Hneg; lra|]);
    cbn [start set_end]; assumption.
Qed.

Lemma settle_all_starts (l : list Word) :
  Forall (fun w => 0 <= start w) l ->
  map start (settle_all self l) = map start l.
Proof.
  induction 1 as [|w r Hw Hr IH]; [reflexivity|].
  cbn [settle_all map]. now rewrite IH, start_settle.
Qed.

Lemma settle_all_idempotent (l : list Word) :
  0 <= gap_merge_threshold self ->
  (forall w, 0 < min_dur self w) ->
  sorted_starts l ->
  Forall (fun w => 0 <= start w) l ->
  settle_all self (settle_all self l) = settle_all self l.
Proof.
  intros Hthr Heff Hs Hpos. induction Hpos as [|w r Hw Hr IH]; [reflexivity|].
  destruct Hs as [Hhd Htl].
  cbn [settle_all]. f_equal; [|now apply IH].
  assert (Hnext : option_map start (hd_error (settle_all self r))
                  = option_map start (hd_error r)).
  { destruct r as [|n r]; [reflexivity|].
    cbn [settle_all hd_error option_map]. f_equal.
    apply start_settle. now inversion Hr. }
  rewrite Hnext. apply settle_idempotent; try assumption; [apply Heff|].
  intros s Heq. destruct r as [|n r]; [discriminate|].
  cbn in Heq. injection Heq as <-. exact Hhd.
Qed.

Lemma word_eqv_refl (w : Word) : word_eqv w w.
Proof. repeat split; reflexivity. Qed.

Lemma words_eqv_refl (l : list Word) : words_eqv l l.
Proof. induction l; constructor; [apply word_eqv_refl | assumption]. Qed.

Lemma presettle_all_reading (l : list Word) :
  _apply_maximum_durations self
    (merge_pairs self (_apply_minimum_durations self l))
  = presettle_all self l.
Proof.
  induction l as [|w r IH]; [reflexivity|].
  cbn [_apply_minimum_durations map merge_pairs _apply_maximum_durations
       presettle_all].
  f_equal; [|exact IH].
  unfold presettle. rewrite merge_word_at. do 2 f_equal.
  destruct r as [|n r]; [reflexivity|].
  cbn [map hd_error option_map]. now rewrite start_apply_minimum.
Qed.

Lemma before_clip_presettle (l : list Word) :
  0 <= gap_merge_threshold self ->
  before_clip self l = presettle_all self l.
Proof.
  intro Hthr. unfold before_clip.
  rewrite (resolve_merged self) by assumption.
  apply presettle_all_reading.
Qed.

(** Phases 1 to 6 on a word that starts at 0 or later and before the clip
    duration, when the overlap loop has nothing to do: the clamp keeps
    the word, and its times follow [run_stages]. *)
Lemma run_word_rule (t : string) (s e : Q) (a : option bool)
    (next_start : option Q) (c : Q) :
  0 <= s -> s < c ->
  exists q s4 e5,
    clamp_word c (presettle self (mkWord t s e a) next_start) = Some q
    /\ start q = s4
    /\ validate_word q = mkWord t s4 e5 a
    /\ run_stages self (min_dur self (mkWord t s e a)) s e next_start c s4 e5.
Proof.
  intros Hpos Hc. unfold presettle, run_stages.
  set (eff := min_dur self (mkWord t s e a)).
  assert (H1 : exists e1,
             apply_minimum_duration self (mkWord t s e a) = mkWord t s e1 a
             /\ ((e - s < eff /\ e1 = s + eff) \/ (eff <= e - s /\ e1 = e))).
  { unfold apply_minimum_duration. fold eff. cbn [start end_].
    destruct (py_lt_spec (e - s) eff); eexists; (split; [reflexivity|]); auto. }
  destruct H1 as (e1 & -> & H1).
  assert (H2 : exists e2,
             merge_at self (mkWord t s e1 a) next_start = mkWord t s e2 a
             /\ match next_start with
                | Some n =>
                    (n - e1 <= gap_merge_threshold self /\ e2 = n)
                    \/ (gap_merge_threshold self < n - e1 /\ e2 = e1)
                | None => e2 = e1
                end).
  { unfold merge_at. destruct next_start as [n|]; cbn [start end_].
    - destruct (py_le_spec (n - e1) (gap_merge_threshold self));
        eexists; (split; [reflexivity|]); auto.
    - eexists; split; reflexivity. }
  destruct H2 as (e2 & -> & H2).
  assert (H3 : exists e3,
             apply_maximum_duration self (mkWord t s e2 a) = mkWord t s e3 a
             /\ ((max_duration self < e2 - s /\ e3 = s + max_duration self)
                 \/ (e2 - s <= max_duration self /\ e3 = e2))).
  { unfold apply_maximum_duration. cbn [start end_].
    destruct (py_gt_spec (e2 - s) (max_duration self));
      eexists; (split; [reflexivity|]); auto. }
  destruct H3 as (e3 & -> & H3).
  assert (H4 : exists e4 s4,
             clamp_word c (mkWord t s e3 a) = Some (mkWord t s4 e4 a)
             /\ ((c < e3 /\ e4 = c) \/ (e3 <= c /\ e4 = e3))
             /\ ((e4 - s < 0.1 /\ 0 < e4 - 0.1 /\ s4 = e4 - 0.1)
                 \/ (e4 - s < 0.1 /\ e4 - 0.1 <= 0 /\ s4 = 0)
                 \/ (0.1 <= e4 - s /\ s4 = s))).
  { unfold clamp_word. cbn [start end_].
    destruct (py_gt_spec e3 c); cbn [start end_ set_end set_start];
      (destruct (py_ge_spec s c); [lra|]);
      match goal with
      | |- context [Py.lt ?x ?y] => destruct (py_lt_spec x y)
      end;
      try (unfold Py.max;
           match goal with
           | |- context [Py.gt ?x ?y] => destruct (py_gt_spec x y)
           end);
      do 2 eexists; (split; [reflexivity|]); split; auto 6. }
  destruct H4 as (e4 & s4 & -> & H4 & H5).
  assert (Hs4 : 0 <= s4).
  { destruct H5 as [(_ & ? & ->)|[(_ & _ & ->)|(_ & ->)]]; lra. }
  assert (H6 : exists e5,
             validate_word (mkWord t s4 e4 a) = mkWord t s4 e5 a
             /\ ((e4 <= s4 /\ e5 = s4 + 0.3) \/ (s4 < e4 /\ e5 = e4))).
  { unfold validate_word. cbn [start end_].
    destruct (py_le_spec e4 s4); cbn [start end_ set_end];
      (destruct (py_lt_spec s4 0); [lra|]);
      eexists; (split; [reflexivity|]); auto. }
  destruct H6 as (e5 & Hv & H6).
  exists (mkWord t s4 e4 a), s4, e5.
  split; [reflexivity|]. split; [reflexivity|]. split; [exact Hv|].
  exists e1, e2, e3, e4. auto 10.
Qed.

(** A run whose clamp moved no start, run again: the same times.  In the
    second run the next word is the one of the first run when the clamp
    kept it; when the clamp dropped it, nothing follows. *)
Lemma run_stages_fixed (eff s e c s4 e5 t4 f5 : Q) (ns ns' : option Q) :
  0 <= gap_merge_threshold self ->
  0 < eff -> 0 <= s -> s < c ->
  (forall n, ns = Some n -> s <= n) ->
  (exists n n', ns = Some n /\ ns' = Some n' /\ n' == n /\ n < c)
  \/ (ns' = None /\ (forall n, ns = Some n -> c <= n)) ->
  run_stages self eff s e ns c s4 e5 ->
  s4 == s ->
  run_stages self eff s4 e5 ns' c t4 f5 ->
  t4 == s4 /\ f5 == e5.
Proof.
  intros Hthr Heff Hpos Hc Hnext Hns
    (e1 & e2 & e3 & e4 & H1 & H2 & H3 & H4 & H5 & H6) Hsame
    (f1 & f2 & f3 & f4 & G1 & G2 & G3 & G4 & G5 & G6).
  destruct Hns as [(n & n' & -> & -> & Hn' & Hlt)|[-> Hge]].
  - specialize (Hnext n eq_refl).
    destruct H1 as [[? ->]|[? ->]]; destruct H2 as [[? ->]|[? ->]];
      destruct H3 as [[? ->]|[? ->]]; destruct H4 as [[? ->]|[? ->]];
      try (exfalso; lra);
      destruct H5 as [(? & ? & ->)|[(? & ? & ->)|(? & ->)]];
      try (exfalso; lra);
      destruct H6 as [[? ->]|[? ->]]; try (exfalso; lra);
      destruct G1 as [[? ->]|[? ->]]; try (exfalso; lra);
      destruct G2 as [[? ->]|[? ->]]; try (exfalso; lra);
      destruct G3 as [[? ->]|[? ->]]; try (exfalso; lra);
      destruct G4 as [[? ->]|[? ->]]; try (exfalso; lra);
      destruct G5 as [(? & ? & ->)|[(? & ? & ->)|(? & ->)]];
      try (exfalso; lra);
      destruct G6 as [[? ->]|[? ->]]; try (exfalso; lra);
      split; lra.
  - subst f2. destruct ns as [n|].
    + specialize (Hnext n eq_refl). specialize (Hge n eq_refl).
      destruct H1 as [[? ->]|[? ->]]; destruct H2 as [[? ->]|[? ->]];
        destruct H3 as [[? ->]|[? ->]]; destruct H4 as [[? ->]|[? ->]];
        try (exfalso; lra);
        destruct H5 as [(? & ? & ->)|[(? & ? & ->)|(? & ->)]];
        try (exfalso; lra);
        destruct H6 as [[? ->]|[? ->]]; try (exfalso; lra);
        destruct G1 as [[? ->]|[? ->]]; try (exfalso; lra);
        destruct G3 as [[? ->]|[? ->]]; try (exfalso; lra);
        destruct G4 as [[? ->]|[? ->]]; try (exfalso; lra);
        destruct G5 as [(? & ? & ->)|[(? & ? & ->)|(? & ->)]];
        try (exfalso; lra);
        destruct G6 as [[? ->]|[? ->]]; try (exfalso; lra);
        split; lra.
    + subst e2.
      destruct H1 as [[? ->]|[? ->]];
        destruct H3 as [[? ->]|[? ->]]; destruct H4 as [[? ->]|[? ->]];
        try (exfalso; lra);
        destruct H5 as [(? & ? & ->)|[(? & ? & ->)|(? & ->)]];
        try (exfalso; lra);
        destruct H6 as [[? ->]|[? ->]]; try (exfalso; lra);
        destruct G1 as [[? ->]|[? ->]]; try (exfalso; lra);
        destruct G3 as [[? ->]|[? ->]]; try (exfalso; lra);
        destruct G4 as [[? ->]|[? ->]]; try (exfalso; lra);
        destruct G5 as [(? & ? & ->)|[(? & ? & ->)|(? & ->)]];
        try (exfalso; lra);
        destruct G6 as [[? ->]|[? ->]]; try (exfalso; lra);
        split; lra.
Qed.

Lemma start_presettle (w : Word) (ns : option Q) :
  start (presettle self w ns) = start w.
Proof.
  unfold presettle, apply_maximum_duration, merge_at, apply_minimum_duration.
  destruct ns as [n|]; repeat (destruct (_ : bool)); reflexivity.
Qed.

Lemma clamp_word_drop (c : Q) (w : Word) :
  c <= start w -> clamp_word c w = None.
Proof. intro H. now apply (clamp_word_rule c w). Qed.

(** A run with a clip whose clamp moved no start, and the run on its
    result: the same words with the same times. *)
Lemma clipped_run_again (c : Q) (l : list Word) :
  0 <= gap_merge_threshold self ->
  (forall w, 0 < min_dur self w) ->
  sorted_starts l ->
  Forall (fun w => 0 <= start w) l ->
  Forall (clamp_keeps_start c) (presettle_all self l) ->
  exists K K',
    _validate_timing (_clamp_to_clip_duration (presettle_all self l) c) = K
    /\ match hd_error K with
       | Some k =>
           exists w rest, l = w :: rest /\ start w < c /\ start k == start w
       | None => forall w rest, l = w :: rest -> c <= start w
       end
    /\ sorted_starts K
    /\ _validate_timing (_clamp_to_clip_duration (presettle_all self K) c) = K'
    /\ words_eqv K' K.
Proof.
  intros Hthr Heff Hs Hpos. induction Hpos as [|w rest Hw Hrest IH]; intro Hk.
  - exists [], []. repeat split; try constructor. discriminate.
  - destruct Hs as [Hhd Hsr]. cbn [presettle_all] in Hk.
    inversion Hk as [|? ? Hkw Hkr]; subst.
    destruct (IH Hsr Hkr) as (Kr & Kr' & HKr & Hhead & HsKr & HKr' & Heqv).
    cbn [presettle_all _clamp_to_clip_duration].
    destruct (Qlt_le_dec (start w) c) as [Hlt|Hge].
    + set (ns := option_map start (hd_error rest)) in *.
      set (ns' := option_map start (hd_error Kr)).
      assert (Hnext : forall n, ns = Some n -> start w <= n).
      { intros n Hn. destruct rest as [|x rest]; [discriminate|].
        cbn in Hn. injection Hn as <-. exact Hhd. }
      assert (Hns : (exists n n', ns = Some n /\ ns' = Some n' /\ n' == n
                                  /\ n < c)
                    \/ (ns' = None /\ (forall n, ns = Some n -> c <= n))).
      { unfold ns, ns'. destruct (hd_error Kr) as [k|].
        - destruct Hhead as (x & rest' & -> & Hx & Hkx). left.
          exists (start x), (start k). auto.
        - right. split; [reflexivity|]. intros n Hn.
          destruct rest as [|x rest]; [discriminate|].
          cbn in Hn. injection Hn as <-. exact (Hhead x rest eq_refl). }
      destruct w as [t s e a]. cbn [start] in *.
      destruct (run_word_rule t s e a ns c Hw Hlt)
        as (q & s4 & e5 & Hq & Hsq & Hvq & Hrun).
      assert (Hsame : s4 == s).
      { rewrite <- Hsq. rewrite (Hkw q Hq). now rewrite start_presettle. }
      assert (Hs4 : 0 <= s4) by lra.
      assert (Hc4 : s4 < c) by lra.
      destruct (run_word_rule t s4 e5 a ns' c Hs4 Hc4)
        as (q' & t4 & f5 & Hq' & _ & Hvq' & Hrun').
      change (min_dur self (mkWord t s4 e5 a))
        with (min_dur self (mkWord t s e a)) in Hrun'.
      destruct (run_stages_fixed _ s e c s4 e5 t4 f5 ns ns' Hthr
                  (Heff _) Hw Hlt Hnext Hns Hrun Hsame Hrun') as [Ht4 Hf5].
      rewrite Hq. cbn [_validate_timing map]. rewrite Hvq.
      fold (_validate_timing
              (_clamp_to_clip_duration (presettle_all self rest) c)).
      rewrite HKr.
      exists (mkWord t s4 e5 a :: Kr), (mkWord t t4 f5 a :: Kr').
      split; [reflexivity|].
      split.
      { cbn [hd_error]. exists (mkWord t s e a), rest. cbn [start]. auto. }
      split.
      { split; [|exact HsKr]. destruct Kr as [|k Kr]; [exact I|].
        cbn [hd_error] in Hhead.
        destruct Hhead as (x & rest' & -> & _ & Hkx).
        cbn [start]. rewrite Hkx, Hsame. exact Hhd. }
      split.
      { cbn [presettle_all _clamp_to_clip_duration]. fold ns'. rewrite Hq'.
        cbn [_validate_timing map]. rewrite Hvq'. f_equal. exact HKr'. }
      constructor; [|exact Heqv].
      repeat split; cbn [start end_]; assumption.
    + rewrite (clamp_word_drop c) by (rewrite start_presettle; exact Hge).
      assert (HK0 : Kr = []).
      { destruct Kr as [|k Kr]; [reflexivity|].
        cbn [hd_error] in Hhead.
        destruct Hhead as (x & rest' & -> & Hx & _). lra. }
      rewrite HK0 in *. inversion Heqv; subst.
      exists [], []. split; [exact HKr|].
      split; [cbn [hd_error]; intros ? ? [= <- <-]; exact Hge|].
      repeat split; constructor.
Qed.

Lemma optimize_timing_settles_unclipped (words_data : list Word)
    (clip_duration : option Q) :
  0 <= gap_merge_threshold self ->
  Py.truthy clip_duration = false ->
  optimize_timing self words_data clip_duration
  = Some (settle_all self (sorted_by_start words_data)).
Proof.
  intros Hthr Hno. rewrite optimize_timing_reading.
  unfold clip_phase, before_clip. rewrite Hno.
  rewrite (resolve_merged self) by assumption.
  now rewrite settle_all_reading.
Qed.

Lemma optimize_timing_clipped (words_data : list Word) (c : Q) :
  0 <= gap_merge_threshold self ->
  ~ c == 0 ->
  optimize_timing self words_data (Some c)
  = Some (_validate_timing
            (_clamp_to_clip_duration
               (presettle_all self (sorted_by_start words_data)) c)).
Proof.
  intros Hthr Hc. rewrite optimize_timing_reading.
  unfold clip_phase, Py.truthy.
  destruct (Qeq_bool c 0) eqn:E; [apply Qeq_bool_eq in E; contradiction|].
  cbn [negb]. now rewrite before_clip_presettle.
Qed.

(** C3 (amended).  With a merge threshold of 0 or more, positive minimum
    durations (with and without the bonus of an active word) and words
    that start at 0 or later, the result of [optimize_timing] is a fixed
    point whenever the clip clamp, if it runs, moves no start: it may
    drop words and cut ends at the clip duration.  Run on its own result
    with the same optimizer and clip, [optimize_timing] returns the same
    words with the same times; without a clip (or with a clip of 0) the
    result is returned as it is. *)
Theorem optimize_timing_idempotent (words_data : list Word)
    (clip_duration : option Q)
    (Hthr : 0 <= gap_merge_threshold self)
    (Hmin : 0 < min_duration self)
    (Hbonus : 0 < min_duration self + active_word_bonus self)
    (Hpos : Forall (fun w => 0 <= start w) words_data)
    (Hclip : forall c, clip_duration = Some c -> ~ c == 0 ->
               Forall (clamp_keeps_start c)
                 (before_clip self (sorted_by_start words_data))) :
  exists out,
    optimize_timing self words_data clip_duration = Some out
    /\ exists out',
         optimize_timing self out clip_duration = Some out'
         /\ words_eqv out' out
         /\ (Py.truthy clip_duration = false -> out' = out).
Proof.
  assert (Hs : sorted_starts (sorted_by_start words_data))
    by apply sorted_by_start_sorted.
  assert (Hp : Forall (fun w => 0 <= start w) (sorted_by_start words_data))
    by now apply sorted_by_start_Forall.
  assert (Heff : forall w, 0 < min_dur self w)
    by (intro w; unfold min_dur; destruct (is_active w); lra).
  destruct (Py.truthy clip_duration) eqn:Ht.
  - destruct clip_duration as [c|]; [|discriminate].
    assert (Hc : ~ c == 0).
    { intro H. apply Qeq_bool_iff in H. cbn in Ht. rewrite H in Ht.
      discriminate. }
    specialize (Hclip c eq_refl Hc).
    rewrite before_clip_presettle in Hclip by assumption.
    destruct (clipped_run_again c _ Hthr Heff Hs Hp Hclip)
      as (K & K' & HK & _ & HsK & HK' & Heqv).
    exists K. split.
    + rewrite optimize_timing_clipped by assumption. now rewrite HK.
    + exists K'. split; [|split; [exact Heqv | discriminate]].
      rewrite optimize_timing_clipped by assumption.
      rewrite (sorted_by_start_fixed K HsK). now rewrite HK'.
  - exists (settle_all self (sorted_by_start words_data)).
    split; [now apply optimize_timing_settles_unclipped|].
    exists (settle_all self (sorted_by_start words_data)).
    split; [|split; [apply words_eqv_refl | reflexivity]].
    rewrite optimize_timing_settles_unclipped by assumption.
    rewrite sorted_by_start_fixed.
    + f_equal. now apply settle_all_idempotent.
    + eapply sorted_starts_map; [|exact Hs].
      symmetry. now apply settle_all_starts.
Qed.

End Settle.

(** The test words of [timing.py] with a clip of 8.2s, which cuts the end
    of the last word: the second run returns the words of the first. *)
Lemma optimize_timing_idempotent_witness :
  (0 <= gap_merge_threshold default
   /\ 0 < min_duration default
   /\ 0 < min_duration default + active_word_bonus default
   /\ Forall (fun w => 0 <= start w) test_words
   /\ Forall (clamp_keeps_start 8.2)
        (before_clip default (sorted_by_start test_words)))
  /\ exists out out',
       optimize_timing default test_words (Some 8.2) = Some out
       /\ optimize_timing default out (Some 8.2) = Some out'
       /\ words_eqv out' out
       /\ words_eqv out
            [ mkWord "One" 0.02 0.15 (Some true);
              mkWord "of" 0.15 0.29 (Some false);
              mkWord "favorite" 0.29 0.64 (Some true);
              mkWord "things" 0.64 1.29 (Some true);
              mkWord "really" 7.64 8.2 (Some true) ].
Proof.
  assert (H1 : 0 <= gap_merge_threshold default) by (vm_compute; discriminate).
  assert (H2 : 0 < min_duration default) by reflexivity.
  assert (H3 : 0 < min_duration default + active_word_bonus default)
    by reflexivity.
  assert (H4 : Forall (fun w => 0 <= start w) test_words)
    by (repeat constructor; vm_compute; discriminate).
  assert (H5 : Forall (clamp_keeps_start 8.2)
                 (before_clip default (sorted_by_start test_words))).
  { apply Forall_forall. intros w Hin. vm_compute in Hin.
    repeat (destruct Hin as [<-|Hin];
            [intros w' Hw'; vm_compute in Hw'; injection Hw' as <-;
             vm_compute; reflexivity|]).
    contradiction. }
  split; [repeat split; assumption|].
  assert (H6 : forall c, Some 8.2 = Some c -> ~ c == 0 ->
                 Forall (clamp_keeps_start c)
                   (before_clip default (sorted_by_start test_words)))
    by (intros c [= <-] _; exact H5).
  destruct (optimize_timing_idempotent default test_words (Some 8.2)
              H1 H2 H3 H4 H6) as (out & Hout & out' & Hout' & Heqv & _).
  exists out, out'. split; [exact Hout|]. split; [exact Hout'|].
  split; [exact Heqv|].
  vm_compute in Hout. injection Hout as <-. same_words.
Defined.

(** C3 (as stated, it fails).  With the default optimizer and a clip of
    10s, the run on A 9.0-9.95, B 9.95-10.2 gives A 9.0-9.95, B 9.9-10, and
    the run on that gives A 9.0-9.9, B 9.9-10: the clamp moved the start of
    B.  Without a clip the word -1-0.5 gives 0-0.5, and that gives 0-0.65.
    With a negative merge threshold the overlap loop works on A 0-2, B 1-3
    and cuts A again on the second run.  With a minimum duration of 0 the
    empty word A 1-1 before B 1.2-2 is repaired to 1-1.3, and the second run
    cuts it at the start of B. *)
Lemma optimize_timing_not_idempotent :
  (exists out out',
      optimize_timing default
        [mkWord "A" 9.0 9.95 (Some true); mkWord "B" 9.95 10.2 (Some true)]
        (Some 10)
      = Some out
      /\ optimize_timing default out (Some 10) = Some out'
      /\ words_eqv out
           [mkWord "A" 9.0 9.95 (Some true); mkWord "B" 9.9 10 (Some true)]
      /\ words_eqv out'
           [mkWord "A" 9.0 9.9 (Some true); mkWord "B" 9.9 10 (Some true)]
      /\ ~ words_eqv out' out)
  /\ (exists out out',
        optimize_timing default [mkWord "A" (-1) 0.5 (Some true)] None = Some out
        /\ optimize_timing default out None = Some out'
        /\ words_eqv out [mkWord "A" 0 0.5 (Some true)]
        /\ words_eqv out' [mkWord "A" 0 0.65 (Some true)]
        /\ ~ words_eqv out' out)
  /\ (exists out out',
        optimize_timing (mkOptimizer 0.45 1.5 (-2) 0.2)
          [mkWord "A" 0 2 (Some false); mkWord "B" 1 3 (Some false)] None
        = Some out
        /\ optimize_timing (mkOptimizer 0.45 1.5 (-2) 0.2) out None = Some out'
        /\ words_eqv out
             [mkWord "A" 0 1.25 (Some false); mkWord "B" 1 2.5 (Some false)]
        /\ words_eqv out'
             [mkWord "A" 0 1.025 (Some false); mkWord "B" 1 2.5 (Some false)]
        /\ ~ words_eqv out' out)
  /\ (exists out out',
        optimize_timing (mkOptimizer 0 1.5 0.1 0.2)
          [mkWord "A" 1 1 (Some false); mkWord "B" 1.2 2 (Some false)] None
        = Some out
        /\ optimize_timing (mkOptimizer 0 1.5 0.1 0.2) out None = Some out'
        /\ words_eqv out
             [mkWord "A" 1 1.3 (Some false); mkWord "B" 1.2 2 (Some false)]
        /\ words_eqv out'
             [mkWord "A" 1 1.2 (Some false); mkWord "B" 1.2 2 (Some false)]
        /\ ~ words_eqv out' out).
Proof.
  repeat split; do 2 eexists;
    (split; [run|]); (split; [run|]);
    (split; [same_words|]); (split; [same_words|]);
    intro H; inversion H as [|? ? ? ? Hw _]; subst;
    destruct Hw as (_ & _ & He & _); vm_compute in He; discriminate.
Qed.

(** ** No overlap (C1) *)

(** A settled word whose successor starts later ends at the successor's
    start at the latest. *)
Lemma settled_before_next (self : TimingOptimizer) (eff s e n e4 : Q) :
  0 <= gap_merge_threshold self ->
  0 < eff -> 0 < max_duration self -> s < n ->
  settled self eff s e (Some n) e4 ->
  e4 <= n.
Proof.
  intros Hthr Heff HM Hsn (e1 & e2 & e3 & H1 & H2 & H3 & H4).
  destruct H1 as [[? ->]|[? ->]]; destruct H2 as [[? ->]|[? ->]];
    destruct H3 as [[? ->]|[? ->]]; destruct H4 as [[? ->]|[? ->]]; lra.
Qed.

Lemma settle_all_no_overlap (self : TimingOptimizer) (l : list Word) :
  0 <= gap_merge_threshold self ->
  0 < min_duration self -> 0 <= active_word_bonus self ->
  0 < max_duration self ->
  Forall (fun w => 0 <= start w) l ->
  distinct_starts l ->
  no_overlap (settle_all self l).
Proof.
  intros Hthr Hmin Hbonus HM Hpos. induction Hpos as [|w r Hw Hr IH]; [intros; exact I|].
  intros [Hd Hrest]. cbn [settle_all no_overlap]. split; [|now apply IH].
  destruct r as [|n r]; [exact I|].
  cbn [settle_all hd_error option_map].
  rewrite (start_settle self n) by now inversion Hr.
  destruct (settle_settled self w (Some (start n)) Hw) as (e4 & -> & Hs).
  cbn [end_ set_end].
  apply (settled_before_next self (min_dur self w) (start w) (end_ w));
    try assumption.
  unfold min_dur. destruct (is_active w); lra.
Qed.

(** X3.  Without a clip, with a non-negative merge threshold, positive minimum
    and maximum durations and words that start at distinct, non-negative
    times, the result of [optimize_timing] has no overlap. *)
Lemma optimize_timing_no_overlap_without_clip (self : TimingOptimizer)
    (words_data : list Word) :
  0 <= gap_merge_threshold self ->
  0 < min_duration self -> 0 <= active_word_bonus self ->
  0 < max_duration self ->
  Forall (fun w => 0 <= start w) words_data ->
  distinct_starts (sorted_by_start words_data) ->
  exists out,
    optimize_timing self words_data None = Some out /\ no_overlap out.
Proof.
  intros Hthr Hmin Hbonus HM Hpos Hd.
  exists (settle_all self (sorted_by_start words_data)). split.
  - now apply optimize_timing_settles.
  - apply settle_all_no_overlap; try assumption.
    now apply sorted_by_start_Forall.
Qed.

(** C1 (the code fails it).  With the optimizer of [main_enterprise.py]
    (and with the default one) and a clip of 10s, the words A 9.0-9.95 and
    B 9.95-10.2 come out as A 9.0-9.95 and B 9.9-10: the clip clamp pulls
    B's start back under A's end.  Without a clip, two words that start
    together at 1.0 come out as A 1.0-1.3 and B 1.0-1.65: final validation
    repairs A's empty duration over B. *)
Theorem optimize_timing_leaves_overlap :
  (forall self, self = enterprise \/ self = default ->
     exists a b,
       optimize_timing self
         [mkWord "A" 9.0 9.95 (Some true); mkWord "B" 9.95 10.2 (Some true)]
         (Some 10)
       = Some [a; b]
       /\ words_eqv [a; b]
            [mkWord "A" 9.0 9.95 (Some true); mkWord "B" 9.9 10 (Some true)]
       /\ start b < end_ a
       /\ ~ no_overlap [a; b])
  /\ (exists a b,
        optimize_timing default
          [mkWord "A" 1 1.2 (Some true); mkWord "B" 1 1.2 (Some true)]
          None
        = Some [a; b]
        /\ words_eqv [a; b]
             [mkWord "A" 1 1.3 (Some true); mkWord "B" 1 1.65 (Some true)]
        /\ start b < end_ a
        /\ ~ no_overlap [a; b]).
Proof.
  split; [intros self [->| ->]|];
    do 2 eexists; (split; [run|]); (split; [same_words|]);
    (split; [run|]); intros [H _]; vm_compute in H; apply H; reflexivity.
Qed.

(** ** Sentence grouping *)

Lemma group_fold (words : list Word) :
  forall groups current_group,
    (let '(g, c) := fold_left group_step words (groups, current_group) in
     match c with [] => g | _ => g ++ [c] end)
    = groups ++ split_groups current_group words.
Proof.
  induction words as [|w rest IH]; intros groups current_group.
  - cbn. destruct current_group; [now rewrite app_nil_r | reflexivity].
  - cbn [fold_left split_groups]. unfold group_step at 2.
    destruct (should_break current_group w).
    + rewrite IH, <- app_assoc. reflexivity.
    + apply IH.
Qed.

Lemma group_words_reading (words : list Word) :
  group_words words = split_groups [] words.
Proof. unfold group_words. apply (group_fold words [] []). Qed.

Lemma should_break_iff (g : list Word) (w : Word) :
  should_break g w = true <-> break_condition g w.
Proof.
  unfold should_break, break_condition, max_words_per_sentence,
    max_sentence_duration, large_gap_threshold.
  destruct g as [|first g'].
  - split; [discriminate | intros (f & Hf & _); discriminate].
  - cbn [hd_error]. rewrite !orb_true_iff, Nat.leb_le. split.
    + intros [[H|H]|H]; exists first; (split; [reflexivity|]).
      * now left.
      * right; left. now destruct (py_gt_spec (start w - start first) 3.5).
      * right; right.
        now destruct (py_gt_spec (start w - end_ (last (first :: g') first)) 0.8).
    + intros (f & Hf & H). injection Hf as <-.
      destruct H as [H|[H|H]].
      * now left; left.
      * left; right. destruct (py_gt_spec (start w - start first) 3.5); [reflexivity|lra].
      * right.
        destruct (py_gt_spec (start w - end_ (last (first :: g') first)) 0.8);
          [reflexivity|lra].
Qed.

Lemma unbroken_single (w : Word) : unbroken [w].
Proof.
  intros p w' r Heq Hp. destruct p as [|x p]; [congruence|].
  injection Heq as _ Heq. destruct p; discriminate.
Qed.

Lemma unbroken_snoc (g : list Word) (w : Word) :
  unbroken g -> ~ break_condition g w -> unbroken (g ++ [w]).
Proof.
  intros Hg Hw p w' r Heq Hp.
  destruct r as [|z r _] using rev_ind.
  - apply app_inj_tail in Heq as [-> ->]. assumption.
  - change (p ++ w' :: r ++ [z]) with (p ++ (w' :: r) ++ [z]) in Heq.
    rewrite app_assoc in Heq. apply app_inj_tail in Heq as [Heq _].
    apply (Hg p w' r); assumption.
Qed.

Lemma split_groups_grouped (words : list Word) :
  forall current_group,
    current_group <> [] -> unbroken current_group ->
    grouped (split_groups current_group words)
    /\ exists r gs, split_groups current_group words = (current_group ++ r) :: gs.
Proof.
  induction words as [|w rest IH]; intros cur Hne Hun.
  - cbn. destruct cur as [|c cur]; [congruence|]. split.
    + now apply grouped_one.
    + exists [], []. now rewrite app_nil_r.
  - cbn [split_groups]. destruct (should_break cur w) eqn:Hb.
    + destruct (IH [w] ltac:(discriminate) (unbroken_single w)) as (Hg & r & gs & Heq).
      rewrite Heq in *. cbn [app] in *. split.
      * apply grouped_cons; try assumption. now apply should_break_iff.
      * exists [], ((w :: r) :: gs). now rewrite app_nil_r.
    + assert (Hnb : ~ break_condition cur w).
      { intro H. apply should_break_iff in H. congruence. }
      destruct (IH (cur ++ [w])) as (Hg & r & gs & Heq).
      * destruct cur; discriminate.
      * now apply unbroken_snoc.
      * split; [assumption|].
        exists (w :: r), gs. rewrite Heq, <- app_assoc. reflexivity.
Qed.

Lemma split_groups_concat (words : list Word) :
  forall current_group,
    concat (split_groups current_group words) = current_group ++ words.
Proof.
  induction words as [|w rest IH]; intros cur.
  - cbn. destruct cur; [reflexivity|]. cbn. now rewrite !app_nil_r.
  - cbn [split_groups]. destruct (should_break cur w).
    + cbn [concat]. now rewrite IH.
    + now rewrite IH, <- app_assoc.
Qed.

Lemma no_break (g : list Word) (w first : Word) :
  hd_error g = Some first ->
  (length g < 6)%nat ->
  start w - start first <= 3.5 ->
  start w - end_ (last g first) <= 0.8 ->
  should_break g w = false.
Proof.
  intros Hf Hl Hd Hg. destruct (should_break g w) eqn:Hb; [|reflexivity].
  apply should_break_iff in Hb as (f & Hf' & H).
  rewrite Hf in Hf'. injection Hf' as <-.
  destruct H as [H|[H|H]]; [lia | lra | lra].
Qed.

(** ** The overlap fix between groups *)

Lemma fix_fold (groups : list (list Word)) :
  forall suf pre acc,
    groups = pre ++ suf ->
    fold_left (fix_step groups) (seq (length pre) (length suf)) acc
    = acc ++ fix_from suf.
Proof.
  induction suf as [|g suf IH]; intros pre acc Hg; cbn [length seq fold_left].
  - now rewrite app_nil_r.
  - assert (Hstep : fix_step groups acc (length pre)
                    = match fix_group g (hd [] suf) with
                      | Some g' => acc ++ [g']
                      | None => acc
                      end).
    { unfold fix_step.
      pose proof (index_middle pre suf g) as Hi. unfold Py.index in Hi.
      rewrite Hg at 1. rewrite Hi.
      assert (Hn : (if (length pre + 1 <? length groups)%nat
                    then nth (length pre + 1) groups [] else [])
                   = hd [] suf).
      { rewrite Hg, length_app. cbn [length].
        destruct suf as [|n suf]; cbn [length hd].
        - now destruct (Nat.ltb_spec (length pre + 1) (length pre + 1)); [lia|].
        - destruct (Nat.ltb_spec (length pre + 1) (length pre + S (S (length suf))));
            [|lia].
          rewrite app_nth2 by lia.
          now replace (length pre + 1 - length pre)%nat with 1%nat by lia. }
      rewrite Hn. unfold fix_group.
      destruct g as [|w0 g]; [reflexivity|].
      destruct (hd [] suf) as [|nf nr]; [reflexivity|].
      destruct (Py.ge _ _); [|reflexivity].
      cbv zeta. cbn [start end_ set_end].
      destruct (Py.le _ _); [|reflexivity].
      rewrite removelast_last.
      now destruct (removelast (w0 :: g)). }
    rewrite Hstep.
    specialize (IH (pre ++ [g])).
    rewrite length_app, Nat.add_1_r in IH.
    rewrite IH by (rewrite Hg, <- app_assoc; reflexivity).
    cbn [fix_from]. destruct (fix_group g (hd [] suf)); [|reflexivity].
    now rewrite <- app_assoc.
Qed.

Lemma fix_from_single (g : list Word) : g <> [] -> fix_from [g] = [g].
Proof. destruct g; [congruence | reflexivity]. Qed.

Lemma fix_overlaps_reading (groups : list (list Word)) :
  Forall (fun g => g <> []) groups ->
  _fix_sentence_timing_overlaps groups = fix_from groups.
Proof.
  intro Hne. unfold _fix_sentence_timing_overlaps.
  destruct groups as [|g [|g' r]].
  - reflexivity.
  - cbn [length Nat.leb]. symmetry. apply fix_from_single. now inversion Hne.
  - change (length (g :: g' :: r) <=? 1)%nat with false. cbv iota.
    exact (fix_fold (g :: g' :: r) (g :: g' :: r) [] [] eq_refl).
Qed.

Lemma thinned_refl (l : list Word) : thinned l l.
Proof. induction l; constructor; (reflexivity || lra || assumption). Qed.

Lemma thinned_to_nil (l : list Word) : thinned l [].
Proof. induction l; constructor; assumption. Qed.

Lemma thinned_app (a a' b b' : list Word) :
  thinned a a' -> thinned b b' -> thinned (a ++ b) (a' ++ b').
Proof. induction 1; intros; cbn [app]; try constructor; auto. Qed.

Lemma thinned_Forall (P : Q -> Prop) (l l' : list Word) :
  thinned l l' ->
  Forall (fun n => P (start n)) l -> Forall (fun n => P (start n)) l'.
Proof.
  induction 1 as [|w w' l l' Hs He Ht IH|w l l' Ht IH]; intro HF.
  - constructor.
  - inversion HF; subst. constructor; [now rewrite Hs | auto].
  - inversion HF; subst. auto.
Qed.

Lemma thinned_apart (l l' : list Word) : thinned l l' -> apart l -> apart l'.
Proof.
  induction 1 as [|w w' l l' Hs He Ht IH|w l l' Ht IH]; intros Ha.
  - exact I.
  - destruct Ha as [Hw Hl]. split; [|auto].
    apply (thinned_Forall (fun s => end_ w' <= s) l l' Ht).
    eapply Forall_impl; [|exact Hw]. cbn beta. intros; lra.
  - destruct Ha as [_ Hl]. auto.
Qed.

Lemma fix_group_thinned (g next : list Word) :
  thinned g (match fix_group g next with Some g' => g' | None => [] end).
Proof.
  unfold fix_group. destruct g as [|w0 g]; [constructor|].
  destruct next as [|nf nr]; [apply thinned_refl|].
  destruct (py_ge_spec (end_ (last (w0 :: g) w0)) (start nf)) as [Hge|_];
    [|apply thinned_refl].
  cbv zeta. cbn [start end_ set_end].
  assert (Hsplit : w0 :: g = removelast (w0 :: g) ++ [last (w0 :: g) w0])
    by (apply app_removelast_last; discriminate).
  destruct (Py.le _ _).
  - assert (Ht : thinned (w0 :: g) (removelast (w0 :: g))).
    { rewrite Hsplit at 1.
      rewrite <- (app_nil_r (removelast (w0 :: g))) at 2.
      apply thinned_app; [apply thinned_refl | apply thinned_to_nil]. }
    destruct (removelast (w0 :: g)); [apply thinned_to_nil | exact Ht].
  - rewrite Hsplit at 1. apply thinned_app; [apply thinned_refl|].
    constructor; [reflexivity | cbn [end_ set_end]; lra | constructor].
Qed.

Lemma fix_from_thinned (gs : list (list Word)) :
  thinned (concat gs) (concat (fix_from gs)).
Proof.
  induction gs as [|g gs IH]; [constructor|].
  cbn [fix_from concat].
  pose proof (fix_group_thinned g (hd [] gs)) as Hg.
  destruct (fix_group g (hd [] gs)); cbn [concat].
  - now apply thinned_app.
  - rewrite <- (app_nil_l (concat (fix_from gs))). now apply thinned_app.
Qed.

Lemma fix_group_nonempty (g next g' : list Word) :
  fix_group g next = Some g' -> g' <> [].
Proof.
  unfold fix_group. destruct g as [|w0 g]; [discriminate|].
  destruct next as [|nf nr]; [intros [= <-]; discriminate|].
  destruct (Py.ge _ _); [|intros [= <-]; discriminate].
  cbv zeta. destruct (Py.le _ _).
  - destruct (removelast (w0 :: g)); [discriminate | intros [= <-]; discriminate].
  - intros [= <-] H. apply app_eq_nil in H as [_ H]. discriminate H.
Qed.

Lemma fix_from_nonempty (gs : list (list Word)) :
  Forall (fun g => g <> []) (fix_from gs).
Proof.
  induction gs as [|g gs IH]; [constructor|].
  cbn [fix_from]. destruct (fix_group g (hd [] gs)) eqn:E; [|assumption].
  constructor; [eapply fix_group_nonempty; eassumption | assumption].
Qed.

Lemma apart_app (a b : list Word) :
  apart (a ++ b) ->
  forall x y, In x a -> In y b -> end_ x <= start y.
Proof.
  induction a as [|w a IH]; intros Hab x y Hx Hy; [contradiction|].
  destruct Hab as [Hw Ha]. destruct Hx as [<-|Hx].
  - rewrite Forall_forall in Hw. apply Hw. apply in_or_app. now right.
  - apply (IH Ha x y Hx Hy).
Qed.

Lemma apart_tail (a b : list Word) : apart (a ++ b) -> apart b.
Proof. induction a as [|w a IH]; [auto | intros [_ H]; auto]. Qed.

Lemma last_item_In (g : list Word) (l : Word) :
  Py.last_item g = Some l -> In l g.
Proof.
  destruct g as [|x g]; [discriminate|]. intros [= <-].
  destruct (exists_last (l := x :: g) ltac:(discriminate)) as (r & z & Hr).
  rewrite <- (last_cons_default g x x).
  rewrite Hr, last_last. apply in_or_app. right. now left.
Qed.

Lemma apart_groups (gs : list (list Word)) :
  apart (concat gs) -> groups_apart gs.
Proof.
  induction gs as [|g gs IH]; intro Ha; [exact I|].
  cbn [concat] in Ha. split; [|apply IH; eapply apart_tail; eassumption].
  destruct gs as [|g' gs]; [exact I|].
  intros l f Hl Hf. apply (apart_app _ _ Ha).
  - now apply last_item_In.
  - cbn [concat]. apply in_or_app. left.
    destruct g'; [discriminate|]. injection Hf as ->. now left.
Qed.

Lemma sorted_apart (l : list Word) :
  sorted_starts l -> no_overlap l -> apart l.
Proof.
  induction l as [|w l IH]; [intros; exact I|].
  intros [Hs Hsl] [Ho Hol]. split; [|auto].
  destruct l as [|n l]; [constructor|].
  assert (Hall : forall m, sorted_starts m ->
                 forall x, (match m with [] => True | y :: _ => x <= start y end) ->
                 Forall (fun y => x <= start y) m).
  { induction m as [|y m IHm]; [constructor|].
    intros [Hy Hm] x Hx. constructor; [assumption|].
    apply IHm; [assumption|]. destruct m; [exact I | lra]. }
  apply (Hall (n :: l) Hsl (end_ w) Ho).
Qed.

Lemma grouped_nonempty (gs : list (list Word)) :
  grouped gs -> Forall (fun g => g <> []) gs.
Proof.
  induction 1 as [|g Hg _|g w r gs Hg _ _ _ IH].
  - constructor.
  - constructor; [assumption | constructor].
  - constructor; assumption.
Qed.

(** X4.  On words in ascending order of start that do not overlap, the groups
    returned by [_group_words_into_sentences] are non-empty and the last
    word of each group ends before the first word of the next group
    starts. *)
Lemma group_words_into_sentences_apart (words : list Word) :
  sorted_starts words -> no_overlap words ->
  Forall (fun g => g <> []) (_group_words_into_sentences words)
  /\ groups_apart (_group_words_into_sentences words).
Proof.
  intros Hs Ho. unfold _group_words_into_sentences.
  destruct words as [|w ws] eqn:Hw; [split; [constructor | exact I]|].
  rewrite <- Hw in Hs, Ho.
  assert (Hg : grouped (group_words words)).
  { rewrite group_words_reading, Hw. cbn [split_groups should_break app].
    apply split_groups_grouped; [discriminate | apply unbroken_single]. }
  pose proof (grouped_nonempty _ Hg) as Hne.
  rewrite <- Hw. rewrite (fix_overlaps_reading _ Hne).
  split; [apply fix_from_nonempty|].
  apply apart_groups.
  apply (thinned_apart (concat (group_words words))); [apply fix_from_thinned|].
  rewrite group_words_reading, split_groups_concat. cbn [app].
  now apply sorted_apart.
Qed.

Lemma fix_group_keeps_opening (g next : list Word) :
  g <> [] ->
  (forall w n r, g = [w] -> next = n :: r -> break_condition [w] n) ->
  exists g', fix_group g next = Some g' /\ opening g' = opening g.
Proof.
  intros Hne Hbreak. unfold fix_group.
  destruct g as [|w0 g]; [congruence|].
  destruct next as [|n r]; [now exists (w0 :: g)|].
  destruct (py_ge_spec (end_ (last (w0 :: g) w0)) (start n)) as [Hge|_];
    [|now exists (w0 :: g)].
  cbv zeta. cbn [start end_ set_end].
  destruct g as [|x g].
  - cbn [last removelast app] in *.
    destruct (Hbreak w0 n r eq_refl eq_refl) as (f & Hf & Hc).
    injection Hf as <-. cbn [length last] in Hc.
    destruct (py_le_spec (start n - 0.05) (start w0)) as [Hle|_].
    + exfalso. destruct Hc as [Hc|[Hc|Hc]]; [lia | lra | lra].
    + eexists. split; reflexivity.
  - change (removelast (w0 :: x :: g)) with (w0 :: removelast (x :: g)).
    destruct (Py.le _ _); eexists; split; reflexivity.
Qed.

Lemma fix_from_keeps_openings (gs : list (list Word)) :
  grouped gs -> map opening (fix_from gs) = map opening gs.
Proof.
  induction 1 as [|g Hg _|g w r gs Hg _ Hb _ IH].
  - reflexivity.
  - cbn [fix_from hd].
    destruct (fix_group_keeps_opening g [] Hg) as (g' & -> & Ho);
      [discriminate|].
    cbn [map fix_from]. now rewrite Ho.
  - cbn [fix_from hd].
    destruct (fix_group_keeps_opening g (w :: r) Hg) as (g' & -> & Ho).
    + intros w1 n r1 -> [= <- <-]. exact Hb.
    + cbn [map]. rewrite Ho. f_equal. exact IH.
Qed.

(** The overlap fix keeps every group and the word that opens it. *)
Lemma group_words_into_sentences_openings (words : list Word) :
  map opening (_group_words_into_sentences words)
  = map opening (group_words words).
Proof.
  unfold _group_words_into_sentences.
  destruct words as [|w ws] eqn:Hw; [reflexivity|]. rewrite <- Hw.
  assert (Hg : grouped (group_words words)).
  { rewrite group_words_reading, Hw. cbn [split_groups should_break app].
    apply split_groups_grouped; [discriminate | apply unbroken_single]. }
  rewrite (fix_overlaps_reading _ (grouped_nonempty _ Hg)).
  now apply fix_from_keeps_openings.
Qed.

(** ** Grouping rule (C9) *)

(** C9. The grouping loop loses no word and keeps their order; its groups
    are non-empty; a group boundary lies exactly where the incoming word met
    a break condition against the group built so far (the group has 6 words
    or more, or the word starts more than 3.5s after the group's first
    start, or more than 0.8s after the group's last end), and that word is
    the first word of the next group; the overlap fix that follows keeps
    every group and the word that opens it.  Seven words 0.3s apart without
    gaps fall into the groups of words 1 to 6 and of word 7, and
    [_group_words_into_sentences] returns these two groups of words. *)
Theorem group_words_break_rule :
  (forall words,
      concat (group_words words) = words
      /\ grouped (group_words words)
      /\ map opening (_group_words_into_sentences words)
         = map opening (group_words words))
  /\ (forall g w, should_break g w = true <-> break_condition g w)
  /\ (forall w1 w2 w3 w4 w5 w6 w7,
        start w2 - start w1 == 0.3 /\ end_ w1 == start w2 ->
        start w3 - start w2 == 0.3 /\ end_ w2 == start w3 ->
        start w4 - start w3 == 0.3 /\ end_ w3 == start w4 ->
        start w5 - start w4 == 0.3 /\ end_ w4 == start w5 ->
        start w6 - start w5 == 0.3 /\ end_ w5 == start w6 ->
        start w7 - start w6 == 0.3 /\ end_ w6 == start w7 ->
        group_words [w1; w2; w3; w4; w5; w6; w7]
        = [[w1; w2; w3; w4; w5; w6]; [w7]])
  /\ map (map word) (_group_words_into_sentences seven_words)
     = [["w1"; "w2"; "w3"; "w4"; "w5"; "w6"]; ["w7"]]%string.
Proof.
  split; [|split; [|split; [|run]]].
  - intro words. split; [|split].
    + rewrite group_words_reading. apply (split_groups_concat words []).
    + rewrite group_words_reading.
      destruct words as [|w rest]; [constructor|].
      cbn [split_groups should_break app].
      apply split_groups_grouped; [discriminate | apply unbroken_single].
    + apply group_words_into_sentences_openings.
  - exact should_break_iff.
  - intros w1 w2 w3 w4 w5 w6 w7 [H1 G1] [H2 G2] [H3 G3] [H4 G4] [H5 G5] [H6 G6].
    rewrite group_words_reading.
    cbn [split_groups app]. change (should_break [] w1) with false. cbv iota.
    cbn [app].
    repeat (rewrite (no_break _ _ w1);
            [cbn [app] | reflexivity | cbn; lia | lra | cbn [last]; lra]).
    reflexivity.
Qed.

Lemma group_words_break_rule_witness :
  group_words seven_words
  = [ [ mkWord "w1" 0 0.3 None;   mkWord "w2" 0.3 0.6 None;
        mkWord "w3" 0.6 0.9 None; mkWord "w4" 0.9 1.2 None;
        mkWord "w5" 1.2 1.5 None; mkWord "w6" 1.5 1.8 None ];
      [ mkWord "w7" 1.8 2.1 None ] ].
Proof.
  destruct group_words_break_rule as (_ & _ & Hseven & _).
  apply Hseven; split; vm_compute; reflexivity.
Defined.

(** ** Overlap between groups (C4) *)

(** C4 (the code fails it).  When the truncated last word of a group is
    dropped, the word before it becomes the last one and is not checked:
    the groups [[w1 0-5; w2 3.5-4.5]; [w3 3.52-4]] become [[w1 0-5]; [w3]],
    and 5 > 3.52.  The same happens on an output of [optimize_timing] as
    [main_enterprise.py] runs it: of seven words the last three start
    together at 2.8; A and B come out as 2.8-3.1; B is truncated and
    dropped, and A 2.8-3.1 ends its group over C, which starts at 2.8. *)
Theorem fix_overlaps_leaves_overlap :
  (exists g1 g2 l f,
      _group_words_into_sentences
        [mkWord "w1" 0 5 None; mkWord "w2" 3.5 4.5 None; mkWord "w3" 3.52 4 None]
      = [g1; g2]
      /\ g1 = [mkWord "w1" 0 5 None]
      /\ g2 = [mkWord "w3" 3.52 4 None]
      /\ Py.last_item g1 = Some l /\ hd_error g2 = Some f
      /\ ~ end_ l <= start f)
  /\ (exists out g1 g2 l f,
        optimize_timing enterprise
          [mkWord "p1" 0 0.3 None; mkWord "p2" 0.7 1.0 None;
           mkWord "p3" 1.4 1.7 None; mkWord "p4" 2.1 2.4 None;
           mkWord "A" 2.8 3.0 None; mkWord "B" 2.8 3.0 None;
           mkWord "C" 2.8 3.0 None]
          None
        = Some out
        /\ _group_words_into_sentences out = [g1; g2]
        /\ map word g1 = ["p1"; "p2"; "p3"; "p4"; "A"]%string
        /\ map word g2 = ["C"]%string
        /\ Py.last_item g1 = Some l /\ hd_error g2 = Some f
        /\ end_ l == 3.1 /\ start f == 2.8
        /\ ~ end_ l <= start f).
Proof.
  split.
  - do 4 eexists. repeat (split; [run|]).
    intro H. vm_compute in H. apply H. reflexivity.
  - do 5 eexists. repeat (split; [run|]).
    intro H. vm_compute in H. apply H. reflexivity.
Qed.

(** ** Reading load (C10) *)

(** C10. On a non-empty list [estimate_reading_load] returns a record whose
    [words_per_second] is the number of active words over the span from the
    first start to the last end (0 when the span is not positive), whose
    difficulty is "Very Hard" above 3.5, "Hard" above 2.5, "Medium" above
    1.5 and "Easy" otherwise, and whose recommended minimum duration is 0.4
    above 2.5 words per second and 0.3 otherwise.  With 5 active words over
    a span of 2.3s the rate is 50/23 (about 2.17) and the difficulty is
    "Medium". *)
Theorem estimate_reading_load_classifies (words : list Word)
    (Hne : words <> []) :
  exists r first,
    estimate_reading_load words = Some r
    /\ hd_error words = Some first
    /\ total_duration r = end_ (last words first) - start first
    /\ AssBuilder.active_words r = length (filter is_active words)
    /\ words_per_second r
       = (if Py.gt (total_duration r) 0
          then of_nat (AssBuilder.active_words r) / total_duration r
          else 0)
    /\ (3.5 < words_per_second r -> reading_difficulty r = "Very Hard"%string)
    /\ (2.5 < words_per_second r <= 3.5 -> reading_difficulty r = "Hard"%string)
    /\ (1.5 < words_per_second r <= 2.5 -> reading_difficulty r = "Medium"%string)
    /\ (words_per_second r <= 1.5 -> reading_difficulty r = "Easy"%string)
    /\ (2.5 < words_per_second r -> recommended_min_duration r = 0.4)
    /\ (words_per_second r <= 2.5 -> recommended_min_duration r = 0.3)
    /\ (AssBuilder.active_words r = 5%nat -> total_duration r == 2.3 ->
        words_per_second r == 50 # 23
        /\ 2.17 < words_per_second r < 2.18
        /\ reading_difficulty r = "Medium"%string).
Proof.
  destruct words as [|first rest]; [congruence|].
  eexists. exists first.
  split; [reflexivity|].
  cbn [hd_error total_duration AssBuilder.active_words words_per_second
       reading_difficulty recommended_min_duration].
  set (total := end_ (last (first :: rest) first) - start first).
  set (n := length (filter is_active (first :: rest))).
  set (wps := if Py.gt total 0 then of_nat n / total else 0).
  repeat (split; [reflexivity|]).
  assert (Hlast : n = 5%nat -> total == 2.3 -> wps == 50 # 23).
  { intros Hn Ht. unfold wps.
    destruct (py_gt_spec total 0) as [Hpos|Hneg]; [|lra].
    rewrite Hn, Ht. reflexivity. }
  repeat split; intros;
    repeat match goal with
      | H : _ /\ _ |- _ => destruct H
      end;
    try (specialize (Hlast ltac:(assumption) ltac:(assumption)));
    py_cases; try reflexivity; try lra.
Qed.

Lemma estimate_reading_load_classifies_witness :
  five_active_words <> []
  /\ exists r,
       estimate_reading_load five_active_words = Some r
       /\ 2.17 < words_per_second r < 2.18
       /\ reading_difficulty r = "Medium"%string.
Proof.
  assert (Hne : five_active_words <> []) by discriminate.
  split; [exact Hne|].
  destruct (estimate_reading_load_classifies five_active_words Hne)
    as (r & first & Hr & _ & Htot & Hact & _ & _ & _ & _ & _ & _ & _ & Hfive).
  exists r. split; [exact Hr|].
  assert (H5 : AssBuilder.active_words r = 5%nat) by (rewrite Hact; reflexivity).
  assert (Hspan : total_duration r == 2.3).
  { injection Hr as <-. vm_compute. reflexivity. }
  destruct (Hfive H5 Hspan) as (_ & Hrate & Hmed).
  split; assumption.
Defined.

(** * Further properties *)

(** ** Sorting, and the phases one by one *)

Lemma insert_by_start_stable (s : Q) (w : Word) (l : list Word) :
  starting_at s (insert_by_start w l) = starting_at s (w :: l).
Proof.
  unfold starting_at.
  induction l as [|x l IH]; [reflexivity|].
  cbn [insert_by_start].
  destruct (py_le_spec (start w) (start x)) as [Hle|Hlt]; [reflexivity|].
  cbn [filter] in *. rewrite IH.
  destruct (Qeq_bool (start w) s) eqn:Ew; [|reflexivity].
  destruct (Qeq_bool (start x) s) eqn:Ex; [|reflexivity].
  apply Qeq_bool_iff in Ew, Ex. lra.
Qed.

(** X5.  [sorted(words_data, key=start)] as [optimize_timing] uses it: the
    result has the same words, in ascending order of start, and words
    that start together keep the order they had; a list that is already
    in order is returned as it is. *)
Theorem sorted_by_start_stable (l : list Word) :
  sorted_starts (sorted_by_start l)
  /\ Permutation l (sorted_by_start l)
  /\ (forall s, starting_at s (sorted_by_start l) = starting_at s l)
  /\ (sorted_starts l -> sorted_by_start l = l).
Proof.
  split; [apply sorted_by_start_sorted|].
  split; [apply sorted_by_start_perm|].
  split; [|apply sorted_by_start_fixed].
  intro s. induction l as [|w l IH]; [reflexivity|].
  cbn [sorted_by_start fold_right]. fold (sorted_by_start l).
  rewrite insert_by_start_stable. unfold starting_at in *.
  cbn [filter]. now rewrite IH.
Qed.

Section PhaseFacts.
Variable self : TimingOptimizer.

(** X6.  [_apply_minimum_durations] keeps texts, flags and starts, never moves
    an end earlier, leaves every word with its effective minimum duration
    or more, and changes nothing when run again. *)
Theorem apply_minimum_durations_post (words : list Word) :
  Forall2 (fun w o =>
             retimed w o /\ start o = start w /\ end_ w <= end_ o
             /\ min_dur self w <= end_ o - start o)
    words (_apply_minimum_durations self words)
  /\ _apply_minimum_durations self (_apply_minimum_durations self words)
     = _apply_minimum_durations self words.
Proof.
  split.
  - induction words as [|w r IH]; [constructor|].
    cbn [_apply_minimum_durations map]. constructor; [|exact IH].
    destruct (apply_minimum_duration_rule self w) as (Hk & Hs & Hd & He).
    rewrite Hs. auto.
  - unfold _apply_minimum_durations. rewrite map_map. apply map_ext.
    intro w. unfold apply_minimum_duration at 1.
    destruct (apply_minimum_duration_rule self w) as (Hk & Hs & Hd & _).
    rewrite (min_dur_retimed self _ _ Hk), Hs.
    destruct (py_lt_spec (end_ (apply_minimum_duration self w) - start w)
                (min_dur self w)); [lra | reflexivity].
Qed.

Lemma apply_maximum_duration_cap (w : Word) :
  retimed w (apply_maximum_duration self w)
  /\ start (apply_maximum_duration self w) = start w
  /\ end_ (apply_maximum_duration self w) <= end_ w
  /\ end_ (apply_maximum_duration self w) - start w <= max_duration self.
Proof.
  unfold apply_maximum_duration, retimed.
  destruct (py_gt_spec (end_ w - start w) (max_duration self));
    cbn [word start end_ active set_end]; repeat split; lra.
Qed.

(** X7.  [_apply_maximum_durations] keeps texts, flags and starts, never moves
    an end later, leaves no word longer than the maximum duration, and
    changes nothing when run again.  Run after [_apply_minimum_durations]
    it leaves each word whose effective minimum does not exceed the maximum
    with its effective minimum or more. *)
Theorem apply_maximum_durations_post (words : list Word) :
  Forall2 (fun w o =>
             retimed w o /\ start o = start w /\ end_ o <= end_ w
             /\ end_ o - start o <= max_duration self)
    words (_apply_maximum_durations self words)
  /\ _apply_maximum_durations self (_apply_maximum_durations self words)
     = _apply_maximum_durations self words
  /\ Forall2 (fun w o =>
                min_dur self w <= max_duration self ->
                min_dur self w <= end_ o - start o <= max_duration self)
       words
       (_apply_maximum_durations self (_apply_minimum_durations self words)).
Proof.
  split; [|split].
  - induction words as [|w r IH]; [constructor|].
    cbn [_apply_maximum_durations map]. constructor; [|exact IH].
    destruct (apply_maximum_duration_cap w) as (Hk & Hs & He & Hd).
    rewrite Hs. auto.
  - unfold _apply_maximum_durations. rewrite map_map. apply map_ext.
    intro w. unfold apply_maximum_duration at 1.
    destruct (apply_maximum_duration_cap w) as (_ & Hs & _ & Hd).
    rewrite Hs.
    destruct (py_gt_spec (end_ (apply_maximum_duration self w) - start w)
                (max_duration self)); [lra | reflexivity].
  - induction words as [|w r IH]; [constructor|].
    cbn [_apply_maximum_durations _apply_minimum_durations map].
    constructor; [|exact IH]. intro HM.
    destruct (apply_minimum_duration_rule self w) as (_ & Hs1 & Hd1 & _).
    assert (Hd1' : min_dur self w
                   <= end_ (apply_minimum_duration self w)
                      - start (apply_minimum_duration self w))
      by (rewrite Hs1; exact Hd1).
    destruct (apply_maximum_duration_rule self _ _ HM Hd1') as (_ & Hs2 & Hd2).
    destruct (apply_maximum_duration_cap (apply_minimum_duration self w))
      as (_ & _ & _ & Hcap).
    rewrite Hs2. split; assumption.
Qed.

End PhaseFacts.

(** X8.  [_validate_timing] changes nothing on words that have [end > start]
    and [start >= 0], and nothing when run again on its own result. *)
Theorem validate_timing_fixed (words : list Word) :
  (Forall well_timed words -> _validate_timing words = words)
  /\ _validate_timing (_validate_timing words) = _validate_timing words.
Proof.
  assert (H : forall l, Forall well_timed l -> _validate_timing l = l).
  { induction 1 as [|w l [He Hs] _ IH]; [reflexivity|].
    cbn [_validate_timing map]. rewrite validate_word_fixed by assumption.
    f_equal. exact IH. }
  split; [apply H|]. apply H. apply validate_timing_well_timed.
Qed.

Lemma validate_timing_fixed_witness :
  Forall well_timed [mkWord "a" 0 1 None; mkWord "b" 1 2 (Some false)]
  /\ _validate_timing [mkWord "a" 0 1 None; mkWord "b" 1 2 (Some false)]
     = [mkWord "a" 0 1 None; mkWord "b" 1 2 (Some false)].
Proof.
  assert (H : Forall well_timed [mkWord "a" 0 1 None; mkWord "b" 1 2 (Some false)]).
  { repeat constructor; vm_compute; (reflexivity || discriminate). }
  split; [exact H|].
  exact (proj1 (validate_timing_fixed _) H).
Defined.

(** ** The clamp phase *)

Lemma clamp_word_again (c : Q) (w w' : Word) :
  0 < c -> clamp_word c w = Some w' -> clamp_word c w' = Some w'.
Proof.
  intros Hc H.
  destruct (clamp_word_rule c w) as [_ Hr].
  destruct (Hr w' H) as (_ & He & Hs & Hshort & Hlong). specialize (Hs Hc).
  assert (Hfix : end_ w' - start w' < 0.1 -> start w' = Py.max 0 (end_ w' - 0.1)
                 /\ Py.max 0 (end_ w' - 0.1) = Py.max 0 (end_ w' - 0.1)).
  { intro Hlt. split; [|reflexivity].
    destruct (Qlt_le_dec (end_ w' - start w) 0.1) as [Hl|Hg].
    - exact (Hshort Hl).
    - rewrite (Hlong Hg) in Hlt. lra. }
  unfold clamp_word.
  destruct (py_gt_spec (end_ w') c); [lra|].
  destruct (py_ge_spec (start w') c); [lra|].
  destruct (py_lt_spec (end_ w' - start w') 0.1) as [Hlt|_]; [|reflexivity].
  destruct (Hfix Hlt) as [Hst _]. f_equal.
  destruct w' as [t s e a]. cbn [start end_ set_start] in *. now rewrite <- Hst.
Qed.

(** X9.  With a positive clip duration, [_clamp_to_clip_duration] keeps, in
    their order, exactly the words that start before the clip duration,
    and running it again on its result changes nothing. *)
Theorem clamp_to_clip_duration_keeps (words : list Word) (c : Q)
    (Hc : 0 < c) :
  Forall2 retimed
    (filter (fun w => Py.lt (start w) c) words)
    (_clamp_to_clip_duration words c)
  /\ _clamp_to_clip_duration (_clamp_to_clip_duration words c) c
     = _clamp_to_clip_duration words c.
Proof.
  split.
  - induction words as [|w r IH]; [constructor|].
    cbn [filter _clamp_to_clip_duration].
    destruct (clamp_word_rule c w) as [Hnone Hsome].
    destruct (clamp_word c w) as [w'|] eqn:Hw.
    + destruct (py_lt_spec (start w) c) as [_|Hge].
      * constructor; [|exact IH].
        clear - Hw. unfold clamp_word in Hw. unfold retimed.
        destruct (Py.gt (end_ w) c); cbn [start end_ set_end] in Hw;
          destruct (Py.ge (start w) c); try discriminate;
          destruct (Py.lt _ _); injection Hw as <-; split; reflexivity.
      * apply Hnone in Hge. congruence.
    + destruct (py_lt_spec (start w) c) as [Hlt|_]; [|exact IH].
      assert (Hn : c <= start w) by now apply Hnone. lra.
  - induction words as [|w r IH]; [reflexivity|].
    cbn [_clamp_to_clip_duration].
    destruct (clamp_word c w) as [w'|] eqn:Hw; [|exact IH].
    cbn [_clamp_to_clip_duration].
    rewrite (clamp_word_again c w w' Hc Hw). f_equal. exact IH.
Qed.

Lemma clamp_to_clip_duration_keeps_witness :
  0 < 1
  /\ _clamp_to_clip_duration
       [mkWord "a" 0 0.5 None; mkWord "b" 0.95 1.2 None; mkWord "c" 1 2 None] 1
     = [mkWord "a" 0 0.5 None; mkWord "b" 0.9 1 None].
Proof.
  split; [reflexivity|].
  pose proof (clamp_to_clip_duration_keeps
                [mkWord "a" 0 0.5 None; mkWord "b" 0.95 1.2 None;
                 mkWord "c" 1 2 None] 1 eq_refl) as [_ H].
  vm_compute. reflexivity.
Defined.

(** ** Merge, then overlap resolution *)

Section MergeResolve.
Variable self : TimingOptimizer.

Lemma merge_pairs_no_overlap (l : list Word) :
  0 <= gap_merge_threshold self -> no_overlap (merge_pairs self l).
Proof.
  intro Hthr. induction l as [|w r IH]; [exact I|].
  cbn [merge_pairs no_overlap]. split; [|exact IH].
  destruct r as [|n r]; [exact I|].
  cbn [merge_pairs hd_error]. rewrite !merge_word_at, start_merge_at.
  now apply merged_no_overlap.
Qed.

(** X10.  With a merge threshold of 0 or more, the result of [_merge_short_gaps]
    has no overlap, whatever the input, and [_resolve_overlaps] returns it
    unchanged: in [optimize_timing] the overlap loop then has nothing to
    do. *)
Theorem merge_short_gaps_leaves_no_overlap (words : list Word)
    (Hthr : 0 <= gap_merge_threshold self) :
  exists merged,
    _merge_short_gaps self words = Some merged
    /\ no_overlap merged
    /\ _resolve_overlaps self merged = Some merged.
Proof.
  exists (merge_pairs self words).
  split; [apply merge_short_gaps_reading|].
  split; [now apply merge_pairs_no_overlap|].
  rewrite resolve_overlaps_reading. f_equal. now apply resolve_merged.
Qed.

Lemma resolve_from_clear (l : list Word) :
  no_overlap l -> forall prev, resolve_from self prev l = l.
Proof.
  induction l as [|w r IH]; intros Hno prev; [reflexivity|].
  destruct Hno as [Hw Hr]. cbn [resolve_from].
  rewrite resolve_word_clear.
  - now rewrite IH.
  - intros n Hn. destruct r; [discriminate|]. injection Hn as <-. exact Hw.
Qed.

(** X11.  [_resolve_overlaps] returns a list without overlap between adjacent
    words as it is. *)
Theorem resolve_overlaps_identity (words : list Word) (Hno : no_overlap words) :
  _resolve_overlaps self words = Some words.
Proof.
  rewrite resolve_overlaps_reading. f_equal. now apply resolve_from_clear.
Qed.

(** X12.  When the last word [n] of the list starts before the word [w] before
    it ends, [_resolve_overlaps] cuts [w] and leaves [n] as it is, and the
    two still overlap exactly when the overlap was longer than 1/6 s: the
    cut takes 70% of the overlap and 50ms, and the start of [n] is not
    moved. *)
Theorem resolve_overlaps_residual (pre : list Word) (w n : Word)
    (Hover : start n < end_ w) :
  exists rpre w',
    _resolve_overlaps self (pre ++ [w; n]) = Some (rpre ++ [w'; n])
    /\ length rpre = length pre
    /\ end_ w' = start n + (end_ w - start n) * 0.3 - 0.05
    /\ (start n < end_ w' <-> 1 # 6 < end_ w - start n).
Proof.
  rewrite resolve_overlaps_reading.
  destruct (resolve_from_app self pre None w [n]) as (rpre & Heq & Hlen).
  rewrite Heq. cbn [resolve_from hd_error resolve_word].
  set (w' := resolve_word self (last_or None rpre) w (Some n)).
  exists rpre, w'. split; [reflexivity|]. split; [exact Hlen|].
  assert (He : end_ w' = start n + (end_ w - start n) * 0.3 - 0.05).
  { unfold w', resolve_word.
    destruct (py_gt_spec (end_ w) (start n)) as [_|H]; [|lra].
    cbn [start end_ set_end].
    destruct (Py.lt _ _); [|reflexivity].
    destruct (last_or None rpre); reflexivity. }
  split; [exact He|]. rewrite He. split; intro; lra.
Qed.

End MergeResolve.

Lemma merge_short_gaps_leaves_no_overlap_witness :
  0 <= gap_merge_threshold enterprise
  /\ exists merged,
       _merge_short_gaps enterprise
         [mkWord "a" 0 2 None; mkWord "b" 1 3 None; mkWord "c" 1.5 2 None]
       = Some merged
       /\ no_overlap merged.
Proof.
  assert (H : 0 <= gap_merge_threshold enterprise) by (vm_compute; discriminate).
  split; [exact H|].
  destruct (merge_short_gaps_leaves_no_overlap enterprise
              [mkWord "a" 0 2 None; mkWord "b" 1 3 None; mkWord "c" 1.5 2 None] H)
    as (m & Hm & Hno & _).
  exists m. split; assumption.
Defined.

Lemma resolve_overlaps_identity_witness :
  no_overlap [mkWord "a" 0 1 None; mkWord "b" 1 3 None]
  /\ _resolve_overlaps default [mkWord "a" 0 1 None; mkWord "b" 1 3 None]
     = Some [mkWord "a" 0 1 None; mkWord "b" 1 3 None].
Proof.
  assert (H : no_overlap [mkWord "a" 0 1 None; mkWord "b" 1 3 None]).
  { split; [vm_compute; discriminate | split; exact I]. }
  split; [exact H|]. exact (resolve_overlaps_identity default _ H).
Defined.

Lemma resolve_overlaps_residual_witness :
  let w := mkWord "w" 0 2 None in
  let n := mkWord "n" 1 3 None in
  start n < end_ w
  /\ exists rpre w',
       _resolve_overlaps default ([] ++ [w; n]) = Some (rpre ++ [w'; n])
       /\ start n < end_ w'.
Proof.
  intros w n. assert (H : start n < end_ w) by reflexivity.
  split; [exact H|].
  destruct (resolve_overlaps_residual default [] w n H)
    as (rpre & w' & Hr & _ & _ & Hiff).
  exists rpre, w'. split; [exact Hr|]. apply Hiff. reflexivity.
Defined.

Lemma merge_short_gaps_identity_witness :
  _merge_short_gaps (mkOptimizer 0.45 1.5 (-1) 0.2)
    [mkWord "a" 0 1 None; mkWord "b" 1 2 None]
  = Some [mkWord "a" 0 1 None; mkWord "b" 1 2 None].
Proof.
  apply (merge_short_gaps_identity (mkOptimizer 0.45 1.5 (-1) 0.2)).
  - reflexivity.
  - vm_compute. repeat split; discriminate.
Defined.

Lemma optimize_timing_no_overlap_without_clip_witness :
  exists out,
    optimize_timing default
      [mkWord "a" 0 0.2 None; mkWord "b" 0.3 0.5 (Some true)] None = Some out
    /\ no_overlap out.
Proof.
  apply (optimize_timing_no_overlap_without_clip default).
  - vm_compute; discriminate.
  - reflexivity.
  - vm_compute; discriminate.
  - reflexivity.
  - repeat constructor; vm_compute; discriminate.
  - vm_compute. repeat split; reflexivity.
Defined.

(** ** The whole of [optimize_timing] *)

Lemma retimed_refl (w : Word) : retimed w w.
Proof. split; reflexivity. Qed.

Lemma Forall2_retimed_trans (a b c : list Word) :
  Forall2 retimed a b -> Forall2 retimed b c -> Forall2 retimed a c.
Proof.
  intro H. revert c. induction H as [|x y a b Hxy _ IH]; intros c Hbc;
    inversion Hbc; subst; constructor; [|auto].
  unfold retimed in *. intuition congruence.
Qed.

Lemma Forall2_retimed_words (a b : list Word) :
  Forall2 retimed a b -> map word a = map word b.
Proof.
  induction 1 as [|x y a b [Hxy _] _ IH]; [reflexivity|].
  cbn [map]. now rewrite Hxy, IH.
Qed.

Lemma Forall2_kept (R : Word -> Word -> Prop) (l l' : list Word) :
  Forall2 R l l' -> kept R l l'.
Proof. induction 1; constructor; assumption. Qed.

Lemma kept_after_retimed (a b c : list Word) :
  Forall2 retimed a b -> kept retimed b c -> kept retimed a c.
Proof.
  intro H. revert c. induction H as [|x y a b Hxy _ IH]; intros c Hbc;
    inversion Hbc; subst.
  - constructor.
  - constructor; [|auto]. unfold retimed in *. intuition congruence.
  - apply kept_drop. auto.
Qed.

Lemma kept_then_retimed (a b c : list Word) :
  kept retimed a b -> Forall2 retimed b c -> kept retimed a c.
Proof.
  intro H. revert c. induction H as [|x y a b Hxy _ IH|x a b _ IH]; intros c Hbc.
  - inversion Hbc. constructor.
  - inversion Hbc; subst. constructor; [|auto].
    unfold retimed in *. intuition congruence.
  - apply kept_drop. auto.
Qed.

Lemma retimed_set_end (w : Word) (v : Q) : retimed w (set_end w v).
Proof. split; reflexivity. Qed.

Lemma retimed_set_start (w : Word) (v : Q) : retimed w (set_start w v).
Proof. split; reflexivity. Qed.

Section KeepsWords.
Variable self : TimingOptimizer.

Lemma apply_minimum_retimed (w : Word) : retimed w (apply_minimum_duration self w).
Proof.
  unfold apply_minimum_duration. destruct (Py.lt _ _);
    [apply retimed_set_end | apply retimed_refl].
Qed.

Lemma apply_maximum_retimed (w : Word) : retimed w (apply_maximum_duration self w).
Proof.
  unfold apply_maximum_duration. destruct (Py.gt _ _);
    [apply retimed_set_end | apply retimed_refl].
Qed.

Lemma validate_word_retimed (w : Word) : retimed w (validate_word w).
Proof.
  unfold validate_word.
  destruct (Py.le _ _); cbn [start end_ set_end];
    destruct (Py.lt _ _); split; reflexivity.
Qed.

Lemma merge_word_retimed (w : Word) (next : option Word) :
  retimed w (merge_word self w next).
Proof.
  unfold merge_word. destruct next as [n|]; [|apply retimed_refl].
  destruct (Py.le _ _); [apply retimed_set_end | apply retimed_refl].
Qed.

Lemma resolve_word_retimed (prev : option Word) (w : Word) (next : option Word) :
  retimed w (resolve_word self prev w next).
Proof.
  unfold resolve_word. destruct next as [n|]; [|apply retimed_refl].
  destruct (Py.gt _ _); [|apply retimed_refl].
  cbv zeta. destruct (Py.lt _ _); [|apply retimed_set_end].
  destruct prev; split; reflexivity.
Qed.

Lemma map_retimed (f : Word -> Word) (l : list Word) :
  (forall w, retimed w (f w)) -> Forall2 retimed l (map f l).
Proof. intro Hf. induction l; constructor; auto. Qed.

Lemma merge_pairs_retimed (l : list Word) : Forall2 retimed l (merge_pairs self l).
Proof.
  induction l as [|w r IH]; constructor; [apply merge_word_retimed | exact IH].
Qed.

Lemma resolve_from_retimed (l : list Word) (prev : option Word) :
  Forall2 retimed l (resolve_from self prev l).
Proof.
  revert prev. induction l as [|w r IH]; intro prev; constructor;
    [apply resolve_word_retimed | apply IH].
Qed.

Lemma before_clip_retimed (l : list Word) : Forall2 retimed l (before_clip self l).
Proof.
  unfold before_clip.
  eapply Forall2_retimed_trans; [apply (map_retimed _ _ apply_minimum_retimed)|].
  eapply Forall2_retimed_trans; [apply merge_pairs_retimed|].
  eapply Forall2_retimed_trans; [apply resolve_from_retimed|].
  apply (map_retimed _ _ apply_maximum_retimed).
Qed.

Lemma clamp_kept (l : list Word) (c : Q) :
  kept retimed l (_clamp_to_clip_duration l c).
Proof.
  induction l as [|w r IH]; [constructor|].
  cbn [_clamp_to_clip_duration].
  destruct (clamp_word c w) as [w'|] eqn:Hw; [|now apply kept_drop].
  constructor; [|exact IH].
  unfold clamp_word in Hw.
  destruct (Py.gt (end_ w) c); cbn [start end_ set_end] in Hw;
    destruct (Py.ge (start w) c); try discriminate;
    destruct (Py.lt _ _); injection Hw as <-; split; reflexivity.
Qed.

(** X13.  [optimize_timing] returns the words of its input in ascending order
    of their input start, each with its text and active flag: it never
    adds, repeats or reorders a word, and it drops words only in the clip
    clamp.  When the clamp does not run (no clip duration, or one of 0),
    the result has every input word once. *)
Theorem optimize_timing_keeps_words (words_data : list Word)
    (clip_duration : option Q) :
  exists out,
    optimize_timing self words_data clip_duration = Some out
    /\ kept retimed (sorted_by_start words_data) out
    /\ (Py.truthy clip_duration = false ->
        Forall2 retimed (sorted_by_start words_data) out
        /\ Permutation (map word words_data) (map word out)).
Proof.
  eexists. split; [apply optimize_timing_reading|].
  pose proof (before_clip_retimed (sorted_by_start words_data)) as Hb.
  pose proof (fun l => map_retimed validate_word l validate_word_retimed) as Hv.
  split.
  - apply (kept_then_retimed _
             (clip_phase clip_duration
                (before_clip self (sorted_by_start words_data)))); [|apply Hv].
    apply (kept_after_retimed _ _ _ Hb).
    assert (Hid : forall l, kept retimed l l)
      by (induction l; constructor; [apply retimed_refl | assumption]).
    unfold clip_phase. destruct (Py.truthy clip_duration); [|apply Hid].
    destruct clip_duration as [c|]; [apply clamp_kept | apply Hid].
  - intro Hno. unfold clip_phase. rewrite Hno.
    assert (H2 : Forall2 retimed (sorted_by_start words_data)
                   (_validate_timing (before_clip self (sorted_by_start words_data))))
      by (eapply Forall2_retimed_trans; [exact Hb | apply Hv]).
    split; [exact H2|].
    rewrite (sorted_by_start_perm words_data) at 1.
    now rewrite (Forall2_retimed_words _ _ H2).
Qed.

(** X14.  Without a clip, with a merge threshold of 0 or more and words that
    start at 0 or later, [optimize_timing] changes ends only: the starts
    of its result are the starts of the input in ascending order. *)
Theorem optimize_timing_keeps_starts (words_data : list Word)
    (Hthr : 0 <= gap_merge_threshold self)
    (Hpos : Forall (fun w => 0 <= start w) words_data) :
  exists out,
    optimize_timing self words_data None = Some out
    /\ map start out = map start (sorted_by_start words_data)
    /\ sorted_starts out.
Proof.
  exists (settle_all self (sorted_by_start words_data)).
  split; [now apply optimize_timing_settles|].
  assert (Hst : map start (settle_all self (sorted_by_start words_data))
                = map start (sorted_by_start words_data))
    by (apply settle_all_starts; now apply sorted_by_start_Forall).
  split; [exact Hst|].
  apply (sorted_starts_map (sorted_by_start words_data));
    [now rewrite Hst | apply sorted_by_start_sorted].
Qed.

End KeepsWords.

Lemma optimize_timing_keeps_starts_witness :
  0 <= gap_merge_threshold enterprise
  /\ Forall (fun w => 0 <= start w)
       [mkWord "b" 2 2.1 None; mkWord "a" 0 3 (Some true)]
  /\ exists out,
       optimize_timing enterprise
         [mkWord "b" 2 2.1 None; mkWord "a" 0 3 (Some true)] None = Some out
       /\ map start out = [0; 2].
Proof.
  assert (Hthr : 0 <= gap_merge_threshold enterprise) by (vm_compute; discriminate).
  assert (Hpos : Forall (fun w => 0 <= start w)
                   [mkWord "b" 2 2.1 None; mkWord "a" 0 3 (Some true)]).
  { repeat constructor; vm_compute; discriminate. }
  split; [exact Hthr|]. split; [exact Hpos|].
  destruct (optimize_timing_keeps_starts enterprise _ Hthr Hpos)
    as (out & Hout & Hst & _).
  exists out. split; [exact Hout|]. exact Hst.
Defined.

Section WithinMaximum.
Variable self : TimingOptimizer.

Lemma before_clip_within_maximum (l : list Word) :
  Forall (fun w => end_ w - start w <= max_duration self) (before_clip self l).
Proof.
  unfold before_clip, _apply_maximum_durations.
  apply Forall_map, Forall_forall. intros w _.
  destruct (apply_maximum_duration_cap self w) as (_ & Hs & _ & Hd).
  now rewrite Hs.
Qed.

Lemma clamp_word_within (c b : Q) (w w' : Word) :
  0.1 <= b -> end_ w - start w <= b ->
  clamp_word c w = Some w' -> end_ w' - start w' <= b.
Proof.
  intros Hb Hd H. destruct (clamp_word_rule c w) as [_ Hr].
  destruct (Hr w' H) as (He & _ & _ & Hshort & Hlong).
  assert (Hend : end_ w' <= end_ w).
  { rewrite He. destruct (py_gt_spec (end_ w) c); lra. }
  destruct (Qlt_le_dec (end_ w' - start w) 0.1) as [Hlt|Hge].
  - rewrite (Hshort Hlt). py_max_cases; lra.
  - rewrite (Hlong Hge). lra.
Qed.

Lemma validate_word_within (b : Q) (w : Word) :
  0.3 <= b -> end_ w - start w <= b ->
  end_ (validate_word w) - start (validate_word w) <= b.
Proof.
  intros Hb Hd. unfold validate_word.
  destruct (py_le_spec (end_ w) (start w)); cbn [start end_ set_end];
    match goal with
    | |- context [Py.lt ?a 0] => destruct (py_lt_spec a 0)
    end;
    cbn [start end_ set_end set_start]; py_max_cases; lra.
Qed.

(** X15.  Whatever the input, the optimizer and the clip, no word of the result
    of [optimize_timing] lasts longer than the maximum duration or, when
    that is smaller, than the 0.3s of a repaired word: the merge, the
    overlap resolution, the clamp and the validation that follow the
    minimum duration never lengthen a word beyond it. *)
Theorem optimize_timing_within_maximum (words_data : list Word)
    (clip_duration : option Q) :
  exists out,
    optimize_timing self words_data clip_duration = Some out
    /\ Forall (fun w => end_ w - start w <= Py.max (max_duration self) 0.3) out
    /\ (0.3 <= max_duration self ->
        Forall (fun w => end_ w - start w <= max_duration self) out).
Proof.
  eexists. split; [apply optimize_timing_reading|].
  set (l := before_clip self (sorted_by_start words_data)).
  assert (Hall : forall b, max_duration self <= b -> 0.3 <= b ->
            Forall (fun w => end_ w - start w <= b)
              (_validate_timing (clip_phase clip_duration l))).
  { intros b HM Hb.
    assert (Hl : Forall (fun w => end_ w - start w <= b) l).
    { eapply Forall_impl; [|apply before_clip_within_maximum].
      cbn beta. intros; lra. }
    assert (Hc : Forall (fun w => end_ w - start w <= b)
                   (clip_phase clip_duration l)).
    { unfold clip_phase. destruct (Py.truthy clip_duration); [|exact Hl].
      destruct clip_duration as [c|]; [|exact Hl].
      apply Forall_forall. intros w' Hin.
      apply clamp_In in Hin as (w & Hw & Hcl).
      rewrite Forall_forall in Hl.
      apply (clamp_word_within c b w w'); [lra | auto | exact Hcl]. }
    unfold _validate_timing. apply Forall_map.
    eapply Forall_impl; [|exact Hc]. cbn beta.
    intros w. now apply validate_word_within. }
  split.
  - apply Hall; [apply py_max_l | apply py_max_r].
  - intro HM. apply Hall; lra.
Qed.

End WithinMaximum.

(** ** Timing statistics and reading speed *)

Lemma gap_fold (words : list Word) :
  forall suf pre p acc,
    words = pre ++ p :: suf ->
    fold_left (Stats.gap_step words) (seq (length pre) (length suf)) (Some acc)
    = Some (acc ++ gaps_of (p :: suf)).
Proof.
  induction suf as [|x suf IH]; intros pre p acc Hw; cbn [length seq fold_left].
  - cbn [gaps_of]. now rewrite app_nil_r.
  - assert (Hstep : Stats.gap_step words (Some acc) (length pre)
                    = Some (acc ++ [start x - end_ p])).
    { unfold Stats.gap_step. cbn [Py.bind].
      replace (Py.index words (length pre + 1)) with (Some x).
      2:{ rewrite Hw. replace (pre ++ p :: x :: suf) with ((pre ++ [p]) ++ x :: suf)
            by now rewrite <- app_assoc.
          replace (length pre + 1)%nat with (length (pre ++ [p]))
            by (rewrite length_app; reflexivity).
          now rewrite index_middle. }
      cbn [Py.bind]. rewrite Hw at 1. rewrite index_middle. reflexivity. }
    rewrite Hstep.
    specialize (IH (pre ++ [p]) x (acc ++ [start x - end_ p])).
    rewrite length_app, Nat.add_1_r in IH.
    rewrite IH by (rewrite Hw, <- app_assoc; reflexivity).
    rewrite <- app_assoc. reflexivity.
Qed.

Lemma gap_loop_reading (words : list Word) :
  fold_left (Stats.gap_step words) (seq 0 (length words - 1)) (Some [])
  = Some (gaps_of words).
Proof.
  destruct words as [|w r]; [reflexivity|].
  replace (length (w :: r) - 1)%nat with (length r) by (simpl; lia).
  exact (gap_fold (w :: r) r [] w [] eq_refl).
Qed.

Lemma length_gaps_of (words : list Word) :
  length (gaps_of words) = (length words - 1)%nat.
Proof.
  induction words as [|w [|n r] IH]; try reflexivity.
  change (gaps_of (w :: n :: r)) with ((start n - end_ w) :: gaps_of (n :: r)).
  cbn [length] in *. lia.
Qed.

Lemma min_fold_le (r : list Q) (x : Q) :
  let m := fold_left (fun m y => if Py.lt y m then y else m) r x in
  m <= x /\ Forall (fun y => m <= y) r /\ In m (x :: r).
Proof.
  revert x. induction r as [|y r IH]; intro x; cbn [fold_left].
  - split; [lra|]. split; [constructor | now left].
  - destruct (py_lt_spec y x) as [Hlt|Hge].
    + destruct (IH y) as (H1 & H2 & H3). cbv zeta.
      split; [lra|]. split; [constructor; assumption|]. now right.
    + destruct (IH x) as (H1 & H2 & H3). cbv zeta.
      split; [lra|]. split; [constructor; [lra | assumption]|].
      destruct H3 as [H3|H3]; [now left | right; now right].
Qed.

Lemma max_fold_ge (r : list Q) (x : Q) :
  let m := fold_left (fun m y => if Py.gt y m then y else m) r x in
  x <= m /\ Forall (fun y => y <= m) r /\ In m (x :: r).
Proof.
  revert x. induction r as [|y r IH]; intro x; cbn [fold_left].
  - split; [lra|]. split; [constructor | now left].
  - destruct (py_gt_spec y x) as [Hlt|Hge].
    + destruct (IH y) as (H1 & H2 & H3). cbv zeta.
      split; [lra|]. split; [constructor; assumption|]. now right.
    + destruct (IH x) as (H1 & H2 & H3). cbv zeta.
      split; [lra|]. split; [constructor; [lra | assumption]|].
      destruct H3 as [H3|H3]; [now left | right; now right].
Qed.

Lemma min_list_spec (l : list Q) (m : Q) :
  Stats.min_list l = Some m -> Forall (fun y => m <= y) l /\ In m l.
Proof.
  destruct l as [|x r]; [discriminate|]. intros [= <-].
  destruct (min_fold_le r x) as (H1 & H2 & H3).
  split; [constructor; assumption | exact H3].
Qed.

Lemma max_list_spec (l : list Q) (m : Q) :
  Stats.max_list l = Some m -> Forall (fun y => y <= m) l /\ In m l.
Proof.
  destruct l as [|x r]; [discriminate|]. intros [= <-].
  destruct (max_fold_ge r x) as (H1 & H2 & H3).
  split; [constructor; assumption | exact H3].
Qed.

Lemma insert_perm (x : Q) (l : list Q) : Permutation (x :: l) (Stats.insert x l).
Proof.
  induction l as [|y r IH]; cbn [Stats.insert]; [reflexivity|].
  destruct (Py.le x y); [reflexivity|].
  rewrite perm_swap. now apply perm_skip.
Qed.

Lemma sorted_perm (l : list Q) : Permutation l (Stats.sorted l).
Proof.
  induction l as [|x l IH]; [reflexivity|].
  cbn [Stats.sorted fold_right]. fold (Stats.sorted l).
  rewrite <- insert_perm. now apply perm_skip.
Qed.

Lemma sum_from (l : list Q) (a : Q) : fold_left Qplus l a == a + sum l.
Proof.
  unfold sum. revert a. induction l as [|x l IH]; intro a; cbn [fold_left].
  - lra.
  - rewrite (IH (a + x)), (IH (0 + x)). lra.
Qed.

Lemma sum_cons (x : Q) (l : list Q) : sum (x :: l) == x + sum l.
Proof. unfold sum at 1. cbn [fold_left]. rewrite sum_from. lra. Qed.

Lemma sum_bounds (l : list Q) (lo hi : Q) :
  Forall (fun y => lo <= y <= hi) l ->
  of_nat (length l) * lo <= sum l <= of_nat (length l) * hi.
Proof.
  induction 1 as [|x l Hx _ IH].
  - unfold sum, of_nat. cbn [length fold_left Z.of_nat].
    change (inject_Z 0) with 0. lra.
  - rewrite sum_cons. unfold of_nat in *. cbn [length].
    rewrite Znat.Nat2Z.inj_succ. unfold Z.succ. rewrite inject_Z_plus.
    change (inject_Z 1) with 1. lra.
Qed.

Lemma of_nat_pos (n : nat) : (0 < n)%nat -> 0 < of_nat n.
Proof.
  intro H. unfold of_nat. change 0 with (inject_Z 0).
  rewrite <- Zlt_Qlt. lia.
Qed.

Lemma truediv_pos (a b : Q) : 0 < b -> Stats.truediv a b = Some (a / b).
Proof.
  intro H. unfold Stats.truediv.
  destruct (Qeq_bool b 0) eqn:E; [|reflexivity].
  apply Qeq_bool_eq in E. lra.
Qed.

(** The sum of the gaps and of the durations is the time from the first
    start to the last end. *)
Lemma span_telescopes (w : Word) (r : list Word) :
  end_ (last r w) - start w
  == sum (durations_of (w :: r)) + sum (gaps_of (w :: r)).
Proof.
  revert w. induction r as [|n r IH]; intro w.
  - cbn [last durations_of map gaps_of]. rewrite sum_cons. unfold sum. cbn. lra.
  - rewrite (last_cons_default r n w).
    change (durations_of (w :: n :: r))
      with ((end_ w - start w) :: durations_of (n :: r)).
    change (gaps_of (w :: n :: r)) with ((start n - end_ w) :: gaps_of (n :: r)).
    rewrite !sum_cons. specialize (IH n). lra.
Qed.

(** What [get_timing_stats] returns for a non-empty list: no lookup or
    division of the function fails. *)
Lemma get_timing_stats_reading (w : Word) (r : list Word) :
  let words := w :: r in
  exists dmin dmax dmedian gmin gmax gavg,
    Stats.get_timing_stats words
    = Some (Some (Stats.mkTimingStats
                    (length words)
                    (Stats.mkDurationStats dmin dmax
                       (sum (durations_of words) / of_nat (length words))
                       dmedian)
                    (Stats.mkGapStats gmin gmax gavg
                       (length (filter (fun g => Py.lt g 0) (gaps_of words))))
                    (Stats.mkTimingRange (start w) (end_ (last r w))
                       (end_ (last r w) - start w))))
    /\ Stats.min_list (durations_of words) = Some dmin
    /\ Stats.max_list (durations_of words) = Some dmax
    /\ In dmedian (durations_of words)
    /\ match gaps_of words with
       | [] => gmin = 0 /\ gmax = 0 /\ gavg = 0
       | gaps => Stats.min_list gaps = Some gmin
                 /\ Stats.max_list gaps = Some gmax
                 /\ gavg = sum gaps / of_nat (length gaps)
       end.
Proof.
  intro words.
  destruct (Stats.min_list (durations_of words)) as [dmin|] eqn:Hmin;
    [|discriminate].
  destruct (Stats.max_list (durations_of words)) as [dmax|] eqn:Hmax;
    [|discriminate].
  assert (Hlen : length (durations_of words) = length words)
    by apply length_map.
  destruct (Py.index (Stats.sorted (durations_of words))
              (length (durations_of words) / 2)) as [dmed|] eqn:Hmed.
  2:{ exfalso. unfold Py.index in Hmed. apply nth_error_None in Hmed.
      rewrite <- (Permutation_length (sorted_perm _)), Hlen in Hmed.
      assert (length words / 2 < length words)%nat
        by (apply Nat.div_lt; [cbn; lia | lia]).
      lia. }
  assert (Hin : In dmed (durations_of words)).
  { apply (Permutation_in _ (Permutation_sym (sorted_perm _))).
    exact (nth_error_In _ _ Hmed). }
  assert (Hdiv : Stats.truediv (sum (durations_of words))
                   (of_nat (length (durations_of words)))
                 = Some (sum (durations_of words) / of_nat (length words))).
  { rewrite Hlen. apply truediv_pos, of_nat_pos. cbn. lia. }
  assert (Hrun : forall gmin gmax gavg,
             match gaps_of words with [] => Some 0 | _ => Stats.min_list (gaps_of words) end
             = Some gmin ->
             match gaps_of words with [] => Some 0 | _ => Stats.max_list (gaps_of words) end
             = Some gmax ->
             match gaps_of words with
             | [] => Some 0
             | _ => Stats.truediv (sum (gaps_of words)) (of_nat (length (gaps_of words)))
             end = Some gavg ->
             Stats.get_timing_stats words
             = Some (Some (Stats.mkTimingStats
                    (length words)
                    (Stats.mkDurationStats dmin dmax
                       (sum (durations_of words) / of_nat (length words))
                       dmed)
                    (Stats.mkGapStats gmin gmax gavg
                       (length (filter (fun g => Py.lt g 0) (gaps_of words))))
                    (Stats.mkTimingRange (start w) (end_ (last r w))
                       (end_ (last r w) - start w))))).
  { intros gmin gmax gavg H1 H2 H3. unfold Stats.get_timing_stats, words.
    fold words. rewrite gap_loop_reading. cbn [Py.bind].
    fold (durations_of words). rewrite Hmin, Hmax, Hdiv, Hmed. cbn [Py.bind].
    rewrite H1, H2, H3. reflexivity. }
  destruct (gaps_of words) as [|g gs] eqn:Hg.
  - exists dmin, dmax, dmed, 0, 0, 0.
    split; [now apply Hrun|]. repeat split; assumption || reflexivity.
  - destruct (Stats.min_list (g :: gs)) as [gmin|] eqn:Hgmin; [|discriminate].
    destruct (Stats.max_list (g :: gs)) as [gmax|] eqn:Hgmax; [|discriminate].
    exists dmin, dmax, dmed, gmin, gmax, (sum (g :: gs) / of_nat (length (g :: gs))).
    split.
    + apply Hrun; reflexivity.
    + repeat split; assumption || reflexivity.
Qed.

Lemma negative_gaps_no_overlap (words : list Word) :
  length (filter (fun g => Py.lt g 0) (gaps_of words)) = 0%nat
  <-> no_overlap words.
Proof.
  induction words as [|w [|n r] IH].
  - cbn. tauto.
  - cbn. tauto.
  - change (gaps_of (w :: n :: r)) with ((start n - end_ w) :: gaps_of (n :: r)).
    change (no_overlap (w :: n :: r))
      with (end_ w <= start n /\ no_overlap (n :: r)).
    cbn [filter].
    destruct (py_lt_spec (start n - end_ w) 0) as [Hlt|Hge].
    + cbn [length]. split; [discriminate | intros [H _]; lra].
    + rewrite IH. split; [intro; split; [lra | assumption] | tauto].
Qed.

(** X16.  [get_timing_stats] raises for no list and returns the empty dict for
    the empty list only; the count [negative_gaps] of its result is 0
    exactly when no two adjacent words overlap, and then the smallest gap
    it reports is 0 or more. *)
Theorem get_timing_stats_negative_gaps (words : list Word) :
  exists result,
    Stats.get_timing_stats words = Some result
    /\ (result = None <-> words = [])
    /\ forall s, result = Some s ->
         Stats.total_words s = length words
         /\ (Stats.negative_gaps (Stats.gap_stats s) = 0%nat <-> no_overlap words)
         /\ (no_overlap words -> 0 <= Stats.gap_min (Stats.gap_stats s)).
Proof.
  destruct words as [|w r].
  - exists None. split; [reflexivity|]. split; [tauto | discriminate].
  - destruct (get_timing_stats_reading w r)
      as (dmin & dmax & dmed & gmin & gmax & gavg & Hrun & _ & _ & _ & Hgaps).
    eexists. split; [exact Hrun|]. split; [split; discriminate|].
    intros s [= <-]. cbn [Stats.total_words Stats.gap_stats Stats.negative_gaps
                           Stats.gap_min].
    split; [reflexivity|].
    split; [exact (negative_gaps_no_overlap (w :: r))|].
    intro Hno. apply (proj2 (negative_gaps_no_overlap (w :: r))) in Hno.
    destruct (gaps_of (w :: r)) as [|g gs] eqn:Hg.
    + destruct Hgaps as (-> & _). lra.
    + destruct Hgaps as (Hmin & _).
      apply min_list_spec in Hmin as [_ Hin].
      assert (Hall : Forall (fun g => 0 <= g) (g :: gs)).
      { clear - Hno. induction (g :: gs) as [|x l IH]; [constructor|].
        cbn [filter] in Hno.
        destruct (py_lt_spec x 0); [discriminate|]. constructor; auto. }
      rewrite Forall_forall in Hall. auto.
Qed.

(** X17.  In the duration statistics of [get_timing_stats] every word's duration
    lies between [min] and [max], and so do the average and the median;
    the time from the first start to the last end, [total_duration], is
    the sum of all durations and all gaps. *)
Theorem get_timing_stats_durations (words : list Word) (s : Stats.TimingStats)
    (Hrun : Stats.get_timing_stats words = Some (Some s)) :
  let d := Stats.duration_stats s in
  Forall (fun w => Stats.duration_min d <= end_ w - start w <= Stats.duration_max d)
    words
  /\ Stats.duration_min d <= Stats.duration_avg d <= Stats.duration_max d
  /\ Stats.duration_min d <= Stats.duration_median d <= Stats.duration_max d
  /\ Stats.range_total_duration (Stats.timing_range s)
     == of_nat (length words) * Stats.duration_avg d
        + of_nat (length words - 1) * Stats.gap_avg (Stats.gap_stats s).
Proof.
  destruct words as [|w r]; [discriminate|].
  destruct (get_timing_stats_reading w r)
    as (dmin & dmax & dmed & gmin & gmax & gavg & Hrd & Hmin & Hmax & Hmed & Hgaps).
  rewrite Hrd in Hrun. injection Hrun as <-.
  unfold Stats.duration_stats, Stats.duration_min, Stats.duration_max,
    Stats.duration_avg, Stats.duration_median, Stats.timing_range,
    Stats.range_total_duration, Stats.gap_stats, Stats.gap_avg.
  cbv beta iota zeta.
  apply min_list_spec in Hmin as [Hlo _].
  apply max_list_spec in Hmax as [Hhi _].
  assert (Hall : Forall (fun y => dmin <= y <= dmax) (durations_of (w :: r))).
  { rewrite Forall_forall in *. intros y Hy. split; auto. }
  assert (Hn : 0 < of_nat (length (w :: r))) by (apply of_nat_pos; cbn; lia).
  split.
  - unfold durations_of in Hall. rewrite Forall_map in Hall. exact Hall.
  - pose proof (sum_bounds _ _ _ Hall) as Hsum.
    assert (Hl : length (durations_of (w :: r)) = length (w :: r))
      by apply length_map.
    rewrite Hl in Hsum.
    split.
    + destruct Hsum as [Hs1 Hs2]. split.
      * apply Qle_shift_div_l; [exact Hn|].
        now rewrite Qmult_comm.
      * apply Qle_shift_div_r; [exact Hn|].
        now rewrite Qmult_comm.
    + split; [rewrite Forall_forall in Hall; auto|].
      rewrite (span_telescopes w r).
      assert (Hd : of_nat (length (w :: r))
                   * (sum (durations_of (w :: r)) / of_nat (length (w :: r)))
                   == sum (durations_of (w :: r)))
        by (field; lra).
      rewrite Hd. apply Qplus_inj_l.
      pose proof (length_gaps_of (w :: r)) as Hlen.
      destruct (gaps_of (w :: r)) as [|g gs] eqn:Hg.
      * destruct Hgaps as (_ & _ & ->). unfold sum. cbn [fold_left]. lra.
      * destruct Hgaps as (_ & _ & ->). rewrite <- Hlen.
        assert (0 < of_nat (length (g :: gs))) by (apply of_nat_pos; cbn; lia).
        field. lra.
Qed.

Lemma get_timing_stats_durations_witness :
  exists s,
    Stats.get_timing_stats [mkWord "a" 0 1 None; mkWord "b" 1.5 2 None] = Some (Some s)
    /\ Stats.duration_min (Stats.duration_stats s)
       <= Stats.duration_avg (Stats.duration_stats s).
Proof.
  eexists. split; [reflexivity|].
  match goal with
  | |- context [Stats.duration_stats ?s] =>
      pose proof (get_timing_stats_durations
                    [mkWord "a" 0 1 None; mkWord "b" 1.5 2 None] s eq_refl)
        as (_ & (H & _) & _)
  end.
  exact H.
Defined.

(** X18.  The statistics of a non-empty result of [optimize_timing]: every
    duration reported is positive and the range starts at 0 or later,
    whatever the input, the optimizer and the clip were. *)
Theorem get_timing_stats_of_optimized (self : TimingOptimizer)
    (words_data out : list Word) (clip_duration : option Q)
    (Hrun : optimize_timing self words_data clip_duration = Some out)
    (Hout : out <> []) :
  exists s,
    Stats.get_timing_stats out = Some (Some s)
    /\ 0 < Stats.duration_min (Stats.duration_stats s)
    /\ 0 <= Stats.range_start (Stats.timing_range s).
Proof.
  rewrite optimize_timing_reading in Hrun. injection Hrun as Hrun.
  assert (Hwt : Forall well_timed out)
    by (rewrite <- Hrun; apply validate_timing_well_timed).
  destruct out as [|w r]; [congruence|].
  destruct (get_timing_stats_reading w r)
    as (dmin & dmax & dmed & gmin & gmax & gavg & Hrd & Hmin & _).
  eexists. split; [exact Hrd|].
  cbn [Stats.duration_stats Stats.duration_min Stats.timing_range
       Stats.range_start].
  apply min_list_spec in Hmin as [_ Hin].
  unfold durations_of in Hin. apply in_map_iff in Hin as (x & <- & Hx).
  rewrite Forall_forall in Hwt. split.
  - destruct (Hwt x Hx). lra.
  - destruct (Hwt w (or_introl eq_refl)). assumption.
Qed.

Lemma get_timing_stats_of_optimized_witness :
  exists s,
    Stats.get_timing_stats [mkWord "a" 0 0.3 None] = Some (Some s)
    /\ 0 < Stats.duration_min (Stats.duration_stats s).
Proof.
  assert (Hrun : optimize_timing default [mkWord "a" (-1) (-2) None] None
                 = Some [mkWord "a" 0 0.3 None]) by (vm_compute; reflexivity).
  assert (Hout : [mkWord "a" 0 0.3 None] <> []) by discriminate.
  destruct (get_timing_stats_of_optimized default _ _ None Hrun Hout)
    as (s & Hs & Hmin & _).
  exists s. split; assumption.
Defined.

Lemma of_nat_mult_60 (n : nat) : of_nat (n * 60) == 60 * of_nat n.
Proof.
  unfold of_nat. rewrite Znat.Nat2Z.inj_mul, inject_Z_mult.
  change (inject_Z (Z.of_nat 60)) with 60. lra.
Qed.

(** X19.  [calculate_reading_speed] raises for no list and returns a speed of 0
    or more.  For a list of two words or more it agrees with the
    [words_per_second] of [estimate_reading_load] up to the share of
    active words: speed times active words is 60 times all words times
    words per second, so for words that are all active it is 60 times
    [words_per_second]. *)
Theorem calculate_reading_speed_agrees (words : list Word) :
  exists wpm,
    Stats.calculate_reading_speed words = Some wpm
    /\ 0 <= wpm
    /\ forall load,
         (2 <= length words)%nat ->
         estimate_reading_load words = Some load ->
         of_nat (active_words load) * wpm
         == 60 * of_nat (total_words load) * words_per_second load.
Proof.
  unfold Stats.calculate_reading_speed.
  destruct (Nat.ltb_spec (length words) 2) as [Hlt|Hge].
  - exists 0. split; [reflexivity|]. split; [lra|]. intros; lia.
  - destruct words as [|w r]; [cbn in Hge; lia|].
    cbn [Py.last_item Py.index nth_error Py.bind].
    set (T := end_ (last r w) - start w).
    assert (Hload : forall load, estimate_reading_load (w :: r) = Some load ->
              active_words load = length (filter is_active (w :: r))
              /\ total_words load = length (w :: r)
              /\ words_per_second load
                 = (if Py.gt T 0
                    then of_nat (length (filter is_active (w :: r))) / T
                    else 0)).
    { intros load [= <-]. cbn [active_words total_words words_per_second].
      change (match r with [] => w | _ :: _ => last r w end)
        with (last (w :: r) w).
      rewrite (last_cons_default r w w). fold T. repeat split. }
    destruct (py_le_spec T 0) as [Hle|Hgt].
    + exists 0. split; [reflexivity|]. split; [lra|].
      intros load _ Hl. destruct (Hload load Hl) as (_ & _ & ->).
      destruct (py_gt_spec T 0); lra.
    + exists (of_nat (length (w :: r) * 60) / T).
      split; [now apply truediv_pos|].
      assert (Hn : 0 < of_nat (length (w :: r))) by (apply of_nat_pos; lia).
      split.
      * rewrite of_nat_mult_60. apply Qle_shift_div_l; [exact Hgt | lra].
      * intros load _ Hl. destruct (Hload load Hl) as (-> & -> & ->).
        destruct (py_gt_spec T 0); [|lra].
        rewrite of_nat_mult_60. field. lra.
Qed.

(** ** Caption groups *)

Lemma group_words_into_sentences_apart_witness :
  groups_apart (_group_words_into_sentences seven_words).
Proof.
  apply (group_words_into_sentences_apart seven_words).
  - vm_compute. repeat split; discriminate.
  - vm_compute. repeat split; discriminate.
Defined.

Lemma shortened_refl (w : Word) : shortened w w.
Proof. repeat split; lra. Qed.

Lemma kept_refl (l : list Word) : kept shortened l l.
Proof. induction l; constructor; [apply shortened_refl | assumption]. Qed.

Lemma kept_to_nil (R : Word -> Word -> Prop) (l : list Word) : kept R l [].
Proof. induction l; constructor; assumption. Qed.

Lemma kept_app (R : Word -> Word -> Prop) (a a' b b' : list Word) :
  kept R a a' -> kept R b b' -> kept R (a ++ b) (a' ++ b').
Proof. induction 1; intros; cbn [app]; try constructor; auto. Qed.

Lemma trimmed_kept (g g' : list Word) : trimmed g g' -> kept shortened g g'.
Proof.
  intros (p & x & x' & suf & -> & -> & Hx).
  apply kept_app; [apply kept_refl|].
  constructor; [exact Hx | apply kept_to_nil].
Qed.

Lemma fix_group_trimmed (g next g' : list Word) :
  fix_group g next = Some g' -> trimmed g g'.
Proof.
  unfold fix_group. destruct g as [|w0 g]; [discriminate|].
  assert (Hsplit : w0 :: g = removelast (w0 :: g) ++ [last (w0 :: g) w0])
    by (apply app_removelast_last; discriminate).
  assert (Hsame : trimmed (w0 :: g) (w0 :: g)).
  { exists (removelast (w0 :: g)), (last (w0 :: g) w0), (last (w0 :: g) w0), [].
    split; [exact Hsplit|]. split; [exact Hsplit | apply shortened_refl]. }
  destruct next as [|nf nr]; [now intros [= <-]|].
  destruct (py_ge_spec (end_ (last (w0 :: g) w0)) (start nf)) as [Hge|_];
    [|now intros [= <-]].
  cbv zeta. cbn [start end_ set_end].
  destruct (Py.le _ _).
  - destruct (removelast (w0 :: g)) as [|y l] eqn:Hr; [discriminate|].
    intros [= <-].
    exists (removelast (y :: l)), (last (y :: l) y), (last (y :: l) y),
      [last (w0 :: g) w0].
    assert (Hy : y :: l = removelast (y :: l) ++ [last (y :: l) y])
      by (apply app_removelast_last; discriminate).
    split; [|split; [exact Hy | apply shortened_refl]].
    rewrite Hsplit at 1. rewrite Hy at 1. now rewrite <- app_assoc.
  - intros [= <-].
    exists (removelast (w0 :: g)), (last (w0 :: g) w0),
      (set_end (last (w0 :: g) w0) (start nf - 0.05)), [].
    split; [exact Hsplit|]. split; [reflexivity|].
    repeat split. cbn [end_ set_end]. lra.
Qed.

Lemma fix_from_kept (gs : list (list Word)) :
  kept shortened (concat gs) (concat (fix_from gs)).
Proof.
  induction gs as [|g gs IH]; [constructor|].
  cbn [fix_from concat].
  destruct (fix_group g (hd [] gs)) as [g'|] eqn:Hg; cbn [concat].
  - apply kept_app; [|exact IH]. eapply trimmed_kept, fix_group_trimmed, Hg.
  - rewrite <- (app_nil_l (concat (fix_from gs))).
    apply kept_app; [apply kept_to_nil | exact IH].
Qed.

Lemma fix_from_trimmed (gs : list (list Word)) :
  Forall (fun g' => exists g, In g gs /\ trimmed g g') (fix_from gs).
Proof.
  induction gs as [|g gs IH]; [constructor|].
  cbn [fix_from].
  assert (IH' : Forall (fun g' => exists g0, In g0 (g :: gs) /\ trimmed g0 g')
                  (fix_from gs)).
  { eapply Forall_impl; [|exact IH]. cbn beta.
    intros g' (g0 & Hin & Ht). exists g0. split; [now right | exact Ht]. }
  destruct (fix_group g (hd [] gs)) as [g'|] eqn:Hg; [|exact IH'].
  constructor; [|exact IH'].
  exists g. split; [now left | eapply fix_group_trimmed, Hg].
Qed.

Lemma grouped_unbroken (gs : list (list Word)) :
  grouped gs -> Forall unbroken gs.
Proof.
  induction 1 as [|g _ Hu|g w r gs _ Hu _ _ IH].
  - constructor.
  - constructor; [assumption | constructor].
  - constructor; assumption.
Qed.

Lemma close_words_adjacent (g : list Word) :
  (forall p a b r, g = p ++ a :: b :: r ->
                   start b - end_ a <= large_gap_threshold) ->
  close_words g.
Proof.
  induction g as [|a g IH]; intro H; [exact I|].
  split.
  - destruct g as [|b g]; [exact I|]. exact (H [] a b g eq_refl).
  - apply IH. intros p x y r ->. exact (H (a :: p) x y r eq_refl).
Qed.

Lemma close_words_app (p : list Word) (x x' : Word) (suf : list Word) :
  start x' = start x ->
  close_words (p ++ x :: suf) -> close_words (p ++ [x']).
Proof.
  intro Hs. induction p as [|a p IH]; intro H.
  - split; exact I.
  - cbn [app close_words] in *. destruct H as [Ha Hp]. split; [|auto].
    destruct p as [|b p]; cbn [app] in *; [now rewrite Hs | exact Ha].
Qed.

Lemma unbroken_within_limits (g : list Word) :
  g <> [] -> unbroken g -> within_limits g.
Proof.
  intros Hne Hun. destruct g as [|first t]; [congruence|].
  unfold within_limits, max_words_per_sentence, max_sentence_duration,
    large_gap_threshold.
  split; [|split].
  - destruct (le_lt_dec (length (first :: t)) 6) as [Hle|Hgt]; [exact Hle|].
    exfalso.
    pose proof (firstn_skipn 6 (first :: t)) as Hsplit.
    destruct (skipn 6 (first :: t)) as [|w r] eqn:Hs.
    + apply (f_equal (@length Word)) in Hs. rewrite length_skipn in Hs. cbn [length] in *. lia.
    + apply (Hun (firstn 6 (first :: t)) w r (eq_sym Hsplit)).
      * cbn [firstn]. discriminate.
      * exists first. split; [reflexivity|]. left.
        rewrite length_firstn. lia.
  - intros f w [= <-] [<-|Hin]; [lra|].
    apply in_split in Hin as (t1 & t2 & ->).
    apply Qnot_lt_le. intro Hlt.
    apply (Hun (first :: t1) w t2 eq_refl); [discriminate|].
    exists first. split; [reflexivity|]. right; left. exact Hlt.
  - apply close_words_adjacent. intros p a b r Heq.
    apply Qnot_lt_le. intro Hlt.
    apply (Hun (p ++ [a]) b r).
    + rewrite Heq, <- app_assoc. reflexivity.
    + intro H. apply app_eq_nil in H as [_ H]. discriminate H.
    + exists (hd a p). split.
      * destruct p; reflexivity.
      * right; right. now rewrite last_last.
Qed.

Lemma trimmed_within_limits (g g' : list Word) :
  trimmed g g' -> within_limits g -> within_limits g'.
Proof.
  intros (p & x & x' & suf & -> & -> & (_ & Hs & _)) (Hlen & Hspan & Hclose).
  split; [|split].
  - rewrite length_app in *. cbn [length] in *. lia.
  - intros f w Hf Hin.
    assert (Hhd : exists f0, hd_error (p ++ x :: suf) = Some f0
                             /\ start f0 = start f).
    { destruct p as [|a p]; cbn [app hd_error] in *.
      - injection Hf as <-. exists x. split; [reflexivity | now rewrite Hs].
      - injection Hf as <-. exists a. split; reflexivity. }
    destruct Hhd as (f0 & Hf0 & Hst). rewrite <- Hst.
    apply in_app_or in Hin as [Hin|[<-|[]]].
    + apply (Hspan f0 w Hf0). apply in_or_app. now left.
    + rewrite Hs. apply (Hspan f0 x Hf0). apply in_or_app. right. now left.
  - exact (close_words_app p x x' suf Hs Hclose).
Qed.

Lemma group_words_grouped (w : Word) (ws : list Word) :
  grouped (group_words (w :: ws)).
Proof.
  rewrite group_words_reading. cbn [split_groups should_break app].
  apply split_groups_grouped; [discriminate | apply unbroken_single].
Qed.

(** X20.  Every group returned by [_group_words_into_sentences] respects the
    three limits, whatever the input: it has at most 6 words, each of its
    words starts at most 3.5s after its first word, and each word starts
    at most 0.8s after the end of the word before it. *)
Theorem group_words_into_sentences_limits (words : list Word) :
  Forall within_limits (_group_words_into_sentences words).
Proof.
  unfold _group_words_into_sentences.
  destruct words as [|w ws]; [constructor|].
  pose proof (group_words_grouped w ws) as Hg.
  rewrite (fix_overlaps_reading _ (grouped_nonempty _ Hg)).
  pose proof (grouped_nonempty _ Hg) as Hne.
  pose proof (grouped_unbroken _ Hg) as Hun.
  eapply Forall_impl; [|apply fix_from_trimmed]. cbn beta.
  intros g' (g & Hin & Ht). apply (trimmed_within_limits g g' Ht).
  rewrite Forall_forall in Hne, Hun.
  apply unbroken_within_limits; auto.
Qed.

(** X21.  Read in order, the groups of [_group_words_into_sentences] hold words
    of the input, in the order of the input, each with its text, flag and
    start and with an end that is not later: the function adds, repeats
    and reorders nothing and moves no end forward.  Every group of the
    grouping loop is still there, with the word that opened it. *)
Theorem group_words_into_sentences_keeps (words : list Word) :
  kept shortened words (concat (_group_words_into_sentences words))
  /\ length (_group_words_into_sentences words) = length (group_words words)
  /\ map opening (_group_words_into_sentences words)
     = map opening (group_words words).
Proof.
  assert (Hop := group_words_into_sentences_openings words).
  split; [|split; [|exact Hop]].
  - unfold _group_words_into_sentences.
    destruct words as [|w ws]; [constructor|].
    pose proof (group_words_grouped w ws) as Hg.
    rewrite (fix_overlaps_reading _ (grouped_nonempty _ Hg)).
    replace (w :: ws) with (concat (group_words (w :: ws))) at 1.
    + apply fix_from_kept.
    + now rewrite group_words_reading, split_groups_concat.
  - apply (f_equal (@length _)) in Hop. now rewrite !length_map in Hop.
Qed.

Lemma groups_of_apart (words : list Word) :
  apart words -> groups_apart (_group_words_into_sentences words).
Proof.
  intro Ha. unfold _group_words_into_sentences.
  destruct words as [|w ws] eqn:Hw; [exact I|].
  rewrite <- Hw in *.
  assert (Hg : grouped (group_words words)).
  { rewrite group_words_reading, Hw. cbn [split_groups should_break app].
    apply split_groups_grouped; [discriminate | apply unbroken_single]. }
  rewrite (fix_overlaps_reading _ (grouped_nonempty _ Hg)).
  apply apart_groups.
  apply (thinned_apart (concat (group_words words))); [apply fix_from_thinned|].
  now rewrite group_words_reading, split_groups_concat.
Qed.

(** X22.  The two stages as [main_enterprise.py] runs them, without a clip:
    for words that start at distinct times of 0 or later, and an
    optimizer with a merge threshold of 0 or more and positive minimum
    and maximum durations, the groups made from the result of
    [optimize_timing] do not overlap: each group's last word ends before
    the next group's first word starts. *)
Theorem optimized_groups_apart (self : TimingOptimizer) (words_data : list Word)
    (Hthr : 0 <= gap_merge_threshold self)
    (Hmin : 0 < min_duration self) (Hbonus : 0 <= active_word_bonus self)
    (Hmax : 0 < max_duration self)
    (Hpos : Forall (fun w => 0 <= start w) words_data)
    (Hdistinct : distinct_starts (sorted_by_start words_data)) :
  exists out,
    optimize_timing self words_data None = Some out
    /\ groups_apart (_group_words_into_sentences out).
Proof.
  exists (settle_all self (sorted_by_start words_data)).
  split; [now apply optimize_timing_settles|].
  apply groups_of_apart, sorted_apart.
  - apply (sorted_starts_map (sorted_by_start words_data)).
    + symmetry. apply settle_all_starts. now apply sorted_by_start_Forall.
    + apply sorted_by_start_sorted.
  - apply settle_all_no_overlap; try assumption.
    now apply sorted_by_start_Forall.
Qed.

(** With the optimizer of [main_enterprise.py], the seven words come out
    of [optimize_timing] each ending where the next one starts; they make
    two groups, the first six words and the seventh, and the overlap fix
    cuts the sixth word 50ms before the seventh starts. *)
Lemma optimized_groups_apart_witness :
  (0 <= gap_merge_threshold enterprise
   /\ 0 < min_duration enterprise
   /\ 0 <= active_word_bonus enterprise
   /\ 0 < max_duration enterprise
   /\ Forall (fun w => 0 <= start w) seven_words
   /\ distinct_starts (sorted_by_start seven_words))
  /\ exists out g1 g2 l f,
       optimize_timing enterprise seven_words None = Some out
       /\ _group_words_into_sentences out = [g1; g2]
       /\ groups_apart [g1; g2]
       /\ Py.last_item g1 = Some l /\ hd_error g2 = Some f
       /\ end_ l == 1.75 /\ start f == 1.8
       /\ end_ l <= start f.
Proof.
  assert (H1 : 0 <= gap_merge_threshold enterprise) by (vm_compute; discriminate).
  assert (H2 : 0 < min_duration enterprise) by reflexivity.
  assert (H3 : 0 <= active_word_bonus enterprise) by (vm_compute; discriminate).
  assert (H4 : 0 < max_duration enterprise) by reflexivity.
  assert (H5 : Forall (fun w => 0 <= start w) seven_words)
    by (repeat constructor; vm_compute; discriminate).
  assert (H6 : distinct_starts (sorted_by_start seven_words))
    by (vm_compute; repeat split; reflexivity).
  split; [repeat split; assumption|].
  destruct (optimized_groups_apart enterprise seven_words H1 H2 H3 H4 H5 H6)
    as (out & Hout & Hapart).
  vm_compute in Hout. injection Hout as <-.
  do 5 eexists.
  split; [reflexivity|].
  split; [vm_compute; reflexivity|].
  split; [exact Hapart|].
  split; [reflexivity|]. split; [reflexivity|].
  split; [reflexivity|]. split; [reflexivity|].
  destruct Hapart as [H _]. apply H; reflexivity.
Defined.

(** ** The timing loop of [main.py] *)

Lemma improve_fold (words : list WordSrt.Timed) :
  forall suf pre acc,
    words = pre ++ suf ->
    length acc = length pre ->
    fold_left (WordSrt.improve_step words) (seq (length pre) (length suf))
      (Some acc)
    = Some (acc ++ improve_from (option_map WordSrt.end_time (Py.last_item acc))
                     suf).
Proof.
  induction suf as [|x suf IH]; intros pre acc Hw Hl; cbn [length seq fold_left].
  - now rewrite app_nil_r.
  - specialize (IH (pre ++ [x])).
    rewrite length_app, Nat.add_1_r in IH.
    assert (Hstep : WordSrt.improve_step words (Some acc) (length pre)
                    = Some (acc ++ [improve_word
                                      (option_map WordSrt.end_time (Py.last_item acc))
                                      x (hd_error suf)])).
    { unfold WordSrt.improve_step. simpl Py.bind.
      rewrite Hw at 1. rewrite index_middle. simpl Py.bind.
      destruct x as [[word s] e].
      rewrite Hw at 2. rewrite index_after.
      rewrite Hw at 1. rewrite length_app. simpl length.
      unfold improve_word, WordSrt.start_time, WordSrt.end_time, WordSrt.text.
      cbn [fst snd]. cbv zeta.
      generalize (if Py.lt (e - s) WordSrt.min_duration
                  then s + WordSrt.min_duration else e).
      intro e1.
      destruct suf as [|n suf]; simpl hd_error; cbn [length].
      - destruct (Nat.ltb_spec (length pre + 1) (length pre + 1)); [lia|].
        reflexivity.
      - destruct (Nat.ltb_spec (length pre + 1) (length pre + S (S (length suf))));
          [|lia].
        simpl Py.bind.
        destruct (Py.gt _ _); [|reflexivity].
        destruct (Py.lt _ _); [|reflexivity].
        destruct acc as [|a0 acc'] using rev_ind.
        + destruct pre; [reflexivity | discriminate].
        + clear IHacc'. rewrite length_app in Hl. cbn [length] in Hl.
          destruct pre as [|p0 pre]; cbn [length] in *; [lia|]. change (0 <? S (length pre))%nat with true.
          cbv iota.
          replace (S (length pre) - 1)%nat with (length acc') by lia.
          rewrite index_middle, last_item_snoc.
          destruct (acc' ++ [a0]) eqn:E; [destruct acc'; discriminate|].
          reflexivity. }
    rewrite Hstep.
    rewrite IH.
    + rewrite last_item_snoc, <- app_assoc. reflexivity.
    + rewrite Hw, <- app_assoc. reflexivity.
    + rewrite length_app. simpl. lia.
Qed.

Lemma improve_timing_reading (words : list WordSrt.Timed) :
  WordSrt.improve_timing words = Some (improve_from None words).
Proof. exact (improve_fold words words [] [] eq_refl eq_refl). Qed.

Lemma improve_tail (s2 e2 : Q) :
  let e3 := if Py.gt (e2 - s2) WordSrt.max_duration
            then s2 + WordSrt.max_duration else e2 in
  let e4 := if Py.le e3 s2 then s2 + 0.3 else e3 in
  s2 < e4 /\ e4 - s2 <= 1.5
  /\ ((s2 < e2 /\ e4 <= e2) \/ (e2 <= s2 /\ e4 = s2 + 0.3)).
Proof.
  unfold WordSrt.max_duration. cbv zeta.
  destruct (py_gt_spec (e2 - s2) 1.5);
    match goal with
    | |- context [Py.le ?a ?b] => destruct (py_le_spec a b)
    end;
    (split; [lra|]); (split; [lra|]);
    first [ left; split; lra | right; split; [lra | reflexivity] ].
Qed.

(** One word of the loop: its text is kept, it lasts more than 0 and at
    most 1.5s, its start is kept or is 50ms or more after the end given
    to the word before it, and it ends 50ms before the next input word
    starts unless it was repaired to 0.3s. *)
Lemma improve_word_rule (prev_end : option Q) (item : WordSrt.Timed)
    (next : option WordSrt.Timed) :
  let item' := improve_word prev_end item next in
  WordSrt.text item' = WordSrt.text item
  /\ WordSrt.start_time item' < WordSrt.end_time item'
  /\ WordSrt.end_time item' - WordSrt.start_time item' <= 1.5
  /\ (WordSrt.start_time item' = WordSrt.start_time item
      \/ match prev_end with
         | Some p => p + 0.05 <= WordSrt.start_time item'
         | None => 0 <= WordSrt.start_time item'
         end)
  /\ (forall n, next = Some n ->
        WordSrt.end_time item' + 0.05 <= WordSrt.start_time n
        \/ WordSrt.end_time item' = WordSrt.start_time item' + 0.3).
Proof.
  destruct item as [[word s] e].
  unfold improve_word, WordSrt.start_time, WordSrt.end_time, WordSrt.text.
  cbn [fst snd]. cbv zeta.
  set (e1 := if Py.lt (e - s) WordSrt.min_duration
             then s + WordSrt.min_duration else e).
  clearbody e1.
  assert (Hfin : forall s2 e2 : Q,
            e2 + 0.05 <= match next with
                         | Some n => snd (fst n)
                         | None => e2 + 0.05
                         end ->
            (s2 = s \/ match prev_end with
                       | Some p => p + 0.05 <= s2
                       | None => 0 <= s2
                       end) ->
            let e3 := if Py.gt (e2 - s2) WordSrt.max_duration
                      then s2 + WordSrt.max_duration else e2 in
            let e4 := if Py.le e3 s2 then s2 + 0.3 else e3 in
            word = word /\ s2 < e4 /\ e4 - s2 <= 1.5
            /\ (s2 = s \/ match prev_end with
                          | Some p => p + 0.05 <= s2
                          | None => 0 <= s2
                          end)
            /\ (forall n, next = Some n ->
                  e4 + 0.05 <= snd (fst n) \/ e4 = s2 + 0.3)).
  { intros s2 e2 Hn Hs. destruct (improve_tail s2 e2) as (H1 & H2 & H3).
    cbv zeta in *. split; [reflexivity|]. split; [exact H1|].
    split; [exact H2|]. split; [exact Hs|].
    intros n ->. destruct H3 as [[_ H3]|[_ H3]]; [left; lra | now right]. }
  destruct next as [[[nw ns] ne]|]; cbn [fst snd] in *.
  - destruct (py_gt_spec e1 (ns - 0.05)) as [Hcut|Hfit].
    + destruct (Py.lt _ _).
      * destruct prev_end as [p|]; apply Hfin; try lra;
          right; apply py_max_r.
      * apply Hfin; [lra | now left].
    + apply Hfin; [lra | now left].
  - apply Hfin; [lra | now left].
Qed.

(** With a start of 0 or more, at least 50ms after the end given to the
    word before, and a next word that starts more than 50ms later, the
    word is not repaired: it ends 50ms before the next word starts and
    its start does not move forward. *)
Lemma improve_word_spaced (prev_end : option Q) (item n : WordSrt.Timed) :
  0 <= WordSrt.start_time item ->
  (forall p, prev_end = Some p -> p + 0.05 <= WordSrt.start_time item) ->
  WordSrt.start_time item + 0.05 < WordSrt.start_time n ->
  let item' := improve_word prev_end item (Some n) in
  WordSrt.end_time item' + 0.05 <= WordSrt.start_time n
  /\ WordSrt.start_time item' <= WordSrt.start_time item.
Proof.
  destruct item as [[word s] e]. destruct n as [[nw ns] ne].
  unfold improve_word, WordSrt.start_time, WordSrt.end_time, WordSrt.text.
  cbn [fst snd]. intros Hs Hp Hn. cbv zeta.
  set (e1 := if Py.lt (e - s) WordSrt.min_duration
             then s + WordSrt.min_duration else e).
  assert (He1 : s + 0.4 <= e1).
  { unfold e1, WordSrt.min_duration.
    destruct (py_lt_spec (e - s) 0.4); lra. }
  clearbody e1.
  assert (Hfin : forall s2 e2 : Q,
            s2 < e2 -> e2 + 0.05 <= ns -> s2 <= s ->
            let e3 := if Py.gt (e2 - s2) WordSrt.max_duration
                      then s2 + WordSrt.max_duration else e2 in
            let e4 := if Py.le e3 s2 then s2 + 0.3 else e3 in
            e4 + 0.05 <= ns /\ s2 <= s).
  { intros s2 e2 H1 H2 H3. destruct (improve_tail s2 e2) as (_ & _ & H).
    cbv zeta in *. destruct H as [[_ H]|[H _]]; repeat split; lra. }
  unfold WordSrt.min_duration in *.
  destruct (py_gt_spec e1 (ns - 0.05)) as [Hcut|Hfit].
  - destruct (py_lt_spec (ns - 0.05 - s) (0.4 * 0.75)) as [Hshort|Hlong].
    + destruct prev_end as [p|]; cbn [fst snd].
      * specialize (Hp p eq_refl). apply Hfin; py_max_cases; lra.
      * apply Hfin; py_max_cases; lra.
    + cbn [fst snd]. apply Hfin; lra.
  - cbn [fst snd]. apply Hfin; lra.
Qed.

(** X23.  The timing loop of [parse_wts_to_word_srt] raises for no input and
    keeps every word and its text; every word of its result lasts more
    than 0 and at most 1.5s; and a word ends 50ms or more before the
    start of the next one unless it was repaired to last 0.3s. *)
Theorem improve_timing_rule (words_data : list WordSrt.Timed) :
  exists improved_words,
    WordSrt.improve_timing words_data = Some improved_words
    /\ map WordSrt.text improved_words = map WordSrt.text words_data
    /\ Forall (fun t => 0 < WordSrt.end_time t - WordSrt.start_time t <= 1.5)
         improved_words
    /\ buffered_or_repaired improved_words.
Proof.
  exists (improve_from None words_data).
  split; [apply improve_timing_reading|].
  generalize (@None Q) as prev.
  induction words_data as [|item rest IH]; intro prev.
  - repeat split; constructor.
  - cbn [improve_from map]. cbv zeta.
    destruct (improve_word_rule prev item (hd_error rest))
      as (Ht & Hlt & Hmax & _ & Hnext).
    cbv zeta in Ht, Hlt, Hmax, Hnext.
    set (item' := improve_word prev item (hd_error rest)) in *.
    destruct (IH (Some (WordSrt.end_time item'))) as (IH1 & IH2 & IH3).
    split; [now rewrite Ht, IH1|].
    split; [constructor; [lra | exact IH2]|].
    cbn [buffered_or_repaired]. split; [|exact IH3].
    destruct rest as [|n rest]; [exact I|].
    cbn [improve_from hd_error] in *. cbv zeta.
    destruct (improve_word_rule (Some (WordSrt.end_time item')) n (hd_error rest))
      as (_ & _ & _ & Hs & _).
    cbv zeta in Hs.
    destruct Hs as [Hs|Hs]; [|now left].
    rewrite Hs. exact (Hnext n eq_refl).
Qed.

(** X24.  When the input words start at 0 or later and each starts more than
    50ms after the one before it, no word is repaired: the words of the
    result are 50ms or more apart, and no start is moved forward. *)
Theorem improve_timing_buffered (words_data : list WordSrt.Timed)
    (Hspaced : spaced words_data) :
  exists improved_words,
    WordSrt.improve_timing words_data = Some improved_words
    /\ buffered improved_words
    /\ Forall2 (fun t t' => WordSrt.start_time t' <= WordSrt.start_time t)
         words_data improved_words.
Proof.
  exists (improve_from None words_data).
  split; [apply improve_timing_reading|].
  assert (Hprev : forall p, @None Q = Some p ->
                    match words_data with
                    | [] => True
                    | w :: _ => p + 0.05 <= WordSrt.start_time w
                    end) by discriminate.
  revert Hspaced Hprev. generalize (@None Q) as prev.
  induction words_data as [|item rest IH]; intros prev Hspaced Hprev.
  - split; constructor.
  - cbn [improve_from]. cbv zeta.
    destruct Hspaced as (H0 & Hn & Hrest).
    set (item' := improve_word prev item (hd_error rest)).
    destruct rest as [|n rest].
    + cbn [improve_from]. split; [split; exact I|].
      constructor; [|constructor].
      unfold item'. destruct item as [[word s] e].
      unfold improve_word, WordSrt.start_time, WordSrt.end_time, WordSrt.text.
      cbn [fst snd hd_error]. apply Qle_refl.
    + cbn [hd_error] in item'.
      destruct (improve_word_spaced prev item n H0 Hprev Hn) as (He & Hs).
      cbv zeta in He, Hs. fold item' in He, Hs.
      destruct (IH (Some (WordSrt.end_time item')) Hrest) as (IH1 & IH2).
      { intros p [= <-]. exact He. }
      split; [|constructor; assumption].
      cbn [buffered]. split; [|exact IH1].
      cbn [improve_from]. cbv zeta.
      destruct (improve_word_rule (Some (WordSrt.end_time item')) n (hd_error rest))
        as (_ & _ & _ & Hsn & _).
      cbv zeta in Hsn. destruct Hsn as [Hsn|Hsn]; [rewrite Hsn|]; lra.
Qed.

Lemma improve_timing_buffered_witness :
  spaced [("a"%string, 0, 0.2); ("b"%string, 0.1, 0.7); ("c"%string, 1, 1.1)]
  /\ exists improved_words,
       WordSrt.improve_timing
         [("a"%string, 0, 0.2); ("b"%string, 0.1, 0.7); ("c"%string, 1, 1.1)]
       = Some improved_words
       /\ buffered improved_words.
Proof.
  assert (H : spaced [("a"%string, 0, 0.2); ("b"%string, 0.1, 0.7);
                      ("c"%string, 1, 1.1)]).
  { cbn [spaced]. unfold WordSrt.start_time. cbn [fst snd].
    repeat split; lra. }
  split; [exact H|].
  destruct (improve_timing_buffered _ H) as (out & Hout & Hb & _).
  exists out. split; assumption.
Defined.

(** ** Timestamps *)

(** Linear arithmetic with floors as atoms and divisions by the constants
    of the time formats as products. *)
Ltac lra_div :=
  repeat match goal with
    | |- context [inject_Z (Qfloor ?x)] =>
        let z := fresh "z" in set (z := inject_Z (Qfloor x)) in *
    | H : context [inject_Z (Qfloor ?x)] |- _ =>
        let z := fresh "z" in set (z := inject_Z (Qfloor x)) in *
    end;
  unfold Qdiv in *;
  change (/ 60) with (1 # 60) in *;
  change (/ 3600) with (1 # 3600) in *;
  change (/ 100) with (1 # 100) in *;
  change (/ 1000) with (1 # 1000) in *;
  lra.

Lemma floor_unique (x : Q) (z : Z) :
  inject_Z z <= x -> x < inject_Z (z + 1) -> Qfloor x = z.
Proof.
  intros Hle Hlt.
  pose proof (Qfloor_le x) as H1. pose proof (Qlt_floor x) as H2.
  assert (Ha : (Qfloor x < z + 1)%Z).
  { rewrite Zlt_Qlt. eapply Qle_lt_trans; eassumption. }
  assert (Hb : (z < Qfloor x + 1)%Z).
  { rewrite Zlt_Qlt. eapply Qle_lt_trans; eassumption. }
  lia.
Qed.

Lemma floor_bounds (x : Q) :
  inject_Z (Qfloor x) <= x /\ x < inject_Z (Qfloor x) + 1.
Proof.
  split; [apply Qfloor_le|].
  pose proof (Qlt_floor x) as H. rewrite inject_Z_plus in H. exact H.
Qed.

Lemma mod_range (a b : Q) :
  0 < b -> 0 <= TimeFormat.mod_ a b /\ TimeFormat.mod_ a b < b.
Proof.
  intro Hb. unfold TimeFormat.mod_.
  destruct (floor_bounds (a / b)) as [H1 H2].
  assert (Ha : a == (a / b) * b) by (field; lra).
  split.
  - assert (inject_Z (Qfloor (a / b)) * b <= (a / b) * b)
      by (apply Qmult_le_compat_r; lra).
    lra.
  - assert ((a / b) * b < (inject_Z (Qfloor (a / b)) + 1) * b)
      by (apply Qmult_lt_compat_r; lra).
    lra.
Qed.

Lemma floor_range (x : Q) (n : Z) :
  0 <= x -> x < inject_Z n -> (0 <= Qfloor x < n)%Z.
Proof.
  intros H0 Hn. destruct (floor_bounds x) as [H1 H2]. split.
  - change 0%Z with (Qfloor 0). now apply Qfloor_resp_le.
  - rewrite Zlt_Qlt. lra.
Qed.

(** The whole minutes of a time: sixty per hour and those of the rest. *)
Lemma floordiv_minutes (s : Q) :
  TimeFormat.floordiv s 60
  = (60 * TimeFormat.floordiv s 3600
     + TimeFormat.floordiv (TimeFormat.mod_ s 3600) 60)%Z.
Proof.
  unfold TimeFormat.floordiv at 1. apply floor_unique.
  - rewrite inject_Z_plus, inject_Z_mult.
    unfold TimeFormat.floordiv, TimeFormat.mod_.
    destruct (floor_bounds ((s - inject_Z (Qfloor (s / 3600)) * 3600) / 60))
      as [H1 _].
    change (inject_Z 60) with 60. lra_div.
  - rewrite !inject_Z_plus, inject_Z_mult.
    unfold TimeFormat.floordiv, TimeFormat.mod_.
    destruct (floor_bounds ((s - inject_Z (Qfloor (s / 3600)) * 3600) / 60))
      as [_ H2].
    change (inject_Z 60) with 60. change (inject_Z 1) with 1. lra_div.
Qed.

Lemma int_nonneg (x : Q) : 0 <= x -> TimeFormat.int x = Qfloor x.
Proof.
  intro H. unfold TimeFormat.int.
  destruct (Qle_bool 0 x) eqn:E; [reflexivity|].
  apply Qle_bool_iff in H. congruence.
Qed.

(** The time of day of a timestamp, from its fields. *)
Lemma minutes_and_seconds (s : Q) :
  let h := TimeFormat.floordiv s 3600 in
  let m := TimeFormat.floordiv (TimeFormat.mod_ s 3600) 60 in
  (0 <= m < 60)%Z
  /\ s == 3600 * inject_Z h + 60 * inject_Z m + TimeFormat.mod_ s 60.
Proof.
  cbv zeta. split.
  - destruct (mod_range s 3600 ltac:(reflexivity)) as [H0 H1].
    unfold TimeFormat.floordiv at 1 2. apply floor_range; [lra_div|].
    change (inject_Z 60) with 60. lra_div.
  - pose proof (floordiv_minutes s) as H.
    unfold TimeFormat.mod_ at 2. fold (TimeFormat.floordiv s 60).
    rewrite H, inject_Z_plus, inject_Z_mult.
    change (inject_Z 60) with 60. lra_div.
Qed.

(** X25.  The fields of [format_timestamp] are a time of day truncated to the
    millisecond: minutes and seconds are between 0 and 59, milliseconds
    between 0 and 999, and the time they spell is the input or up to
    1ms before it. *)
Theorem format_timestamp_fields (seconds : Q) :
  let f := TimeFormat.srt_fields seconds in
  let spelled := 3600 * inject_Z (TimeFormat.hours f)
                 + 60 * inject_Z (TimeFormat.minutes f)
                 + inject_Z (TimeFormat.seconds f)
                 + inject_Z (TimeFormat.milliseconds f) / 1000 in
  (0 <= TimeFormat.minutes f < 60)%Z
  /\ (0 <= TimeFormat.seconds f < 60)%Z
  /\ (0 <= TimeFormat.milliseconds f < 1000)%Z
  /\ spelled <= seconds < spelled + 1 / 1000.
Proof.
  unfold TimeFormat.srt_fields. cbv zeta.
  cbn [TimeFormat.hours TimeFormat.minutes TimeFormat.seconds
       TimeFormat.milliseconds].
  destruct (minutes_and_seconds seconds) as [Hm Hs]. cbv zeta in Hm, Hs.
  destruct (mod_range seconds 60 ltac:(reflexivity)) as [H0 H1].
  set (secs := TimeFormat.mod_ seconds 60) in *.
  rewrite (int_nonneg secs H0).
  destruct (floor_bounds secs) as [F1 F2].
  assert (Hfrac : 0 <= (secs - inject_Z (Qfloor secs)) * 1000) by lra.
  rewrite (int_nonneg _ Hfrac).
  destruct (floor_bounds ((secs - inject_Z (Qfloor secs)) * 1000)) as [G1 G2].
  split; [exact Hm|]. split; [|split].
  - apply floor_range; [exact H0|]. change (inject_Z 60) with 60. exact H1.
  - apply floor_range; [exact Hfrac|]. change (inject_Z 1000) with 1000. lra.
  - split; lra_div.
Qed.

Lemma append_assoc (a b c : string) :
  ((a ++ b) ++ c)%string = (a ++ (b ++ c))%string.
Proof. induction a as [|x a IH]; cbn; [reflexivity | now rewrite IH]. Qed.

Lemma round_half_even_near (x : Q) :
  let r := TimeFormat.round_half_even x in
  inject_Z r - 0.5 <= x <= inject_Z r + 0.5
  /\ (Qfloor x <= r <= Qfloor x + 1)%Z.
Proof.
  unfold TimeFormat.round_half_even. cbv zeta.
  destruct (floor_bounds x) as [F1 F2].
  destruct (py_lt_spec (x - inject_Z (Qfloor x)) 0.5).
  - split; [lra | lia].
  - destruct (py_gt_spec (x - inject_Z (Qfloor x)) 0.5).
    + rewrite inject_Z_plus. change (inject_Z 1) with 1. split; [lra | lia].
    + destruct (Z.even (Qfloor x)).
      * split; [lra | lia].
      * rewrite inject_Z_plus. change (inject_Z 1) with 1. split; [lra | lia].
Qed.

(** X26.  The fields of [_seconds_to_ass_time] spell the input to the nearest
    hundredth: the minutes are between 0 and 59 and the time spelled is
    within 5ms of the input.  The seconds field runs from 0.00 to 60.00:
    it is rounded after the minutes were taken, so a time whose seconds
    part is above 59.995 is written with the seconds [60.00]. *)
Theorem seconds_to_ass_time_fields (seconds : Q) :
  let f := TimeFormat.ass_fields seconds in
  let spelled := 3600 * inject_Z (TimeFormat.ass_hours f)
                 + 60 * inject_Z (TimeFormat.ass_minutes f)
                 + inject_Z (TimeFormat.centiseconds f) / 100 in
  (0 <= TimeFormat.ass_minutes f < 60)%Z
  /\ (0 <= TimeFormat.centiseconds f <= 6000)%Z
  /\ spelled - 0.005 <= seconds <= spelled + 0.005
  /\ (59.995 < TimeFormat.mod_ seconds 60 ->
      TimeFormat.centiseconds f = 6000%Z
      /\ exists prefix,
           TimeFormat._seconds_to_ass_time seconds
           = (prefix ++ ":60.00")%string).
Proof.
  unfold TimeFormat._seconds_to_ass_time, TimeFormat.ass_fields. cbv zeta.
  cbn [TimeFormat.ass_hours TimeFormat.ass_minutes TimeFormat.centiseconds].
  destruct (minutes_and_seconds seconds) as [Hm Hs]. cbv zeta in Hm, Hs.
  destruct (mod_range seconds 60 ltac:(reflexivity)) as [H0 H1].
  set (secs := TimeFormat.mod_ seconds 60) in *.
  destruct (round_half_even_near (secs * 100)) as [[R1 R2] [R3 R4]].
  cbv zeta in R1, R2, R3, R4.
  set (cs := TimeFormat.round_half_even (secs * 100)) in *.
  assert (Hfl : (0 <= Qfloor (secs * 100) < 6000)%Z).
  { apply floor_range; [lra|]. change (inject_Z 6000) with 6000. lra. }
  split; [exact Hm|]. split; [lia|]. split; [split; lra_div|].
  intro Hhigh.
  assert (Hcs : cs = 6000%Z).
  { assert (H : (5999 < cs)%Z).
    { rewrite Zlt_Qlt. change (inject_Z 5999) with 5999. lra. }
    lia. }
  split; [exact Hcs|]. rewrite Hcs.
  exists (TimeFormat.pad 1 (TimeFormat.floordiv seconds 3600) ++ ":"
          ++ TimeFormat.pad 2
               (TimeFormat.floordiv (TimeFormat.mod_ seconds 3600) 60))%string.
  change (TimeFormat.fixed2 6000) with "60.00"%string.
  rewrite !append_assoc. reflexivity.
Qed.

(** ** Escaping of the caption text *)

Lemma prefix_empty (s : string) : String.prefix "" s = true.
Proof. now destruct s. Qed.

(** Replacing a single character, character by character. *)
Lemma replace_char_cons (c : ascii) (new : string) (x : ascii) (s : string) :
  Escape.replace (String c "") new (String x s)
  = if Ascii.eqb c x then (new ++ Escape.replace (String c "") new s)%string
    else String x (Escape.replace (String c "") new s).
Proof.
  unfold Escape.replace. cbn [Escape.replace_from String.prefix String.length].
  rewrite prefix_empty.
  destruct (Ascii.ascii_dec c x) as [->|Hne].
  - now rewrite Ascii.eqb_refl.
  - destruct (Ascii.eqb_spec c x); [contradiction | reflexivity].
Qed.

Lemma replace_char_app (c : ascii) (new a b : string) :
  Escape.replace (String c "") new (a ++ b)
  = (Escape.replace (String c "") new a
     ++ Escape.replace (String c "") new b)%string.
Proof.
  induction a as [|x a IH]; [reflexivity|].
  cbn [append]. rewrite !replace_char_cons, IH.
  destruct (Ascii.eqb c x); [now rewrite append_assoc | reflexivity].
Qed.

Lemma braces_after_closing (run : nat) (s : string) :
  braces_escaped run
    (Escape.replace "}" "\\}" (Escape.replace "{" "\\{" s)) = true.
Proof.
  revert run. induction s as [|x s IH]; intro run; [reflexivity|].
  rewrite replace_char_cons.
  destruct (Ascii.eqb_spec "{" x) as [<-|Hopen].
  - rewrite replace_char_app.
    change (Escape.replace "}" "\\}" "\\{") with "\\{"%string.
    cbn [append braces_escaped Ascii.eqb Bool.eqb orb andb Nat.leb].
    apply IH.
  - rewrite replace_char_cons.
    destruct (Ascii.eqb_spec "}" x) as [<-|Hclose].
    + cbn [append braces_escaped Ascii.eqb Bool.eqb orb andb Nat.leb].
      apply IH.
    + cbn [braces_escaped].
      destruct (Ascii.eqb x "\"); [apply IH|].
      destruct (Ascii.eqb_spec x "{") as [->|_]; [congruence|].
      destruct (Ascii.eqb_spec x "}") as [->|_]; [congruence|].
      cbn [orb]. apply IH.
Qed.

Lemma replace_plain (old new s : string) (c : ascii) (old' : string) :
  old = String c old' ->
  (c = "\" \/ c = "{" \/ c = "}")%char ->
  plain s = true -> Escape.replace old new s = s.
Proof.
  intros -> Hc. unfold Escape.replace.
  induction s as [|x s IH]; [reflexivity|].
  cbn [plain Escape.replace_from String.prefix]. intro H.
  apply andb_true_iff in H as [Hx Hs].
  apply negb_true_iff in Hx. apply orb_false_iff in Hx as [Hx H3].
  apply orb_false_iff in Hx as [H1 H2].
  assert (Hne : Ascii.eqb c x = false).
  { destruct Hc as [ -> | [ -> | -> ] ]; rewrite Ascii.eqb_sym; assumption. }
  destruct (Ascii.ascii_dec c x) as [->|Hd].
  - rewrite Ascii.eqb_refl in Hne. discriminate.
  - now rewrite (IH Hs).
Qed.

(** X27.  In the result of [_escape_ass_text] every brace has two backslashes
    directly in front of it, whatever the text was; and a text without
    backslash and brace is returned as it is. *)
Theorem escape_ass_text_braces (text : string) :
  braces_escaped 0 (Escape._escape_ass_text text) = true
  /\ (plain text = true -> Escape._escape_ass_text text = text).
Proof.
  unfold Escape._escape_ass_text. cbv zeta. split.
  - apply braces_after_closing.
  - intro H.
    rewrite (replace_plain "\\" "\\\\" text "\" "\" eq_refl) by auto.
    rewrite (replace_plain "{" "\\{" text "{" "" eq_refl) by auto.
    now rewrite (replace_plain "}" "\\}" text "}" "" eq_refl) by auto.
Qed.

(** ** The fallback filter *)

Section FallbackFilter.
Variable lower : string -> string.
Variable isdigit : string -> bool.
Variable isupper : ascii -> bool.

Lemma filter_step_flag (words_data : list Word) (show_filler : bool)
    (acc : list Word) (i : nat) (w : Word) :
  Filters.filter_step lower isdigit isupper words_data show_filler acc (i, w)
  = if show_filler || fallback_flag lower isdigit isupper words_data w
    then acc ++ [Filters.set_active w (fallback_flag lower isdigit isupper words_data w)]
    else acc.
Proof.
  unfold Filters.filter_step, fallback_flag, Filters._is_contextually_important.
  cbv zeta.
  destruct (length words_data <=? 3)%nat; [reflexivity|].
  destruct (isdigit (lower (word w)) || _); [reflexivity|].
  destruct (Filters.mem (lower (word w)) ["not"; _; _; _; _; _]%string);
    [reflexivity|].
  destruct (existsb _ Filters.preserve_patterns); [reflexivity|].
  destruct (Filters.mem (lower (word w)) Filters.fallback_stop_words);
    reflexivity.
Qed.

Lemma filter_fold (words_data : list Word) (show_filler : bool) :
  forall (l : list Word) (n : nat) (acc : list Word),
    fold_left (Filters.filter_step lower isdigit isupper words_data show_filler)
      (combine (seq n (length l)) l) acc
    = acc ++ filter (fun w => show_filler || is_active w)
               (map (fun w => Filters.set_active w (fallback_flag lower isdigit isupper words_data w)) l).
Proof.
  induction l as [|w l IH]; intros n acc.
  - cbn. now rewrite app_nil_r.
  - cbn [length seq combine fold_left map filter].
    rewrite filter_step_flag, IH.
    unfold is_active at 2. cbn [active Filters.set_active].
    destruct (show_filler || fallback_flag lower isdigit isupper words_data w);
      [now rewrite <- app_assoc | reflexivity].
Qed.

(** X28.  With [show_filler] the fallback filter returns every word, in order
    and with its text and times, each with an [active] flag; without it,
    it returns the same list less the words flagged inactive. *)
Theorem filter_with_fallback_keeps (words_data : list Word) :
  let shown :=
    Filters._filter_with_fallback lower isdigit isupper words_data true in
  Forall2 (fun w w' => word w' = word w /\ start w' = start w
                       /\ end_ w' = end_ w /\ active w' <> None)
    words_data shown
  /\ Filters._filter_with_fallback lower isdigit isupper words_data false
     = filter is_active shown.
Proof.
  unfold Filters._filter_with_fallback. rewrite !filter_fold. cbn [app orb].
  split.
  - induction words_data as [|w l IH] at 1 3; [constructor|].
    cbn [map filter]. constructor; [|exact IH].
    cbn. repeat split; discriminate.
  - generalize (fallback_flag lower isdigit isupper words_data). intro flag.
    induction words_data as [|w l IH]; [reflexivity|].
    cbn [map filter]. now rewrite <- IH.
Qed.

(** X29.  In a list of three words or fewer the fallback filter drops nothing
    and flags every word active, stop word or not. *)
Theorem filter_with_fallback_short (words_data : list Word)
    (show_filler : bool) (Hshort : (length words_data <= 3)%nat) :
  Filters._filter_with_fallback lower isdigit isupper words_data show_filler
  = map (fun w => Filters.set_active w true) words_data.
Proof.
  unfold Filters._filter_with_fallback. rewrite filter_fold. cbn [app].
  assert (Hflag : forall w, fallback_flag lower isdigit isupper words_data w = true).
  { intro w. unfold fallback_flag, Filters._is_contextually_important.
    cbv zeta. apply Nat.leb_le in Hshort. now rewrite Hshort. }
  revert Hflag. generalize (fallback_flag lower isdigit isupper words_data) as flag.
  generalize words_data as l. clear. intros l flag Hf.
  induction l as [|w l IH]; [reflexivity|].
  cbn [map filter]. unfold is_active at 1. cbn [active Filters.set_active].
  rewrite Hf, orb_true_r. f_equal. exact IH.
Qed.

End FallbackFilter.

Lemma filter_with_fallback_short_witness :
  (length [mkWord "the" 0 1 None; mkWord "and" 1 2 None] <= 3)%nat
  /\ Filters._filter_with_fallback (fun s => s) (fun _ => false) (fun _ => false)
       [mkWord "the" 0 1 None; mkWord "and" 1 2 None] false
     = [mkWord "the" 0 1 (Some true); mkWord "and" 1 2 (Some true)].
Proof.
  assert (H : (length [mkWord "the" 0 1 None; mkWord "and" 1 2 None] <= 3)%nat)
    by (cbn; lia).
  split; [exact H|].
  exact (filter_with_fallback_short (fun s => s) (fun _ => false)
           (fun _ => false) _ false H).
Defined.

(** ** The result of the Gentle alignment *)

Section GentleOutput.
Variable strip : string -> string.
Variable Whisper : Type.

Lemma process_fold (original_whisper : Whisper)
    (gentle_words : list Alignment.GentleWord) :
  forall acc,
    fold_left (Alignment.process_step strip Whisper original_whisper)
      gentle_words acc
    = acc ++ map (fun w =>
                    Alignment.mkAlignedWord
                      (strip (Alignment.get (Alignment.gentle_word w) ""%string))
                      (Alignment.get (Alignment.gentle_start w) 0)
                      (Alignment.get (Alignment.gentle_end w) 0)
                      (Alignment.get (Alignment.aligned_confidence w) 1.0)
                      "gentle")
               (filter Alignment.is_success gentle_words).
Proof.
  induction gentle_words as [|w l IH]; intro acc.
  - cbn. now rewrite app_nil_r.
  - cbn [fold_left filter]. rewrite IH. unfold Alignment.process_step.
    destruct (Alignment.is_success w).
    + cbn [map]. now rewrite <- app_assoc.
    + unfold Alignment._find_fallback_timing.
      now destruct (negb _).
Qed.

(** X30.  [_process_gentle_output] returns exactly the words that Gentle
    aligned (case [success]), in their order, each with its stripped text,
    its start, end and confidence (0, 0 and 1.0 where Gentle gave none)
    and the source [gentle]: a word that was not aligned is dropped, since
    the fallback finds no timing.  The statistic [aligned_words] is the
    number of words returned, it is at most [total_words], and
    [alignment_rate] lies between 0 and 1. *)
Theorem process_gentle_output_words (gentle_words : list Alignment.GentleWord)
    (original_whisper : Whisper) :
  let result :=
    Alignment._process_gentle_output strip Whisper gentle_words
      original_whisper in
  let stats := snd result in
  Forall2 (fun g a =>
             Alignment.aligned_word a
             = strip (Alignment.get (Alignment.gentle_word g) ""%string)
             /\ Alignment.aligned_start a
                = Alignment.get (Alignment.gentle_start g) 0
             /\ Alignment.aligned_end a
                = Alignment.get (Alignment.gentle_end g) 0
             /\ Alignment.confidence a
                = Alignment.get (Alignment.aligned_confidence g) 1.0
             /\ Alignment.source a = "gentle"%string)
    (filter Alignment.is_success gentle_words) (fst result)
  /\ length (fst result) = Alignment.aligned_words stats
  /\ Forall (fun w => Alignment.source w = "gentle"%string) (fst result)
  /\ (Alignment.aligned_words stats <= Alignment.total_words stats)%nat
  /\ 0 <= Alignment.alignment_rate stats <= 1.
Proof.
  unfold Alignment._process_gentle_output. cbv zeta.
  cbn [fst snd Alignment.aligned_words Alignment.total_words
       Alignment.alignment_rate].
  rewrite process_fold. cbn [app].
  split.
  { induction (filter Alignment.is_success gentle_words) as [|g l IH];
      [constructor|].
    cbn [map]. constructor; [|exact IH]. repeat split. }
  pose proof (filter_length_le Alignment.is_success gentle_words) as Hle.
  split; [apply length_map|].
  split; [apply Forall_map, Forall_forall; reflexivity|].
  split; [exact Hle|].
  set (a := length (filter Alignment.is_success gentle_words)) in *.
  set (n := length gentle_words) in *.
  assert (Hn : (0 < Nat.max 1 n)%nat) by lia.
  assert (Han : (a <= Nat.max 1 n)%nat) by lia.
  assert (Hq : 0 < of_nat (Nat.max 1 n)).
  { unfold of_nat. change 0 with (inject_Z 0). rewrite <- Zlt_Qlt. lia. }
  assert (Ha : 0 <= of_nat a).
  { unfold of_nat. change 0 with (inject_Z 0). rewrite <- Zle_Qle. lia. }
  assert (Hb : of_nat a <= of_nat (Nat.max 1 n)).
  { unfold of_nat. rewrite <- Zle_Qle. lia. }
  split.
  - apply Qle_shift_div_l; [exact Hq | lra].
  - apply Qle_shift_div_r; [exact Hq | lra].
Qed.

End GentleOutput.
